(** * Stream enrichment and windowed aggregation of [process_streams.py]

    The program under verification is the set of continuous queries that
    [src/demo/process_streams.py] submits to the SQL engine: the source
    table [sensor_source] with its watermark declaration, the two
    enrichment queries ([processed_query], [archive_query]) and the
    tumbling-window aggregation ([metrics_query]).

    Each SELECT list is embedded as a function on rows, written in the
    order and with the operators of the query text.  Columns are nullable,
    so a column of SQL type [T] is an [option T]; DOUBLE is the IEEE
    binary64 type of the kernel ([float]); INT and BIGINT are [Z] with
    the wrap-around of 32 and 64 bits written out where the query does
    arithmetic on them; TIMESTAMP(3) is the number of milliseconds since
    1970-01-01T00:00:00 of the timestamp's own calendar.

    The second half of the definitions covers the Python code around the
    queries: the parameter search of [train_model.py] and its loader, the
    tasks of [mlops_demo_dag.py] and the readings of [generate_data.py].
    There a call of a library or of a service is a parameter of the
    function that makes it, and a raised exception is [None]. *)

From Stdlib Require Import ZArith Floats Lia Bool Ascii String Sorted.
From Stdlib Require DecimalString DecimalNat.
From stdpp Require Import gmap strings list.

Local Open Scope Z_scope.
Set Warnings "-inexact-float,-register-all".

(** ** Nullable SQL values and the operators the queries use *)

Module Sql.

(** A nullable column; [None] is NULL. *)
Definition sql (A : Type) : Type := option A.

Definition lit {A : Type} (a : A) : sql A := Some a.

Definition lift1 {A B : Type} (f : A -> B) (x : sql A) : sql B :=
  match x with
  | Some a => Some (f a)
  | None => None
  end.

(** An operator applied to NULL is NULL. *)
Definition lift2 {A B C : Type} (f : A -> B -> C) (x : sql A) (y : sql B) : sql C :=
  match x, y with
  | Some a, Some b => Some (f a b)
  | _, _ => None
  end.

(** A WHEN branch (and a WHERE clause) is taken on TRUE only: both FALSE
    and UNKNOWN fall through. *)
Definition is_true (c : sql bool) : bool :=
  match c with
  | Some true => true
  | _ => false
  end.

(** DOUBLE arithmetic and comparison: the IEEE operations. *)
Definition sub : sql float -> sql float -> sql float := lift2 PrimFloat.sub.
Definition add : sql float -> sql float -> sql float := lift2 PrimFloat.add.
Definition mul : sql float -> sql float -> sql float := lift2 PrimFloat.mul.
Definition div : sql float -> sql float -> sql float := lift2 PrimFloat.div.
Definition ABS : sql float -> sql float := lift1 PrimFloat.abs.
(** [gt x y] is [x > y], [lt x y] is [x < y]. *)
Definition gt : sql float -> sql float -> sql bool :=
  lift2 (fun a b => PrimFloat.ltb b a).
Definition lt : sql float -> sql float -> sql bool := lift2 PrimFloat.ltb.

(** INT comparison. *)
Definition lt_int : sql Z -> sql Z -> sql bool := lift2 Z.ltb.

End Sql.

Import Sql.

(** ** The tables of the DDL statements *)

(** [sensor_source] ([create_kafka_source_table]).  [event_time] is the
    rowtime attribute of the table: the engine refuses a row whose rowtime
    is NULL, so it is the one column that is not nullable here. *)
Module SensorSource.
Record row : Type := mk {
  sensor_id : sql string;
  event_time : Z;
  temperature : sql float;
  humidity : sql float;
  pressure : sql float;
  is_anomaly : sql bool;
  building : sql string;
  floor : sql Z;
  room : sql string;
  model : sql string;
  firmware_version : sql string;
  battery_level : sql Z
}.
End SensorSource.

(** [processed_sink] ([create_processed_kafka_sink]). *)
Module ProcessedSink.
Record row : Type := mk {
  sensor_id : sql string;
  event_time : Z;
  temperature : sql float;
  humidity : sql float;
  pressure : sql float;
  temp_trend : sql string;
  humidity_category : sql string;
  comfort_index : sql float;
  anomaly_score : sql float;
  is_anomaly : sql bool;
  processing_time : Z
}.
End ProcessedSink.

(** [minio_archive] ([create_minio_sink]). *)
Module MinioArchive.
Record row : Type := mk {
  sensor_id : sql string;
  event_time : Z;
  temperature : sql float;
  humidity : sql float;
  pressure : sql float;
  temp_trend : sql string;
  humidity_category : sql string;
  comfort_index : sql float;
  anomaly_score : sql float;
  is_anomaly : sql bool;
  processing_time : Z;
  partition_date : sql string;
  partition_hour : sql string
}.
End MinioArchive.

(** [metrics_sink] ([create_aggregated_metrics_sink]). *)
Module MetricsSink.
Record row : Type := mk {
  window_start : Z;
  window_end : Z;
  building : sql string;
  sensor_count : Z;
  avg_temperature : sql float;
  avg_humidity : sql float;
  avg_pressure : sql float;
  anomaly_count : sql Z;
  anomaly_rate : sql float;
  low_battery_count : sql Z
}.
End MetricsSink.

(** ** Built-in functions of the queries *)

Module Builtin.

(** A numeric literal of the query text in a DOUBLE expression: the
    engine converts the INT literals (25, 18, 22, ...) and the DECIMAL
    literal 0.5 to DOUBLE; all of them are exact in binary64. *)
Definition dbl (x : float) : sql float := Some x.
Arguments dbl x%_float.

(** The calendar date (year, month, day) of a day number counted from
    1970-01-01, in the proleptic Gregorian calendar. *)
Definition civil_from_days (z : Z) : Z * Z * Z :=
  let z := z + 719468 in
  let era := z / 146097 in
  let doe := z - era * 146097 in
  let yoe := (doe - doe / 1460 + doe / 36524 - doe / 146096) / 365 in
  let y := yoe + era * 400 in
  let doy := doe - (365 * yoe + yoe / 4 - yoe / 100) in
  let mp := (5 * doy + 2) / 153 in
  let d := doy - (153 * mp + 2) / 5 + 1 in
  let m := if mp <? 10 then mp + 3 else mp - 9 in
  (if m <=? 2 then y + 1 else y, m, d).

Definition digit (d : Z) : ascii := ascii_of_nat (48 + Z.to_nat (d mod 10)).

Definition pad2 (n : Z) : string :=
  String (digit (n / 10)) (String (digit n) EmptyString).

Definition pad4 (n : Z) : string :=
  String (digit (n / 1000)) (String (digit (n / 100)) (pad2 n)).

Definition MILLIS_PER_DAY : Z := 86400000.
Definition MILLIS_PER_HOUR : Z := 3600000.

Definition format_date (ts : Z) : string :=
  let '(y, m, d) := civil_from_days (ts / MILLIS_PER_DAY) in
  String.append (pad4 y)
    (String.append "-" (String.append (pad2 m) (String.append "-" (pad2 d)))).

Definition format_hour (ts : Z) : string :=
  pad2 (ts mod MILLIS_PER_DAY / MILLIS_PER_HOUR).

(** [DATE_FORMAT(ts, pattern)] for the two patterns of [archive_query];
    years 0000 to 9999 (the range of TIMESTAMP). *)
Definition DATE_FORMAT (ts : Z) (pattern : string) : sql string :=
  if decide (pattern = "yyyy-MM-dd") then Some (format_date ts)
  else if decide (pattern = "HH") then Some (format_hour ts)
  else None.

End Builtin.

Import Builtin.

(** ** The enrichment queries of [process_sensor_data] *)

Declare Scope sql_scope.
Delimit Scope sql_scope with sql.
Infix "-" := Sql.sub : sql_scope.
Infix "+" := Sql.add : sql_scope.
Infix "*" := Sql.mul : sql_scope.
Infix "/" := Sql.div : sql_scope.
Infix ">" := Sql.gt : sql_scope.
Infix "<" := Sql.lt : sql_scope.

(** [processed_query]: INSERT INTO processed_sink SELECT ... FROM
    sensor_source.  [proctime] is the wall clock that PROCTIME() reads
    when the row is evaluated. *)
Definition processed_query (proctime : Z) (src : SensorSource.row) : ProcessedSink.row :=
  let temperature := SensorSource.temperature src in
  let humidity := SensorSource.humidity src in
  let pressure := SensorSource.pressure src in
  {| ProcessedSink.sensor_id := SensorSource.sensor_id src;
     ProcessedSink.event_time := SensorSource.event_time src;
     ProcessedSink.temperature := temperature;
     ProcessedSink.humidity := humidity;
     ProcessedSink.pressure := pressure;
     ProcessedSink.temp_trend :=
       if is_true (temperature > dbl 25)%sql then lit "HOT"
       else if is_true (temperature < dbl 18)%sql then lit "COLD"
       else lit "NORMAL";
     ProcessedSink.humidity_category :=
       if is_true (humidity > dbl 70)%sql then lit "HIGH"
       else if is_true (humidity < dbl 30)%sql then lit "LOW"
       else lit "MODERATE";
     ProcessedSink.comfort_index :=
       (dbl 100 - ABS (temperature - dbl 22) * dbl 2
                - ABS (humidity - dbl 45) * dbl 0.5)%sql;
     ProcessedSink.anomaly_score :=
       (ABS (temperature - dbl 22) / dbl 22 +
        ABS (humidity - dbl 50) / dbl 50 +
        ABS (pressure - dbl 1013) / dbl 1013)%sql;
     ProcessedSink.is_anomaly := SensorSource.is_anomaly src;
     ProcessedSink.processing_time := proctime |}.

(** [archive_query]: INSERT INTO minio_archive SELECT ... FROM
    sensor_source, the same select list written a second time, followed by
    the two partition columns. *)
Definition archive_query (proctime : Z) (src : SensorSource.row) : MinioArchive.row :=
  let event_time := SensorSource.event_time src in
  let temperature := SensorSource.temperature src in
  let humidity := SensorSource.humidity src in
  let pressure := SensorSource.pressure src in
  {| MinioArchive.sensor_id := SensorSource.sensor_id src;
     MinioArchive.event_time := event_time;
     MinioArchive.temperature := temperature;
     MinioArchive.humidity := humidity;
     MinioArchive.pressure := pressure;
     MinioArchive.temp_trend :=
       if is_true (temperature > dbl 25)%sql then lit "HOT"
       else if is_true (temperature < dbl 18)%sql then lit "COLD"
       else lit "NORMAL";
     MinioArchive.humidity_category :=
       if is_true (humidity > dbl 70)%sql then lit "HIGH"
       else if is_true (humidity < dbl 30)%sql then lit "LOW"
       else lit "MODERATE";
     MinioArchive.comfort_index :=
       (dbl 100 - ABS (temperature - dbl 22) * dbl 2
                - ABS (humidity - dbl 45) * dbl 0.5)%sql;
     MinioArchive.anomaly_score :=
       (ABS (temperature - dbl 22) / dbl 22 +
        ABS (humidity - dbl 50) / dbl 50 +
        ABS (pressure - dbl 1013) / dbl 1013)%sql;
     MinioArchive.is_anomaly := SensorSource.is_anomaly src;
     MinioArchive.processing_time := proctime;
     MinioArchive.partition_date := DATE_FORMAT event_time "yyyy-MM-dd";
     MinioArchive.partition_hour := DATE_FORMAT event_time "HH" |}.

(** ** Integer and DOUBLE helpers of the aggregation query *)

Module Numeric.

(** Two's complement wrap-around of a [bits]-wide signed integer. *)
Definition wrap (bits : Z) (x : Z) : Z :=
  (x + 2 ^ (bits - 1)) mod 2 ^ bits - 2 ^ (bits - 1).

(** INT (32 bits) and BIGINT (64 bits) addition. *)
Definition int_add (a b : Z) : Z := wrap 32 (a + b).
Definition bigint_add (a b : Z) : Z := wrap 64 (a + b).

(** The nearest DOUBLE (ties to even) of an integer: CAST(n AS DOUBLE). *)
Definition double_of_Z (n : Z) : float :=
  SF2Prim (binary_normalize prec emax n 0 false).

(** The nearest DOUBLE of the fraction [n / den], [0 <= n], [0 < den]:
    the quotient is taken with more than 64 significant bits and one
    sticky bit for the remainder, then rounded once. *)
Definition double_of_ratio (n den : Z) : float :=
  let s := 64 + Z.log2_up den in
  let q := (n * 2 ^ s) / den in
  let sticky := if (n * 2 ^ s) mod den =? 0 then 0 else 1 in
  SF2Prim (binary_normalize prec emax (2 * q + sticky) (- (s + 1)) false).

(** [num / den] rounded to the nearest integer, a half rounding up
    ([0 <= num], [0 < den]). *)
Definition round_half_up (num den : Z) : Z := (2 * num + den) / (2 * den).

(** [m * 2^e * 10^d] rounded to an integer, a half rounding up. *)
Definition scaled_decimal (m : positive) (e d : Z) : Z :=
  if 0 <=? e then Z.pos m * 2 ^ e * 10 ^ d
  else round_half_up (Z.pos m * 10 ^ d) (2 ^ (- e)).

(** Modelled from the spec: ROUND is a built-in of the SQL engine, which
    is not part of the repository; the spec says of it that a value is
    "rounded to 2 decimal places" (3 for the anomaly rate).  [ROUND x d],
    [0 <= d], is the DOUBLE nearest to the decimal with [d] fractional
    digits that is nearest to [x], a tie going away from zero; a zero
    result is the positive zero, and an infinity or a NaN is returned
    as it is. *)
Definition ROUND (x : float) (d : Z) : float :=
  match Prim2SF x with
  | S754_finite s m e =>
      let k := scaled_decimal m e d in
      if k =? 0 then 0%float
      else
        let r := double_of_ratio k (10 ^ d) in
        if s then (- r)%float else r
  | S754_zero _ => 0%float
  | S754_infinity _ | S754_nan => x
  end.

End Numeric.

Import Numeric.

(** ** Aggregate functions *)

Module Aggregate.

(** COUNT( * ): a BIGINT counter, one step per row. *)
Definition COUNT_star {A : Type} (rows : list A) : Z :=
  fold_left (fun c _ => bigint_add c 1) rows 0.

(** SUM over an INT expression: NULL on no input, NULL inputs skipped,
    INT addition. *)
Definition SUM_int (xs : list (sql Z)) : sql Z :=
  fold_left
    (fun acc x =>
       match x with
       | None => acc
       | Some v => match acc with
                   | None => Some v
                   | Some a => Some (int_add a v)
                   end
       end) xs None.

(** The accumulator of AVG over DOUBLE: the running sum and the BIGINT
    count of the values that are not NULL. *)
Definition avg_accumulate (acc : float * Z) (x : sql float) : float * Z :=
  match x with
  | None => acc
  | Some v => ((fst acc + v)%float, bigint_add (snd acc) 1)
  end.

(** AVG over DOUBLE: the values are added in the order of arrival;
    NULL when every input is NULL. *)
Definition AVG (xs : list (sql float)) : sql float :=
  let acc := fold_left avg_accumulate xs (0%float, 0) in
  if snd acc =? 0 then None
  else Some (fst acc / double_of_Z (snd acc))%float.

End Aggregate.

Import Aggregate.

(** ** The aggregation query of [process_sensor_data] *)

(** Tumbling windows of INTERVAL '1' MINUTE over [event_time]. *)
Definition WINDOW_SIZE : Z := 60000.
Definition TUMBLE_START (event_time : Z) : Z := event_time - event_time mod WINDOW_SIZE.
Definition TUMBLE_END (event_time : Z) : Z := TUMBLE_START event_time + WINDOW_SIZE.

(** The select list of [metrics_query] over one group of
    GROUP BY TUMBLE(event_time, INTERVAL '1' MINUTE), building: [rows] are
    the rows of the group in the order of arrival. *)
Definition metrics_query (window_start : Z) (building : sql string)
    (rows : list SensorSource.row) : MetricsSink.row :=
  {| MetricsSink.window_start := window_start;
     MetricsSink.window_end := window_start + WINDOW_SIZE;
     MetricsSink.building := building;
     MetricsSink.sensor_count := COUNT_star rows;
     MetricsSink.avg_temperature :=
       lift1 (fun v => ROUND v 2) (AVG (map SensorSource.temperature rows));
     MetricsSink.avg_humidity :=
       lift1 (fun v => ROUND v 2) (AVG (map SensorSource.humidity rows));
     MetricsSink.avg_pressure :=
       lift1 (fun v => ROUND v 2) (AVG (map SensorSource.pressure rows));
     MetricsSink.anomaly_count :=
       SUM_int (map (fun r => if is_true (SensorSource.is_anomaly r)
                              then lit 1 else lit 0) rows);
     MetricsSink.anomaly_rate :=
       lift1 (fun v => ROUND v 3)
         (lift1 double_of_Z
            (SUM_int (map (fun r => if is_true (SensorSource.is_anomaly r)
                                    then lit 1 else lit 0) rows))
          / lit (double_of_Z (COUNT_star rows)))%sql;
     MetricsSink.low_battery_count :=
       SUM_int (map (fun r => if is_true (lt_int (SensorSource.battery_level r) (lit 20))
                              then lit 1 else lit 0) rows) |}.

(** ** The source table and its watermark

    [WATERMARK FOR event_time AS event_time - INTERVAL '5' SECOND]
    ([create_kafka_source_table]).  The declaration gives the watermark
    candidate of one row; the source keeps, for each partition of the
    topic, the largest candidate it has computed, and on each periodic
    tick it publishes the minimum over its partitions when that minimum
    has advanced. *)

Module Source.

Definition BOUNDED_LATENESS : Z := 5000.

(** The watermark expression of the DDL, on one row. *)
Definition watermark_expr (e : SensorSource.row) : Z :=
  SensorSource.event_time e - BOUNDED_LATENESS.

(** The watermark before any row: the smallest BIGINT. *)
Definition MIN_WATERMARK : Z := - 2 ^ 63.

Record state : Type := mk {
  partition_watermarks : list Z;
  last_emitted : Z
}.

(** A source over [n] partitions, none of which has delivered a row. *)
Definition init (n : nat) : state :=
  {| partition_watermarks := replicate n MIN_WATERMARK;
     last_emitted := MIN_WATERMARK |}.

(** What the source does next: take a row from a partition, or run the
    periodic watermark emission. *)
Inductive input : Type :=
| Poll (partition : nat) (e : SensorSource.row)
| Tick.

(** The stream the source hands to the queries. *)
Inductive element : Type :=
| Event (e : SensorSource.row)
| Watermark (w : Z).

(** The watermark of the whole source: the slowest partition. *)
Definition combined_watermark (ws : list Z) : Z :=
  match ws with
  | [] => MIN_WATERMARK
  | w :: ws' => fold_right Z.min w ws'
  end.

Definition current_watermark (st : state) : Z :=
  combined_watermark (partition_watermarks st).

Definition on_event (p : nat) (e : SensorSource.row) (st : state) : state :=
  match partition_watermarks st !! p with
  | Some w =>
      {| partition_watermarks :=
           <[p := Z.max w (watermark_expr e)]> (partition_watermarks st);
         last_emitted := last_emitted st |}
  | None => st
  end.

Definition step (st : state) (i : input) : state * list element :=
  match i with
  | Poll p e => (on_event p e st, [Event e])
  | Tick =>
      let w := current_watermark st in
      if last_emitted st <? w
      then ({| partition_watermarks := partition_watermarks st;
               last_emitted := w |}, [Watermark w])
      else (st, [])
  end.

Fixpoint run_from (st : state) (ins : list input) : state * list element :=
  match ins with
  | [] => (st, [])
  | i :: ins' =>
      let '(st1, out1) := step st i in
      let '(st2, out2) := run_from st1 ins' in
      (st2, out1 ++ out2)
  end.

Definition run (n : nat) (ins : list input) : state * list element :=
  run_from (init n) ins.

(** The event-times that partition [p] has delivered, in order. *)
Definition event_times (p : nat) (ins : list input) : list Z :=
  omap (fun i => match i with
                 | Poll q e => if decide (q = p) then Some (SensorSource.event_time e) else None
                 | Tick => None
                 end) ins.

(** The watermarks of a stream, in the order of emission. *)
Definition watermarks (out : list element) : list Z :=
  omap (fun x => match x with Watermark w => Some w | Event _ => None end) out.

(** The watermark of the source after each input, in order. *)
Fixpoint watermark_trace (st : state) (ins : list input) : list Z :=
  match ins with
  | [] => []
  | i :: ins' =>
      let st1 := fst (step st i) in
      current_watermark st1 :: watermark_trace st1 ins'
  end.

End Source.

(** ** The window operator of [metrics_query]

    GROUP BY TUMBLE(event_time, INTERVAL '1' MINUTE), building, over the
    stream of the source.  A group is created by the first row of its
    window and building, collects the rows in the order of arrival, and is
    evaluated by the select list and evicted when the watermark reaches the
    last millisecond of the window.  A row whose window the watermark has
    already reached is not added to any group. *)

Module Window.

Import Source.

(** The grouping key: window start and building. *)
Definition key : Type := Z * sql string.

Definition key_of (e : SensorSource.row) : key :=
  (TUMBLE_START (SensorSource.event_time e), SensorSource.building e).

(** The last millisecond of the window of a key. *)
Definition max_timestamp (k : key) : Z := fst k + WINDOW_SIZE - 1.

Definition is_late (wm : Z) (k : key) : bool := max_timestamp k <=? wm.

Record state : Type := mk {
  watermark : Z;
  groups : gmap key (list SensorSource.row)
}.

Definition init : state :=
  {| watermark := MIN_WATERMARK; groups := ∅ |}.

(** The rows collected so far for a key. *)
Definition rows_of (st : state) (k : key) : list SensorSource.row :=
  default [] (groups st !! k).

Definition process_event (e : SensorSource.row) (st : state) : state :=
  let k := key_of e in
  if is_late (watermark st) k then st
  else {| watermark := watermark st;
          groups := <[k := rows_of st k ++ [e]]> (groups st) |}.

Definition emit (kv : key * list SensorSource.row) : MetricsSink.row :=
  metrics_query (fst (fst kv)) (snd (fst kv)) (snd kv).

(** A watermark that does not advance is ignored; one that advances
    closes every group whose window it has reached. *)
Definition process_watermark (w : Z) (st : state) : state * list MetricsSink.row :=
  if w <=? watermark st then (st, [])
  else
    ({| watermark := w;
        groups := filter (fun kv => ¬ max_timestamp (fst kv) ≤ w) (groups st) |},
     emit <$> filter (fun kv => max_timestamp (fst kv) ≤ w) (map_to_list (groups st))).

Definition step (st : state) (x : element) : state * list MetricsSink.row :=
  match x with
  | Event e => (process_event e st, [])
  | Watermark w => process_watermark w st
  end.

(** The state after a stream and the summaries written to
    [metrics_sink], in order. *)
Fixpoint run_from (st : state) (s : list element) : state * list MetricsSink.row :=
  match s with
  | [] => (st, [])
  | x :: s' =>
      let '(st1, out1) := step st x in
      let '(st2, out2) := run_from st1 s' in
      (st2, out1 ++ out2)
  end.

Definition run (s : list element) : state * list MetricsSink.row :=
  run_from init s.

Definition summary_key (r : MetricsSink.row) : key :=
  (MetricsSink.window_start r, MetricsSink.building r).

(** How many summaries of a key a list holds. *)
Definition emissions (k : key) (out : list MetricsSink.row) : nat :=
  length (filter (fun r => summary_key r = k) out).

(** The rows of key [k] that a stream adds to the group of [k], in
    order, when the operator starts at watermark [wm]. *)
Fixpoint assigned (wm : Z) (s : list element) (k : key) : list SensorSource.row :=
  match s with
  | [] => []
  | Event e :: s' =>
      if is_late wm (key_of e) then assigned wm s' k
      else if decide (key_of e = k) then e :: assigned wm s' k
      else assigned wm s' k
  | Watermark w :: s' => assigned (Z.max wm w) s' k
  end.

(** The three phases of a window and building, read off a run. *)
Inductive phase : Type := ABSENT | OPEN | EMITTED.

Definition phase_of (res : state * list MetricsSink.row) (k : key) : phase :=
  match groups (fst res) !! k with
  | Some _ => OPEN
  | None => if decide (emissions k (snd res) = 0%nat) then ABSENT else EMITTED
  end.

(** A failure after [j] elements with the last completed checkpoint
    taken after [i] elements: the operator restarts from the state of
    the checkpoint and the source replays the stream from there.  The
    sink table declares no delivery guarantee, so what was written
    before the failure stays in the topic. *)
Definition run_with_failure (s : list element) (i j : nat) : list MetricsSink.row :=
  snd (run (take j s)) ++ snd (run_from (fst (run (take i s))) (drop i s)).

End Window.

(** ** The archive sink

    [minio_archive] is PARTITIONED BY (partition_date, partition_hour);
    the sink writes a row below the directory of its partition, one level
    per partition column, named by the column.  With
    'sink.partition-commit.trigger' = 'process-time',
    'sink.partition-commit.delay' = '1 min' and
    'sink.partition-commit.policy.kind' = 'success-file', a partition is
    committed, by writing an empty [_SUCCESS] file, once the clock of the
    machine has passed the time of the creation of the partition by the
    delay.  The sink looks at the clock at its commit checks, which come
    with the checkpoints of the job ([CommitTrigger]); a row written to a
    committed partition opens it again. *)

Module Archive.

Definition DEFAULT_PARTITION : string := "__DEFAULT_PARTITION__".
Definition SUCCESS_FILE : string := "_SUCCESS".
Definition COMMIT_DELAY : Z := 60000.

Definition partition_dir (column : string) (value : sql string) : string :=
  String.append column (String.append "=" (String.append (default DEFAULT_PARTITION value) "/")).

Definition partition_path (r : MinioArchive.row) : string :=
  String.append (partition_dir "partition_date" (MinioArchive.partition_date r))
                (partition_dir "partition_hour" (MinioArchive.partition_hour r)).

Record partition : Type := mk {
  records : list MinioArchive.row;
  (** the clock at the creation of the partition, while a commit is pending *)
  pending : option Z;
  (** the marker files of the directory: name and content *)
  markers : list (string * string)
}.

Inductive action : Type :=
| Append (now : Z) (r : MinioArchive.row)
| CommitTrigger (now : Z).

Definition append_row (now : Z) (r : MinioArchive.row) (o : option partition) : option partition :=
  match o with
  | None => Some {| records := [r]; pending := Some now; markers := [] |}
  | Some p => Some {| records := records p ++ [r];
                      pending := Some (default now (pending p));
                      markers := markers p |}
  end.

Definition committable (now : Z) (p : partition) : bool :=
  match pending p with
  | Some created => created + COMMIT_DELAY <? now
  | None => false
  end.

(** The marker is a file of the directory: writing it again replaces it. *)
Definition commit (now : Z) (p : partition) : partition :=
  if committable now p
  then {| records := records p; pending := None;
          markers := (SUCCESS_FILE, EmptyString)
                     :: filter (fun f => fst f <> SUCCESS_FILE) (markers p) |}
  else p.

Definition step (st : gmap string partition) (a : action) : gmap string partition :=
  match a with
  | Append now r => partial_alter (append_row now r) (partition_path r) st
  | CommitTrigger now => commit now <$> st
  end.

(** The directories after a run of the sink, from an empty archive. *)
Definition run (actions : list action) : gmap string partition :=
  fold_left step actions ∅.

(** Whether a directory holds the marker file. *)
Definition has_marker (st : gmap string partition) (path : string) : bool :=
  match st !! path with
  | Some p => bool_decide (SUCCESS_FILE ∈ fst <$> markers p)
  | None => false
  end.

End Archive.

(** ** Sample rows *)

Module Sample.

(** A row of the generator's shape at 2024-01-15T10:30:00. *)
Definition reading (t : Z) (temperature humidity pressure : float) (anomalous : bool)
    (building : string) (battery : Z) : SensorSource.row :=
  {| SensorSource.sensor_id := Some "sensor_001";
     SensorSource.event_time := t;
     SensorSource.temperature := Some temperature;
     SensorSource.humidity := Some humidity;
     SensorSource.pressure := Some pressure;
     SensorSource.is_anomaly := Some anomalous;
     SensorSource.building := Some building;
     SensorSource.floor := Some 3;
     SensorSource.room := Some "Room_101";
     SensorSource.model := Some "SensorPro-X1";
     SensorSource.firmware_version := Some "v1.0.0";
     SensorSource.battery_level := Some battery |}.

(** The row of the spec's enrichment scenario. *)
Definition hot_humid : SensorSource.row :=
  reading 1705314600000 26 75 1013 false "Building_001" 80.

End Sample.

(** ** What the claims say of a reading *)

(** [reading_above x c]: the reading is there and greater than [c]. *)
Definition reading_above (x : sql float) (c : float) : Prop :=
  exists v, x = Some v /\ (c <? v)%float = true.

(** [reading_below x c]: the reading is there and less than [c]. *)
Definition reading_below (x : sql float) (c : float) : Prop :=
  exists v, x = Some v /\ (v <? c)%float = true.

(** The row with its processing-time stamp replaced. *)
Definition with_processing_time (t : Z) (r : ProcessedSink.row) : ProcessedSink.row :=
  {| ProcessedSink.sensor_id := ProcessedSink.sensor_id r;
     ProcessedSink.event_time := ProcessedSink.event_time r;
     ProcessedSink.temperature := ProcessedSink.temperature r;
     ProcessedSink.humidity := ProcessedSink.humidity r;
     ProcessedSink.pressure := ProcessedSink.pressure r;
     ProcessedSink.temp_trend := ProcessedSink.temp_trend r;
     ProcessedSink.humidity_category := ProcessedSink.humidity_category r;
     ProcessedSink.comfort_index := ProcessedSink.comfort_index r;
     ProcessedSink.anomaly_score := ProcessedSink.anomaly_score r;
     ProcessedSink.is_anomaly := ProcessedSink.is_anomaly r;
     ProcessedSink.processing_time := t |}.

(** ** What the claims say of a stream *)

(** The order of two positive finite values, on their mantissas and
    exponents. *)
Definition finite_lt (m1 : positive) (e1 : Z) (m2 : positive) (e2 : Z) : bool :=
  (e1 <? e2) || ((e1 =? e2) && (m1 <? m2)%positive).

(** The largest element of a list of event-times. *)
Definition max_event_time (ts : list Z) : option Z :=
  match ts with
  | [] => None
  | t :: ts' => Some (fold_left Z.max ts' t)
  end.

(** The arithmetic mean of the readings that are there, in DOUBLE
    arithmetic: their sum in the order of arrival over their number. *)
Definition mean (xs : list (sql float)) : sql float :=
  let vs := omap id xs in
  match vs with
  | [] => None
  | _ => Some (fold_left PrimFloat.add vs 0%float
               / double_of_Z (Z.of_nat (length vs)))%float
  end.

(** What the claims count in a group. *)
Definition count_if {A : Type} (f : A -> bool) (rows : list A) : nat :=
  length (List.filter f rows).

(** A row marked anomalous by its producer. *)
Definition anomalous (e : SensorSource.row) : bool :=
  match SensorSource.is_anomaly e with
  | Some true => true
  | _ => false
  end.

(** A row with battery_level < 20. *)
Definition low_battery (e : SensorSource.row) : bool :=
  match SensorSource.battery_level e with
  | Some b => b <? 20
  | None => false
  end.


(** The invariant of the operator: every open group belongs to a window
    that the watermark has not reached, is not empty, and holds rows of
    its own key only. *)
Definition wf (st : Window.state) : Prop :=
  forall k rows, Window.groups st !! k = Some rows ->
    Window.watermark st < Window.max_timestamp k /\ rows <> [] /\
    Forall (fun e => Window.key_of e = k) rows.

(** The rows of the source that reach [metrics_sink]: the stream of the
    source, through the window operator. *)
Definition metrics_pipeline (partitions : nat) (ins : list Source.input)
    : Window.state * list MetricsSink.row :=
  Window.run (snd (Source.run partitions ins)).

(** The scenario of the spec: three rows of one building in one window,
    one of them anomalous and one with battery_level 15, and a later row
    that takes the watermark past the window. *)
Definition window_scenario : list Source.input :=
  [ Source.Poll 0 (Sample.reading 1705314601000 21 48 1012 false "Building_001" 80);
    Source.Poll 0 (Sample.reading 1705314615000 36 70 1013 true "Building_001" 64);
    Source.Poll 0 (Sample.reading 1705314630000 22 51 1014 false "Building_001" 15);
    Source.Tick;
    Source.Poll 0 (Sample.reading 1705314665000 22 50 1013 false "Building_001" 90);
    Source.Tick ].

(** The summary of the first window of [window_scenario]. *)
Definition window_scenario_summary : MetricsSink.row :=
  {| MetricsSink.window_start := 1705314600000;
     MetricsSink.window_end := 1705314660000;
     MetricsSink.building := Some "Building_001";
     MetricsSink.sensor_count := 3;
     MetricsSink.avg_temperature := Some 26.33%float;
     MetricsSink.avg_humidity := Some 56.33%float;
     MetricsSink.avg_pressure := Some 1013%float;
     MetricsSink.anomaly_count := Some 1;
     MetricsSink.anomaly_rate := Some 0.333%float;
     MetricsSink.low_battery_count := Some 1 |}.

(** A row at 2024-01-15T10:30:10 of a window that nothing closes. *)
Definition lone_reading : SensorSource.row :=
  Sample.reading 1705314610000 21 48 1012 false "Building_001" 80.

(** A row of the first window of [window_scenario], arriving after the
    window has been written. *)
Definition late_reading : SensorSource.row :=
  Sample.reading 1705314605000 40 90 1013 true "Building_001" 10.

(** * The model trainer ([train_model.py]) and the orchestration
      ([mlops_demo_dag.py]) *)

(** ** The order of DOUBLE values, for the comparisons of the Python code *)

Module FloatOrder.

(** A key of a value that is not NaN; the keys are ordered as the values
    are compared. *)
Definition rank (x : spec_float) : option (Z * Z * Z) :=
  match x with
  | S754_nan => None
  | S754_infinity true => Some (-2, 0, 0)
  | S754_infinity false => Some (2, 0, 0)
  | S754_zero _ => Some (0, 0, 0)
  | S754_finite true m e => Some (-1, - e, - Z.pos m)
  | S754_finite false m e => Some (1, e, Z.pos m)
  end.

Definition lex_lt (a b : Z * Z * Z) : Prop :=
  fst (fst a) < fst (fst b) \/
  (fst (fst a) = fst (fst b) /\
   (snd (fst a) < snd (fst b) \/ (snd (fst a) = snd (fst b) /\ snd a < snd b))).

Definition key (x : float) : option (Z * Z * Z) := rank (Prim2SF x).

(** [x] is a number: not NaN. *)
Definition is_number (x : float) : Prop := key x <> None.

End FloatOrder.

(** ** Python values *)

(** The values of the parameter grids. *)
Inductive pyval : Type :=
| PyNone
| PyStr (s : string)
| PyInt (n : Z)
| PyFloat (x : float).

(** ** [ModelTrainer._generate_param_combinations] *)

Module ParamGrid.

(** A parameter grid: a dict from a name to the list of its values, in
    the order of insertion. *)
Definition grid : Type := list (string * list pyval).

(** [itertools.product( *values)]: one value of each list, the last list
    varying fastest. *)
Fixpoint product {A : Type} (values : list (list A)) : list (list A) :=
  match values with
  | [] => [[]]
  | vs :: rest => flat_map (fun v => map (cons v) (product rest)) vs
  end.

(** [dict(zip(keys, combination))]: the keyword arguments of one model. *)
Definition dict_zip (keys : list string) (combination : list pyval) : gmap string pyval :=
  list_to_map (zip keys combination).

Definition generate_param_combinations (param_grid : grid) : list (gmap string pyval) :=
  let keys := map fst param_grid in
  let values := map snd param_grid in
  map (dict_zip keys) (product values).

(** The number of combinations of a grid. *)
Definition grid_size (param_grid : grid) : nat :=
  fold_right (fun kv n => (length (snd kv) * n)%nat) 1%nat param_grid.

(** The grids of [train_unsupervised_models]. *)
Definition isolation_forest_grid : grid :=
  [ ("contamination", [PyFloat 0.05; PyFloat 0.1; PyFloat 0.15]);
    ("n_estimators", [PyInt 50; PyInt 100; PyInt 200]) ].

Definition one_class_svm_grid : grid :=
  [ ("kernel", [PyStr "rbf"; PyStr "linear"]);
    ("gamma", [PyStr "scale"; PyStr "auto"; PyFloat 0.001; PyFloat 0.01]);
    ("nu", [PyFloat 0.05; PyFloat 0.1; PyFloat 0.15]) ].

End ParamGrid.

(** ** The search of [ModelTrainer.train_unsupervised_models]

    The body of the [try] for one model: the first ten combinations of
    the grid are fitted and scored in turn and the first one of the
    highest score is kept; the model kept then predicts, its parameters
    and metrics are logged and the model is registered, and only then the
    entry of the model is set in [results].  Fitting and scoring belong
    to the learning library; [fit_score] gives the mean score of the
    fitted model, or nothing when the library raises.  The calls between
    the loop and the entry belong to the learning and the tracking
    libraries; [log_model] gives the model_uri of the registered model, or
    nothing when one of them raises. *)

Module Search.

Section WithLibrary.

Variable fit_score : gmap string pyval -> option float.

(** The loop over the combinations; [None] when one of them raises. *)
Fixpoint search (combinations : list (gmap string pyval))
    (best_score : float) (best_params : option (gmap string pyval))
    : option (float * option (gmap string pyval)) :=
  match combinations with
  | [] => Some (best_score, best_params)
  | params :: rest =>
      match fit_score params with
      | None => None
      | Some score =>
          if (best_score <? score)%float
          then search rest score (Some params)
          else search rest best_score best_params
      end
  end.

(** The parameters and the score of the model that the loop keeps; [None]
    when a combination raised, or when no model was kept: then
    [best_model.predict] fails on [None]. *)
Definition kept_model (param_grid : ParamGrid.grid)
    : option (gmap string pyval * float) :=
  match search (take 10 (ParamGrid.generate_param_combinations param_grid))
               neg_infinity None with
  | Some (best_score, Some best_params) => Some (best_params, best_score)
  | _ => None
  end.

(** [predict], [log_params], [log_metric], [infer_signature] and
    [log_model] on the model kept. *)
Variable log_model : gmap string pyval -> float -> option string.

(** The entry of the model in [results], with the parameters and the
    score that were logged; [None] when the [except] branch is taken and
    no entry is set. *)
Definition train_unsupervised (param_grid : ParamGrid.grid)
    : option (gmap string pyval * float * string) :=
  match kept_model param_grid with
  | Some (best_params, best_score) =>
      match log_model best_params best_score with
      | Some model_uri => Some (best_params, best_score, model_uri)
      | None => None
      end
  | None => None
  end.

End WithLibrary.

End Search.


(** A score that stands for the library in examples: the contamination
    of the combination. *)
Module TrainerSample.

Definition score_by_contamination (d : gmap string pyval) : option float :=
  match d !! "contamination" with
  | Some (PyFloat x) => Some x
  | _ => None
  end.

End TrainerSample.


(** * The orchestration: [mlops_demo_dag.py]

    The tasks of the DAG that are Python functions.  What a task reads
    from a service is a parameter: the outcome of a request, [None] when
    the request or the reading of its response raises. *)
Module Dag.

Inductive service_kind : Type := Tcp | Http.

Definition services : list (string * service_kind) :=
  [("kafka", Tcp); ("flink", Http); ("mlflow", Http); ("minio", Http)].

Section Infrastructure.

(** The result code of [connect_ex] for a TCP service, the status code of
    the response for an HTTP service. *)
Variable probe : string -> option Z.

Definition healthy (service : string * service_kind) : bool :=
  match probe (fst service) with
  | None => false
  | Some code =>
      match snd service with
      | Tcp => code =? 0
      | Http => code =? 200
      end
  end.

(** The dict [results], in the order of insertion. *)
Definition health_checks (svcs : list (string * service_kind)) : list (string * bool) :=
  map (fun service => (fst service, healthy service)) svcs.

(** [inl failed_services] when the task raises. *)
Definition validate_infrastructure : list string + list (string * bool) :=
  let results := health_checks services in
  let all_healthy := forallb snd results in
  if negb all_healthy
  then inl (map fst (filter (fun kv => negb (snd kv)) results))
  else inr results.

End Infrastructure.

(** [monitor_data_flow]: the dict [monitoring_results]; the key
    flink_jobs_running is set only after a response of status 200. *)
Record monitoring_results : Type := mk_monitoring {
  kafka_topics_created : bool;
  data_generation_active : bool;
  flink_processing_active : bool;
  data_in_minio : bool;
  flink_jobs_running : option nat
}.

(** The response of Flink to /jobs: its status code and, read only at
    status 200, the statuses of its jobs ([None] when the body is not as
    the task reads it). *)
Definition monitor_data_flow
    (flink_response : option (Z * option (list string)))
    (minio_response : option Z) : monitoring_results :=
  let start := mk_monitoring true true true false None in
  match flink_response with
  | None => start
  | Some (status_code, jobs) =>
      let after_flink :=
        if status_code =? 200
        then match jobs with
             | None => None
             | Some statuses =>
                 let running_jobs := filter (fun status => String.eqb status "RUNNING") statuses in
                 Some (mk_monitoring true true true false (Some (length running_jobs)))
             end
        else Some start in
      match after_flink with
      | None => start
      | Some results =>
          match minio_response with
          | None => results
          | Some minio_status =>
              mk_monitoring (kafka_topics_created results) (data_generation_active results)
                (flink_processing_active results) (minio_status =? 200)
                (flink_jobs_running results)
          end
      end
  end.

(** The tracking server as [validate_and_promote_models] reads it: an
    experiment is a dict with the optional keys name and experiment_id,
    a run a dict whose f1 is at data.metrics.f1 and whose id is at
    info.run_id, either of which may be missing. *)
Module Mlflow.

Record experiment : Type := mk_experiment {
  name : option string;
  experiment_id : option string
}.

Record run : Type := mk_run {
  run_id : option string;
  f1 : option float
}.

(** The response to runs/search: its status code and, read only at status
    200, the list at the key runs of its body ([[]] when the key is
    missing, [None] when the body cannot be read). *)
Record runs_response : Type := mk_response {
  status_code : Z;
  runs : option (list run)
}.

End Mlflow.

(** The dict [validation_results]; the keys best_f1_score and best_run_id
    are set only when a model is promoted. *)
Record validation_results : Type := mk_validation {
  experiments_found : nat;
  models_validated : nat;
  models_promoted : Z;
  best_f1_score : option float;
  best_run_id : option string
}.

(** [needle in s] of Python, for strings. *)
Fixpoint contains (needle s : string) : bool :=
  String.prefix needle s ||
  match s with
  | EmptyString => false
  | String _ rest => contains needle rest
  end.

Definition EXPERIMENT_NAME : string := "sensor-anomaly-detection".

Definition MIN_F1 : float := 0.7%float.

(** The loop over the runs of one experiment. *)
Fixpoint best_run_of (runs : list Mlflow.run) (best_f1 : float) (best_run : option Mlflow.run)
    : float * option Mlflow.run :=
  match runs with
  | [] => (best_f1, best_run)
  | run :: rest =>
      let f1_score := default 0%float (Mlflow.f1 run) in
      if (best_f1 <? f1_score)%float
      then best_run_of rest f1_score (Some run)
      else best_run_of rest best_f1 best_run
  end.

Section Validation.

Variable search_runs : string -> option Mlflow.runs_response.

(** The body of the loop over the experiments; [None] when it raises. *)
Definition validate_experiment (results : validation_results) (experiment : Mlflow.experiment)
    : option validation_results :=
  if contains EXPERIMENT_NAME (default EmptyString (Mlflow.name experiment))
  then
    experiment_id ← Mlflow.experiment_id experiment;
    runs_response ← search_runs experiment_id;
    if Mlflow.status_code runs_response =? 200
    then
      runs ← Mlflow.runs runs_response;
      let results :=
        mk_validation (experiments_found results) (length runs) (models_promoted results)
          (best_f1_score results) (best_run_id results) in
      match best_run_of runs 0%float None with
      | (best_f1, Some best_run) =>
          if (MIN_F1 <? best_f1)%float
          then
            run_id ← Mlflow.run_id best_run;
            Some (mk_validation (experiments_found results) (models_validated results) 1
                    (Some best_f1) (Some run_id))
          else Some results
      | (_, None) => Some results
      end
    else Some results
  else Some results.

Fixpoint validate_experiments (results : validation_results)
    (experiments : list Mlflow.experiment) : option validation_results :=
  match experiments with
  | [] => Some results
  | experiment :: rest =>
      results' ← validate_experiment results experiment;
      validate_experiments results' rest
  end.

(** [None] stands for the dict with the one key error that the task
    returns when anything in its body raises. *)
Definition validate_and_promote_models (experiments : option (list Mlflow.experiment))
    : option validation_results :=
  experiments ← experiments;
  validate_experiments (mk_validation (length experiments) 0 0 None None) experiments.

End Validation.

(** The lines of the summary of [generate_performance_report] that depend
    on the results of the other tasks. *)
Inductive health : Type := PASS | FAIL.

Inductive activity : Type := ACTIVE | INACTIVE.

Record report_summary : Type := mk_summary {
  infrastructure_health : health;
  data_pipeline : activity;
  models_trained : nat;
  models_promoted_shown : Z;
  best_model_f1 : option float
}.

Definition generate_performance_report
    (infrastructure_status : list (string * bool))
    (data_flow_status : monitoring_results)
    (model_validation : option validation_results) : report_summary :=
  mk_summary
    (if forallb snd infrastructure_status then PASS else FAIL)
    (if flink_processing_active data_flow_status then ACTIVE else INACTIVE)
    (from_option models_validated 0%nat model_validation)
    (from_option models_promoted 0 model_validation)
    (model_validation ≫= best_f1_score).

End Dag.


(** ** What is said of the validation of the models *)

(** The runs of an experiment that [validate_and_promote_models] looks
    at: those of an experiment of a matching name whose search is answered
    with status 200. *)
Definition validated_runs (search_runs : string -> option Dag.Mlflow.runs_response)
    (experiment : Dag.Mlflow.experiment) : option (list Dag.Mlflow.run) :=
  if Dag.contains Dag.EXPERIMENT_NAME (default EmptyString (Dag.Mlflow.name experiment))
  then
    experiment_id ← Dag.Mlflow.experiment_id experiment;
    runs_response ← search_runs experiment_id;
    if Dag.Mlflow.status_code runs_response =? 200
    then Dag.Mlflow.runs runs_response
    else None
  else None.

(** An experiment with a run whose f1 is above the threshold. *)
Definition promotable (search_runs : string -> option Dag.Mlflow.runs_response)
    (experiment : Dag.Mlflow.experiment) : Prop :=
  exists runs run f,
    validated_runs search_runs experiment = Some runs /\
    run ∈ runs /\ Dag.Mlflow.f1 run = Some f /\ (Dag.MIN_F1 <? f)%float = true.

(** What holds of the results after the experiments [seen]. *)
Definition validation_invariant (search_runs : string -> option Dag.Mlflow.runs_response)
    (seen : list Dag.Mlflow.experiment) (results : Dag.validation_results) : Prop :=
  (Dag.models_promoted results = 0 \/ Dag.models_promoted results = 1) /\
  (Dag.models_promoted results = 1 <-> exists e, e ∈ seen /\ promotable search_runs e) /\
  (Dag.models_promoted results = 0 ->
   Dag.best_f1_score results = None /\ Dag.best_run_id results = None) /\
  (Dag.models_promoted results = 1 ->
   exists e runs run f run_id,
     e ∈ seen /\ validated_runs search_runs e = Some runs /\ run ∈ runs /\
     Dag.Mlflow.f1 run = Some f /\ Dag.Mlflow.run_id run = Some run_id /\
     Dag.best_f1_score results = Some f /\ Dag.best_run_id results = Some run_id /\
     (Dag.MIN_F1 <? f)%float = true /\
     (forall run' f', run' ∈ runs -> Dag.Mlflow.f1 run' = Some f' -> (f <? f')%float = false)).

(** A tracking server in examples: one experiment of the trainer with a
    run of each kind of model. *)
Module DagSample.

Definition experiments : list Dag.Mlflow.experiment :=
  [ Dag.Mlflow.mk_experiment (Some "Default") (Some "0");
    Dag.Mlflow.mk_experiment (Some "sensor-anomaly-detection") (Some "1") ].

Definition search_runs (experiment_id : string) : option Dag.Mlflow.runs_response :=
  if String.eqb experiment_id "1"
  then Some (Dag.Mlflow.mk_response 200
               (Some [ Dag.Mlflow.mk_run (Some "run-a") (Some 0.75%float);
                       Dag.Mlflow.mk_run (Some "run-b") (Some 0.82%float);
                       Dag.Mlflow.mk_run (Some "run-c") None ]))
  else Some (Dag.Mlflow.mk_response 200 (Some [])).

Definition probe (service : string) : option Z :=
  if String.eqb service "kafka" then Some 0 else Some 200.

End DagSample.


(** * The trainer's loader: [DataLoader.load_sensor_data]

    A naive [datetime] is a number of milliseconds like a TIMESTAMP, and
    [strftime('%Y-%m-%d')] is [Builtin.format_date] (years 1000 to 9999).
    The object store is a parameter: the keys of the Contents of a listing
    ([[]] when the response has no Contents), and the frame read from an
    object; [None] when the call raises. *)
Module Loader.

Inductive result (A : Type) : Type :=
| OutOfFuel
| Raised
| Returned (a : A).
Arguments OutOfFuel {A}.
Arguments Raised {A}.
Arguments Returned {A} a.

Definition DAY : Z := Builtin.MILLIS_PER_DAY.

Definition prefix_of (date_str : string) : string :=
  String.append "sensor-archive/partition_date=" (String.append date_str "/").

(** [s.endswith(suffix)] *)
Fixpoint endswith (s suffix : string) : bool :=
  String.eqb s suffix ||
  match s with
  | EmptyString => false
  | String _ rest => endswith rest suffix
  end.

Section WithStorage.

Variable frame : Type.
Variable list_objects_v2 : string -> option (list string).
Variable read_parquet : string -> option frame.

(** The loop over the Contents of one listing; an object that cannot be
    read ends it. *)
Fixpoint load_objects (contents : list string) (dataframes : list frame) : list frame :=
  match contents with
  | [] => dataframes
  | key :: rest =>
      if endswith key ".parquet"
      then match read_parquet key with
           | Some df => load_objects rest (dataframes ++ [df])
           | None => dataframes
           end
      else load_objects rest dataframes
  end.

(** The body of the loop over the dates, with its [try]. *)
Definition load_date (current_date : Z) (dataframes : list frame) : list frame :=
  let date_str := Builtin.format_date current_date in
  let prefix := prefix_of date_str in
  match list_objects_v2 prefix with
  | Some contents => load_objects contents dataframes
  | None => dataframes
  end.

(** [while current_date <= end_date] *)
Fixpoint load_dates (fuel : nat) (current_date end_date : Z) (dataframes : list frame)
    : option (list frame) :=
  if current_date <=? end_date
  then match fuel with
       | O => None
       | S fuel => load_dates fuel (current_date + DAY) end_date
                     (load_date current_date dataframes)
       end
  else Some dataframes.

(** The frames that are concatenated; [Raised] is the ValueError. *)
Definition load_sensor_data (fuel : nat) (now : Z) (days_back : Z) : result (list frame) :=
  let end_date := now in
  let start_date := end_date - days_back * DAY in
  match load_dates fuel start_date end_date [] with
  | None => OutOfFuel
  | Some [] => Raised
  | Some dataframes => Returned dataframes
  end.

(** The data [main] goes on with: what was loaded, or synthetic data when
    the loaded frame is empty; [empty dataframes] is [.empty] of the
    concatenation. *)
Inductive training_data : Type :=
| Loaded (dataframes : list frame)
| Synthetic (n_samples : Z).

Variable empty : list frame -> bool.

Definition DAYS_BACK : Z := 7.

Definition main_data (fuel : nat) (now : Z) : result training_data :=
  match load_sensor_data fuel now DAYS_BACK with
  | OutOfFuel => OutOfFuel
  | Raised => Raised
  | Returned df => Returned (if empty df then Synthetic 1000 else Loaded df)
  end.

End WithStorage.

End Loader.

(** ** What is said of the loader *)

(** The dates whose directories the loader lists. *)
Definition loader_dates (now days_back : Z) : list Z :=
  map (fun i : nat => now - days_back * Loader.DAY + Z.of_nat i * Loader.DAY)
      (seq 0 (Z.to_nat (days_back + 1))).

(** The first object of a listing that the loader reads. *)
Definition first_parquet (contents : list string) : option string :=
  head (filter (fun key => Loader.endswith key ".parquet") contents).

(** A date of which no frame is loaded: the listing raises, or lists no
    parquet object, or the first one cannot be read. *)
Definition day_yields_nothing {frame : Type}
    (list_objects_v2 : string -> option (list string))
    (read_parquet : string -> option frame) (current_date : Z) : Prop :=
  match list_objects_v2 (Loader.prefix_of (Builtin.format_date current_date)) with
  | None => True
  | Some contents =>
      match first_parquet contents with
      | None => True
      | Some key => read_parquet key = None
      end
  end.

(** The key of a file of the archive in the bucket: the path of the sink
    is the directory sensor-archive of the bucket. *)
Definition archive_object_key (r : MinioArchive.row) (file : string) : string :=
  String.append "sensor-archive/" (String.append (Archive.partition_path r) file).

(** An object store in examples: one file of the hour 10 of 2024-01-15, and
    the marker of its directory. *)
Module LoaderSample.

Definition now : Z := 1705400000000.

Definition part_file : string :=
  "sensor-archive/partition_date=2024-01-15/partition_hour=10/part-0.parquet".

Definition list_objects_v2 (prefix : string) : option (list string) :=
  if String.eqb prefix "sensor-archive/partition_date=2024-01-15/"
  then Some ["sensor-archive/partition_date=2024-01-15/partition_hour=10/_SUCCESS"; part_file]
  else Some [].

Definition read_parquet (key : string) : option (list SensorSource.row) :=
  if String.eqb key part_file then Some [Sample.hot_humid] else None.

(** The listing while the partition is not committed: the file is there,
    the marker is not. *)
Definition list_uncommitted (prefix : string) : option (list string) :=
  if String.eqb prefix "sensor-archive/partition_date=2024-01-15/"
  then Some [part_file]
  else Some [].

End LoaderSample.


(** * The generator: [generate_data.py]

    A reading is the dict that [generate_sensor_reading] returns and that
    the producer serialises as JSON.  What the function draws from the
    clock and from the random generators is a parameter, [draws]; the
    built-in [round(x, 2)] on a float is a parameter too. *)
Module Generator.

Inductive value : Type :=
| VBool (b : bool)
| VInt (n : Z)
| VFloat (x : float)
| VStr (s : string)
| VDict (items : list (string * value)).

(** The item of a key in a dict literal. *)
Fixpoint lookup_item {A : Type} (key : string) (items : list (string * A)) : option A :=
  match items with
  | [] => None
  | (k, v) :: rest => if String.eqb k key then Some v else lookup_item key rest
  end.

Definition get (key : string) (v : value) : option value :=
  match v with
  | VDict items => lookup_item key items
  | _ => None
  end.

(** [s.split(sep)] for a separator of one character. *)
Fixpoint split_on (sep : ascii) (s : string) : list string :=
  match s with
  | EmptyString => [EmptyString]
  | String c rest =>
      if Ascii.eqb c sep then EmptyString :: split_on sep rest
      else match split_on sep rest with
           | word :: words => String c word :: words
           | [] => [String c EmptyString]
           end
  end.

(** [str(n)] of an int. *)
Definition str_of_nat (n : nat) : string :=
  DecimalString.NilEmpty.string_of_uint (Nat.to_uint n).

Definition str_of_Z (n : Z) : string :=
  DecimalString.NilZero.string_of_int (Z.to_int n).

Fixpoint zeros (width : nat) : string :=
  match width with
  | O => EmptyString
  | S width => String "0" (zeros width)
  end.

(** The format [{i:03d}] of an int that is not negative. *)
Definition format_03d (i : nat) : string :=
  let digits := str_of_nat i in
  String.append (zeros (3 - String.length digits)) digits.

(** The ids of [main]: [range(1, sensors + 1)]. *)
Definition sensor_id_of (i : nat) : string := String.append "sensor_" (format_03d i).

Definition sensor_ids (sensors : Z) : list string :=
  map sensor_id_of (seq 1 (Z.to_nat sensors)).

Inductive anomaly_type : Type := spike | dip | stuck.

Record draws : Type := mk_draws {
  (** [datetime.now(timezone.utc).isoformat()] *)
  now_iso : string;
  (** [np.sin(2 * np.pi * elapsed_hours / 24)] *)
  daily_cycle : float;
  gauss_temperature : float;
  gauss_humidity : float;
  gauss_pressure : float;
  (** [random.random()] *)
  random_value : float;
  choice : anomaly_type;
  (** the two draws of the branch of the anomaly *)
  anomaly_temperature : float;
  anomaly_humidity : float;
  floor : Z;
  room : Z;
  model : string;
  firmware : Z * Z * Z;
  battery_level : Z
}.

Definition base_temperature : float := 20%float.
Definition base_humidity : float := 50%float.
Definition base_pressure : float := 1013.25%float.

(** [min(bound, x)] and [max(bound, v)] of Python: the first argument
    unless the second is smaller, respectively greater. *)
Definition py_min (bound : Z) (x : float) : value :=
  if (x <? Numeric.double_of_Z bound)%float then VFloat x else VInt bound.

Definition py_max (bound : Z) (v : value) : value :=
  match v with
  | VFloat x => if (Numeric.double_of_Z bound <? x)%float then VFloat x else VInt bound
  | VInt n => if bound <? n then VInt n else VInt bound
  | _ => v
  end.

(** is_anomaly and the temperature, the humidity and the pressure before
    the bounds are applied. *)
Definition raw_readings (anomaly_probability : float) (d : draws)
    : bool * float * float * float :=
  let temperature := (base_temperature + 5 * daily_cycle d + gauss_temperature d)%float in
  let humidity := (base_humidity - 10 * daily_cycle d + gauss_humidity d)%float in
  let pressure := (base_pressure + gauss_pressure d)%float in
  let is_anomaly := (random_value d <? anomaly_probability)%float in
  if is_anomaly
  then match choice d with
       | spike => (is_anomaly, (temperature + anomaly_temperature d)%float,
                   (humidity + anomaly_humidity d)%float, pressure)
       | dip => (is_anomaly, (temperature - anomaly_temperature d)%float,
                 (humidity - anomaly_humidity d)%float, pressure)
       | stuck => (is_anomaly, (base_temperature + anomaly_temperature d)%float,
                   (base_humidity + anomaly_humidity d)%float, pressure)
       end
  else (is_anomaly, temperature, humidity, pressure).

(** The building of a sensor; [None] is the IndexError of [[1]]. *)
Definition building_of (sensor_id : string) : option string :=
  suffix ← split_on "_" sensor_id !! 1%nat;
  Some (String.append "Building_" suffix).

Section WithRound.

Variable round2 : float -> float.

(** [round(v, 2)]: an int is returned as it is. *)
Definition round_value (v : value) : value :=
  match v with
  | VFloat x => VFloat (round2 x)
  | _ => v
  end.

Definition generate_sensor_reading (sensor_id : string) (anomaly_probability : float)
    (d : draws) : option value :=
  let '(is_anomaly, temperature, humidity, pressure) := raw_readings anomaly_probability d in
  let humidity := py_max 0 (py_min 100 humidity) in
  let pressure := py_max 950 (py_min 1100 pressure) in
  building ← building_of sensor_id;
  let '(major, minor, patch) := firmware d in
  Some (VDict
    [ ("sensor_id", VStr sensor_id);
      ("timestamp", VStr (now_iso d));
      ("temperature", VFloat (round2 temperature));
      ("humidity", round_value humidity);
      ("pressure", round_value pressure);
      ("is_anomaly", VBool is_anomaly);
      ("location", VDict
         [ ("building", VStr building);
           ("floor", VInt (floor d));
           ("room", VStr (String.append "Room_" (str_of_Z (room d)))) ]);
      ("device_info", VDict
         [ ("model", VStr (model d));
           ("firmware_version",
            VStr (String.append "v"
                    (String.append (str_of_Z major)
                       (String.append "."
                          (String.append (str_of_Z minor)
                             (String.append "." (str_of_Z patch)))))));
           ("battery_level", VInt (battery_level d)) ]) ]).

End WithRound.

End Generator.

(** The columns of [sensor_source], in the order of its DDL. *)
Definition sensor_source_columns : list string :=
  [ "sensor_id"; "event_time"; "temperature"; "humidity"; "pressure"; "is_anomaly";
    "building"; "floor"; "room"; "model"; "firmware_version"; "battery_level" ].

(** Draws in examples. *)
Module GeneratorSample.

Definition draws : Generator.draws :=
  Generator.mk_draws "2024-01-15T10:30:00+00:00" 0.5 0.25 (-1) 2 0.5 Generator.spike 12 20
    3 204 "SensorPro-X1" (1, 4, 2) 87.

Definition round2 (x : float) : float := Numeric.ROUND x 2.

End GeneratorSample.


(** ** What is said of a reading *)

(** Whether a character occurs in a text. *)
Fixpoint has_char (c : ascii) (s : string) : bool :=
  match s with
  | EmptyString => false
  | String c' rest => Ascii.eqb c' c || has_char c rest
  end.

(** A value within the bounds: one of the two bounds, as the int of the
    program text, or a float strictly between them. *)
Definition within_bounds (lo hi : Z) (v : Generator.value) : Prop :=
  v = Generator.VInt lo \/ v = Generator.VInt hi \/
  exists x, v = Generator.VFloat x /\
            (Numeric.double_of_Z lo <? x)%float = true /\
            (x <? Numeric.double_of_Z hi)%float = true.


(** ** The rounds of the generator's [main] *)
Module GeneratorMain.

(** One round of the loop: a reading of every sensor is sent (a failure
    of the producer is logged by [send_data] and not raised), then the
    progress is logged when the number of messages is a multiple of
    [sensors * 60].  [None] is the ZeroDivisionError of the modulus;
    otherwise the number of messages sent and whether the round logs. *)
Definition round (sensors : Z) (messages_sent : Z) : option (Z * bool) :=
  let messages_sent := messages_sent + Z.of_nat (length (Generator.sensor_ids sensors)) in
  if sensors * 60 =? 0 then None
  else Some (messages_sent, messages_sent mod (sensors * 60) =? 0).

(** The first [k] rounds. *)
Fixpoint rounds (k : nat) (sensors : Z) (messages_sent : Z) : option (Z * list bool) :=
  match k with
  | O => Some (messages_sent, [])
  | S k =>
      match round sensors messages_sent with
      | None => None
      | Some (messages_sent, logged) =>
          match rounds k sensors messages_sent with
          | None => None
          | Some (total, logs) => Some (total, logged :: logs)
          end
      end
  end.

End GeneratorMain.

(** * The synthetic data of the trainer: [generate_synthetic_data]

    The derived fields of a synthetic row, from its temperature and its
    humidity before they are rounded. *)
Module Synthetic.

Definition comfort_index (temperature humidity : float) : float :=
  (100 - abs (temperature - 22) * 2 - abs (humidity - 45) * 0.5)%float.

Definition temp_trend (temperature : float) : string :=
  if (25 <? temperature)%float then "HOT"
  else if (temperature <? 18)%float then "COLD"
  else "NORMAL".

Definition humidity_category (humidity : float) : string :=
  if (70 <? humidity)%float then "HIGH"
  else if (humidity <? 30)%float then "LOW"
  else "MODERATE".

End Synthetic.


(** ** What is said of a source of several partitions *)

(** The event-times of all the rows a source has delivered, in order. *)
Definition event_times_seen (ins : list Source.input) : list Z :=
  omap (fun i => match i with
                 | Source.Poll _ e => Some (SensorSource.event_time e)
                 | Source.Tick => None
                 end) ins.

(** Two partitions: one has delivered a row of 10:30:01, the other a row
    of 10:31:05. *)
Definition two_partition_scenario : list Source.input :=
  [ Source.Poll 0 (Sample.reading 1705314601000 21 48 1012 false "Building_001" 80);
    Source.Poll 1 (Sample.reading 1705314665000 22 50 1013 false "Building_002" 90);
    Source.Tick ].


(** ** What is said of a run of the archive sink *)




(** Linear arithmetic with division and remainder by constants. *)
Ltac div_lia := Z.div_mod_to_equations; lia.

(** * Theorems *)

(** ** Order of DOUBLE values *)

Section FloatOrder.

Lemma SFltb_between (m1 m2 : positive) (e1 e2 : Z) (x : spec_float) :
  SFltb (S754_finite false m1 e1) x = true ->
  SFltb x (S754_finite false m2 e2) = true ->
  finite_lt m1 e1 m2 e2 = true.
Proof.
  destruct x as [s|s| |s m e]; unfold SFltb, SFcompare.
  - discriminate.
  - destruct s; discriminate.
  - discriminate.
  - destruct s; [discriminate|].
    fold (Pos.compare m1 m). fold (Pos.compare m m2).
    unfold finite_lt.
    destruct (Z.compare_spec e1 e) as [He|He|He]; try discriminate;
      destruct (Z.compare_spec e e2) as [He'|He'|He']; try discriminate;
      intros H1 H2.
    + destruct (Pos.compare_spec m1 m) as [Hm|Hm|Hm]; try discriminate.
      destruct (Pos.compare_spec m m2) as [Hm'|Hm'|Hm']; try discriminate.
      apply orb_true_iff. right. apply andb_true_iff. split.
      * apply Z.eqb_eq. congruence.
      * apply Pos.ltb_lt. exact (Pos.lt_trans _ _ _ Hm Hm').
    + apply orb_true_iff. left. apply Z.ltb_lt. lia.
    + apply orb_true_iff. left. apply Z.ltb_lt. lia.
    + apply orb_true_iff. left. apply Z.ltb_lt. lia.
Qed.

(** No DOUBLE is above [hi] and below [lo] when [lo] is not above [hi]:
    the second WHEN of a CASE is not shadowed by the first. *)
Lemma above_below_exclusive (hi lo : float) (mh ml : positive) (eh el : Z) :
  Prim2SF hi = S754_finite false mh eh ->
  Prim2SF lo = S754_finite false ml el ->
  finite_lt mh eh ml el = false ->
  forall v : float, (hi <? v)%float = true -> (v <? lo)%float = true -> False.
Proof.
  intros Hhi Hlo Hlt v H1 H2.
  rewrite ltb_spec, Hhi in H1. rewrite ltb_spec, Hlo in H2.
  pose proof (SFltb_between _ _ _ _ _ H1 H2) as H. congruence.
Qed.

Lemma not_above_25_below_18 (v : float) :
  (25 <? v)%float = true -> (v <? 18)%float = true -> False.
Proof.
  apply (above_below_exclusive 25 18 7036874417766400 5066549580791808 (-48) (-48));
    vm_compute; reflexivity.
Qed.

Lemma not_above_70_below_30 (v : float) :
  (70 <? v)%float = true -> (v <? 30)%float = true -> False.
Proof.
  apply (above_below_exclusive 70 30 4925812092436480 8444249301319680 (-46) (-48));
    vm_compute; reflexivity.
Qed.

End FloatOrder.

(** ** The enrichment queries *)

Section Enrichment.

Lemma is_true_gt (x : sql float) (c : float) :
  is_true (x > dbl c)%sql = true <-> reading_above x c.
Proof.
  unfold reading_above. destruct x as [v|]; simpl.
  - destruct (c <? v)%float eqn:E; split.
    + intros _. exists v. auto.
    + reflexivity.
    + discriminate.
    + intros (v' & Hv & Hlt). injection Hv as <-. congruence.
  - split; [discriminate | intros (v & Hv & _); discriminate].
Qed.

Lemma is_true_lt (x : sql float) (c : float) :
  is_true (x < dbl c)%sql = true <-> reading_below x c.
Proof.
  unfold reading_below. destruct x as [v|]; simpl.
  - destruct (v <? c)%float eqn:E; split.
    + intros _. exists v. auto.
    + reflexivity.
    + discriminate.
    + intros (v' & Hv & Hlt). injection Hv as <-. congruence.
  - split; [discriminate | intros (v & Hv & _); discriminate].
Qed.

(** A CASE of two WHEN branches on thresholds [hi] and [lo] that no
    value lies strictly outside of on both sides. *)
Lemma case_three_way (x : sql float) (hi lo : float) (a b c : string) :
  (forall v, (hi <? v)%float = true -> (v <? lo)%float = true -> False) ->
  a <> b -> a <> c -> b <> c ->
  let r := if is_true (x > dbl hi)%sql then lit a
           else if is_true (x < dbl lo)%sql then lit b
           else lit c in
  (r = Some a <-> reading_above x hi) /\
  (r = Some b <-> reading_below x lo) /\
  (r = Some c <-> ~ reading_above x hi /\ ~ reading_below x lo).
Proof.
  intros Hexcl Hab Hac Hbc r. subst r.
  pose proof (is_true_gt x hi) as Hgt. pose proof (is_true_lt x lo) as Hlt.
  assert (Hboth : reading_above x hi -> reading_below x lo -> False).
  { intros (v & Hv & H1) (v' & Hv' & H2). rewrite Hv in Hv'. injection Hv' as <-.
    exact (Hexcl v H1 H2). }
  unfold lit.
  destruct (is_true (x > dbl hi)%sql); destruct (is_true (x < dbl lo)%sql).
  - exfalso. apply Hboth; [apply Hgt | apply Hlt]; reflexivity.
  - assert (HA : reading_above x hi) by (apply Hgt; reflexivity).
    assert (HB : ~ reading_below x lo) by (intros HB; apply Hlt in HB; discriminate HB).
    clear Hgt Hlt. intuition congruence.
  - assert (HA : ~ reading_above x hi) by (intros HA; apply Hgt in HA; discriminate HA).
    assert (HB : reading_below x lo) by (apply Hlt; reflexivity).
    clear Hgt Hlt. intuition congruence.
  - assert (HA : ~ reading_above x hi) by (intros HA; apply Hgt in HA; discriminate HA).
    assert (HB : ~ reading_below x lo) by (intros HB; apply Hlt in HB; discriminate HB).
    clear Hgt Hlt. intuition congruence.
Qed.

End Enrichment.

(** C1. For every row of the source, [processed_query] gives temp_trend
    the value 'HOT' exactly when the temperature is above 25, 'COLD'
    exactly when it is below 18 and 'NORMAL' otherwise, so that 25 and 18
    themselves are 'NORMAL'; and humidity_category the value 'HIGH'
    exactly when the humidity is above 70, 'LOW' exactly when it is below
    30 and 'MODERATE' otherwise. *)
Theorem C1_temp_trend_and_humidity_category (proctime : Z) (e : SensorSource.row) :
  let r := processed_query proctime e in
  let temperature := SensorSource.temperature e in
  let humidity := SensorSource.humidity e in
  ((ProcessedSink.temp_trend r = Some "HOT" <-> reading_above temperature 25) /\
   (ProcessedSink.temp_trend r = Some "COLD" <-> reading_below temperature 18) /\
   (ProcessedSink.temp_trend r = Some "NORMAL" <->
      ~ reading_above temperature 25 /\ ~ reading_below temperature 18)) /\
  ((ProcessedSink.humidity_category r = Some "HIGH" <-> reading_above humidity 70) /\
   (ProcessedSink.humidity_category r = Some "LOW" <-> reading_below humidity 30) /\
   (ProcessedSink.humidity_category r = Some "MODERATE" <->
      ~ reading_above humidity 70 /\ ~ reading_below humidity 30)) /\
  (temperature = Some 25%float \/ temperature = Some 18%float ->
   ProcessedSink.temp_trend r = Some "NORMAL") /\
  (humidity = Some 70%float \/ humidity = Some 30%float ->
   ProcessedSink.humidity_category r = Some "MODERATE").
Proof.
  cbv zeta.
  pose proof (case_three_way (SensorSource.temperature e) 25 18 "HOT" "COLD" "NORMAL"
                not_above_25_below_18) as Ht.
  pose proof (case_three_way (SensorSource.humidity e) 70 30 "HIGH" "LOW" "MODERATE"
                not_above_70_below_30) as Hh.
  cbv zeta in Ht, Hh.
  split; [apply Ht; discriminate | split; [apply Hh; discriminate | split]].
  - intros Hb. apply Ht; [discriminate ..|].
    destruct Hb as [Hb|Hb]; rewrite Hb;
      split; intros (v & [= <-] & H); vm_compute in H; discriminate H.
  - intros Hb. apply Hh; [discriminate ..|].
    destruct Hb as [Hb|Hb]; rewrite Hb;
      split; intros (v & [= <-] & H); vm_compute in H; discriminate H.
Qed.

(** C2. For a row with its three readings, [processed_query] gives
    comfort_index = 100 - |temperature - 22| * 2 - |humidity - 45| * 0.5
    and anomaly_score = |temperature - 22| / 22 + |humidity - 50| / 50 +
    |pressure - 1013| / 1013, in DOUBLE arithmetic; at temperature 26.0,
    humidity 75.0 and pressure 1013.0 the row is 'HOT', 'HIGH', has
    comfort_index 77.0 and an anomaly_score that reads 0.6818 at four
    decimals. *)
Theorem C2_comfort_index_and_anomaly_score
    (proctime : Z) (e : SensorSource.row) (t h p : float) :
  SensorSource.temperature e = Some t ->
  SensorSource.humidity e = Some h ->
  SensorSource.pressure e = Some p ->
  let r := processed_query proctime e in
  ProcessedSink.comfort_index r
    = Some (100 - abs (t - 22) * 2 - abs (h - 45) * 0.5)%float /\
  ProcessedSink.anomaly_score r
    = Some (abs (t - 22) / 22 + abs (h - 50) / 50 + abs (p - 1013) / 1013)%float /\
  (t = 26%float -> h = 75%float -> p = 1013%float ->
   ProcessedSink.temp_trend r = Some "HOT" /\
   ProcessedSink.humidity_category r = Some "HIGH" /\
   ProcessedSink.comfort_index r = Some 77%float /\
   exists a, ProcessedSink.anomaly_score r = Some a /\
             a = (4 / 22 + 25 / 50 + 0)%float /\
             (0.68175 <? a)%float = true /\ (a <? 0.68185)%float = true).
Proof.
  intros Ht Hh Hp r. subst r. unfold processed_query. cbn [ProcessedSink.comfort_index
    ProcessedSink.anomaly_score ProcessedSink.temp_trend ProcessedSink.humidity_category].
  rewrite Ht, Hh, Hp. split; [reflexivity | split; [reflexivity |]].
  intros -> -> ->. repeat split.
  exists 0.68181818181818188%float. repeat split.
Qed.

(** The scenario of C2 at the sample row. *)
Lemma C2_scenario_witness :
  SensorSource.temperature Sample.hot_humid = Some 26%float /\
  SensorSource.humidity Sample.hot_humid = Some 75%float /\
  SensorSource.pressure Sample.hot_humid = Some 1013%float /\
  ProcessedSink.comfort_index (processed_query 0 Sample.hot_humid) = Some 77%float /\
  ProcessedSink.anomaly_score (processed_query 0 Sample.hot_humid)
    = Some 0.68181818181818188%float.
Proof.
  split; [reflexivity | split; [reflexivity | split; [reflexivity |]]].
  pose proof (C2_comfort_index_and_anomaly_score 0 Sample.hot_humid 26 75 1013
                eq_refl eq_refl eq_refl) as (Hc & Ha & _).
  split; [exact Hc | exact Ha].
Defined.

(** C4, as stated, fails: the row that [processed_query] writes carries
    PROCTIME(), so the same source row evaluated at two instants gives two
    different rows. *)
Lemma C4_same_input_different_rows :
  processed_query 1705314600100 Sample.hot_humid
    <> processed_query 1705314600101 Sample.hot_humid.
Proof.
  intros H. apply (f_equal ProcessedSink.processing_time) in H.
  cbn in H. discriminate H.
Qed.

(** C4, amended. Every column of the enriched row other than
    processing_time is a function of the source row alone: two
    evaluations of the same row differ in processing_time only, which is
    the clock of the evaluation, and agree entirely when the clock reads
    the same. *)
Theorem C4_enrichment_deterministic_up_to_proctime
    (proctime1 proctime2 : Z) (e : SensorSource.row) :
  processed_query proctime2 e
    = with_processing_time proctime2 (processed_query proctime1 e) /\
  ProcessedSink.processing_time (processed_query proctime1 e) = proctime1 /\
  (forall e' : SensorSource.row,
     e = e' -> processed_query proctime1 e = processed_query proctime1 e').
Proof.
  split; [reflexivity | split; [reflexivity |]].
  intros e' <-. reflexivity.
Qed.

(** C10. The two select lists, written independently in
    [processed_query] and in [archive_query], give the same temp_trend,
    humidity_category, comfort_index and anomaly_score for the same source
    row, whatever the instants at which the two queries evaluate it. *)
Theorem C10_processed_and_archive_agree
    (proctime1 proctime2 : Z) (e : SensorSource.row) :
  let p := processed_query proctime1 e in
  let a := archive_query proctime2 e in
  ProcessedSink.temp_trend p = MinioArchive.temp_trend a /\
  ProcessedSink.humidity_category p = MinioArchive.humidity_category a /\
  ProcessedSink.comfort_index p = MinioArchive.comfort_index a /\
  ProcessedSink.anomaly_score p = MinioArchive.anomaly_score a.
Proof.
  cbv zeta. unfold processed_query, archive_query.
  cbn [ProcessedSink.temp_trend ProcessedSink.humidity_category
       ProcessedSink.comfort_index ProcessedSink.anomaly_score
       MinioArchive.temp_trend MinioArchive.humidity_category
       MinioArchive.comfort_index MinioArchive.anomaly_score].
  repeat split.
Qed.

(** ** The watermark of the source *)

Section SourceWatermark.

Import Source.

Lemma fold_max_shift (c : Z) (ts : list Z) (a w0 : Z) :
  fold_left Z.max (map (fun t => t - c) ts) (Z.max w0 (a - c))
  = Z.max w0 (fold_left Z.max ts a - c).
Proof.
  revert a. induction ts as [|t ts IH]; intros a; simpl; [reflexivity|].
  rewrite <- IH. f_equal. lia.
Qed.

Lemma fold_max_candidates (ts : list Z) (m w0 : Z) :
  max_event_time ts = Some m ->
  fold_left Z.max (map (fun t => t - BOUNDED_LATENESS) ts) w0
  = Z.max w0 (m - BOUNDED_LATENESS).
Proof.
  destruct ts as [|t ts]; simpl; [discriminate|].
  intros [= <-]. apply fold_max_shift.
Qed.

Lemma on_event_lookup_same (p : nat) (e : SensorSource.row) (st : state) (w0 : Z) :
  partition_watermarks st !! p = Some w0 ->
  partition_watermarks (on_event p e st) !! p = Some (Z.max w0 (watermark_expr e)).
Proof.
  intros H. unfold on_event. rewrite H. simpl.
  apply list_lookup_insert_eq. eapply lookup_lt_Some, H.
Qed.

Lemma on_event_lookup_other (p q : nat) (e : SensorSource.row) (st : state) :
  q <> p ->
  partition_watermarks (on_event q e st) !! p = partition_watermarks st !! p.
Proof.
  intros Hne. unfold on_event.
  destruct (partition_watermarks st !! q); [|reflexivity].
  simpl. apply list_lookup_insert_ne. exact Hne.
Qed.

Lemma step_partition_watermark (st : state) (i : input) (p : nat) (w0 : Z) :
  partition_watermarks st !! p = Some w0 ->
  partition_watermarks (fst (step st i)) !! p
  = Some (fold_left Z.max (map (fun t => t - BOUNDED_LATENESS) (event_times p [i])) w0).
Proof.
  intros H. destruct i as [q e|]; simpl.
  - unfold event_times. simpl. destruct (decide (q = p)) as [->|Hne]; simpl.
    + apply on_event_lookup_same, H.
    + rewrite on_event_lookup_other by exact Hne. exact H.
  - destruct (last_emitted st <? current_watermark st); exact H.
Qed.

Lemma event_times_cons (p : nat) (i : input) (ins : list input) :
  event_times p (i :: ins) = event_times p [i] ++ event_times p ins.
Proof.
  unfold event_times. simpl. destruct i as [q e|]; [|reflexivity].
  destruct (decide (q = p)); reflexivity.
Qed.

Lemma run_from_cons (st : state) (i : input) (ins : list input) :
  run_from st (i :: ins)
  = (fst (run_from (fst (step st i)) ins),
     snd (step st i) ++ snd (run_from (fst (step st i)) ins)).
Proof.
  simpl. destruct (step st i) as [st1 out1]. simpl.
  destruct (run_from st1 ins) as [st2 out2]. reflexivity.
Qed.

(** The watermark of a partition is the largest candidate it has seen. *)
Lemma run_from_partition_watermark (ins : list input) (st : state) (p : nat) (w0 : Z) :
  partition_watermarks st !! p = Some w0 ->
  partition_watermarks (fst (run_from st ins)) !! p
  = Some (fold_left Z.max (map (fun t => t - BOUNDED_LATENESS) (event_times p ins)) w0).
Proof.
  revert st w0. induction ins as [|i ins IH]; intros st w0 H.
  - exact H.
  - rewrite run_from_cons. cbn [fst].
    rewrite event_times_cons, map_app, fold_left_app.
    apply IH. apply step_partition_watermark, H.
Qed.

(** Pointwise order of the partition watermarks. *)
Lemma insert_larger (l : list Z) (p : nat) (w w' : Z) :
  l !! p = Some w -> w <= w' -> Forall2 Z.le l (<[p := w']> l).
Proof.
  revert p. induction l as [|x l IH]; intros p Hl Hle; [constructor|].
  destruct p as [|p]; simpl in *.
  - injection Hl as ->. constructor; [exact Hle|].
    apply Forall2_same_length_lookup_2; [reflexivity|].
    intros i a b Ha Hb. assert (a = b) by congruence. lia.
  - constructor; [lia | apply IH; assumption].
Qed.

Lemma Forall2_le_refl (l : list Z) : Forall2 Z.le l l.
Proof. induction l; constructor; [lia | assumption]. Qed.

Lemma step_partitions_grow (st : state) (i : input) :
  Forall2 Z.le (partition_watermarks st) (partition_watermarks (fst (step st i))).
Proof.
  destruct i as [q e|]; simpl.
  - unfold on_event. destruct (partition_watermarks st !! q) as [w|] eqn:E; simpl.
    + eapply insert_larger; [exact E | lia].
    + apply Forall2_le_refl.
  - destruct (last_emitted st <? current_watermark st); apply Forall2_le_refl.
Qed.

Lemma fold_right_min_mono (ws ws' : list Z) (w w' : Z) :
  Forall2 Z.le ws ws' -> w <= w' ->
  fold_right Z.min w ws <= fold_right Z.min w' ws'.
Proof.
  induction 1 as [|x y l l' Hxy Hl IH]; intros Hw; simpl; [exact Hw|].
  specialize (IH Hw). lia.
Qed.

Lemma combined_watermark_mono (ws ws' : list Z) :
  Forall2 Z.le ws ws' -> combined_watermark ws <= combined_watermark ws'.
Proof.
  destruct 1 as [|x y l l' Hxy Hl]; simpl; [lia|].
  apply fold_right_min_mono; assumption.
Qed.

(** One input never lowers the watermark of the source. *)
Lemma step_watermark_mono (st : state) (i : input) :
  current_watermark st <= current_watermark (fst (step st i)).
Proof. apply combined_watermark_mono, step_partitions_grow. Qed.

Lemma watermark_trace_sorted (ins : list input) (st : state) :
  Sorted Z.le (current_watermark st :: watermark_trace st ins).
Proof.
  revert st. induction ins as [|i ins IH]; intros st; simpl.
  - repeat constructor.
  - constructor; [apply IH|]. constructor. apply step_watermark_mono.
Qed.

(** Every watermark the source emits is above the last one it emitted. *)
Lemma emitted_above_last (ins : list input) (st : state) :
  Forall (fun w => last_emitted st < w) (watermarks (snd (run_from st ins))) /\
  Sorted Z.le (watermarks (snd (run_from st ins))).
Proof.
  revert st. induction ins as [|i ins IH]; intros st.
  - simpl. split; constructor.
  - rewrite run_from_cons. cbn [snd]. unfold watermarks. rewrite omap_app.
    fold (watermarks (snd (run_from (fst (step st i)) ins))).
    destruct (IH (fst (step st i))) as [Hall Hsorted].
    destruct i as [q e|]; simpl.
    + simpl in Hall, Hsorted.
      assert (Hlast : last_emitted (on_event q e st) = last_emitted st).
      { unfold on_event. destruct (partition_watermarks st !! q); reflexivity. }
      rewrite Hlast in Hall. split; assumption.
    + revert Hall Hsorted. simpl.
      destruct (last_emitted st <? current_watermark st) eqn:E; simpl;
        intros Hall Hsorted.
      * apply Z.ltb_lt in E. split.
        -- constructor; [exact E|]. eapply Forall_impl; [exact Hall|]. simpl. lia.
        -- constructor; [exact Hsorted|].
           destruct Hall as [|w ws Hw _]; constructor. lia.
      * split; assumption.
Qed.

Lemma fold_right_min_le (w : Z) (ws : list Z) :
  fold_right Z.min w ws <= w /\ Forall (fun x => fold_right Z.min w ws <= x) ws.
Proof.
  induction ws as [|x ws [IH1 IH2]]; simpl; [split; [lia | constructor]|].
  split; [lia|]. constructor; [lia|].
  eapply Forall_impl; [exact IH2|]. simpl. lia.
Qed.

(** The watermark of the source is not ahead of any of its partitions. *)
Lemma combined_le_lookup (ws : list Z) (p : nat) (w : Z) :
  ws !! p = Some w -> combined_watermark ws <= w.
Proof.
  destruct ws as [|w0 ws]; [discriminate|]. simpl.
  destruct (fold_right_min_le w0 ws) as [H0 Hall].
  destruct p as [|p]; simpl.
  - intros [= <-]. exact H0.
  - intros Hp. rewrite Forall_forall in Hall. apply Hall.
    eapply list_elem_of_lookup_2. exact Hp.
Qed.

(** The watermark of the source is the watermark of one of its partitions. *)
Lemma fold_right_min_attained (w : Z) (ws : list Z) :
  fold_right Z.min w ws = w \/ fold_right Z.min w ws ∈ ws.
Proof.
  induction ws as [|x ws IH]; simpl; [left; reflexivity|].
  destruct (Z.min_spec x (fold_right Z.min w ws)) as [[_ ->]|[_ ->]].
  - right. left.
  - destruct IH as [IH|IH]; [left; exact IH | right; right; exact IH].
Qed.

Lemma combined_watermark_attained (ws : list Z) :
  ws <> [] -> exists p, ws !! p = Some (combined_watermark ws).
Proof.
  destruct ws as [|w ws]; [contradiction|]. intros _. simpl.
  destruct (fold_right_min_attained w ws) as [->|H].
  - exists 0%nat. reflexivity.
  - apply list_elem_of_lookup_1 in H. destruct H as (i & Hi). exists (S i). exact Hi.
Qed.

Lemma run_partitions_length (n : nat) (ins : list input) :
  length (partition_watermarks (fst (Source.run n ins))) = n.
Proof.
  unfold Source.run.
  assert (H : forall st, length (partition_watermarks (fst (run_from st ins)))
                         = length (partition_watermarks st)).
  { induction ins as [|i ins IH]; intros st; [reflexivity|].
    rewrite run_from_cons. cbn [fst]. rewrite IH.
    pose proof (step_partitions_grow st i) as H. apply Forall2_length in H. congruence. }
  rewrite H. simpl. apply length_replicate.
Qed.

(** The watermark of a partition after a run. *)
Lemma run_partition_watermark (n : nat) (ins : list input) (p : nat) :
  (p < n)%nat ->
  partition_watermarks (fst (Source.run n ins)) !! p
  = Some (match max_event_time (event_times p ins) with
          | Some m => Z.max MIN_WATERMARK (m - BOUNDED_LATENESS)
          | None => MIN_WATERMARK
          end).
Proof.
  intros Hp. unfold Source.run.
  rewrite (run_from_partition_watermark ins (Source.init n) p MIN_WATERMARK)
    by (simpl; apply lookup_replicate_2; exact Hp).
  destruct (max_event_time (event_times p ins)) as [m|] eqn:Hm.
  - rewrite (fold_max_candidates _ m) by exact Hm. reflexivity.
  - destruct (event_times p ins); [reflexivity | discriminate].
Qed.

End SourceWatermark.

(** C5, as stated, fails on a source of more than one partition: the
    watermark of the source is that of its slowest partition.  After a row
    of 10:30:01 on one partition and a row of 10:31:05 on the other, the
    latest event-time seen is 10:31:05, and the watermark of the source is
    5 seconds behind 10:30:01, not 5 seconds behind 10:31:05. *)
Lemma C5_source_watermark_behind_latest_event :
  max_event_time (event_times_seen two_partition_scenario) = Some 1705314665000 /\
  Source.current_watermark (fst (Source.run 2 two_partition_scenario)) = 1705314596000 /\
  Source.current_watermark (fst (Source.run 2 two_partition_scenario))
    <> 1705314665000 - 5000.
Proof.
  split; [vm_compute; reflexivity|]. split; [vm_compute; reflexivity|].
  vm_compute. discriminate.
Qed.

(** C5, amended. After every sequence of inputs, the watermark of a
    partition is the largest event-time that the partition has delivered
    minus the 5 seconds of bounded lateness (the smallest BIGINT while it
    has delivered nothing), and the watermark of the source is the least of
    the watermarks of its partitions: it is not above any of them and it
    is one of them; on a source of one partition it is the largest
    event-time seen minus 5 seconds.  Over a fixed set of partitions the
    watermark of the source after each input, and the watermarks the
    source emits, are non-decreasing sequences. *)
Theorem C5_source_watermark_is_slowest_partition
    (n : nat) (ins : list Source.input) :
  let st := fst (Source.run n ins) in
  (forall p m, (p < n)%nat ->
     max_event_time (Source.event_times p ins) = Some m ->
     Source.MIN_WATERMARK <= m - 5000 ->
     Source.partition_watermarks st !! p = Some (m - 5000)) /\
  (forall p, (p < n)%nat ->
     max_event_time (Source.event_times p ins) = None ->
     Source.partition_watermarks st !! p = Some Source.MIN_WATERMARK) /\
  length (Source.partition_watermarks st) = n /\
  (forall p w, Source.partition_watermarks st !! p = Some w ->
               Source.current_watermark st <= w) /\
  ((0 < n)%nat ->
   exists p, (p < n)%nat /\
             Source.partition_watermarks st !! p = Some (Source.current_watermark st)) /\
  (n = 1%nat -> forall m,
     max_event_time (Source.event_times 0 ins) = Some m ->
     Source.MIN_WATERMARK <= m - 5000 ->
     Source.current_watermark st = m - 5000) /\
  Sorted Z.le (Source.watermark_trace (Source.init n) ins) /\
  Sorted Z.le (Source.watermarks (snd (Source.run n ins))).
Proof.
  cbv zeta.
  assert (Hone : forall p m, (p < n)%nat ->
            max_event_time (Source.event_times p ins) = Some m ->
            Source.MIN_WATERMARK <= m - 5000 ->
            Source.partition_watermarks (fst (Source.run n ins)) !! p = Some (m - 5000)).
  { intros p m Hp Hm Hmin. rewrite run_partition_watermark by exact Hp. rewrite Hm.
    f_equal. unfold Source.BOUNDED_LATENESS. lia. }
  assert (Hattained : (0 < n)%nat ->
            exists p, (p < n)%nat /\
                      Source.partition_watermarks (fst (Source.run n ins)) !! p
                      = Some (Source.current_watermark (fst (Source.run n ins)))).
  { intros Hn. unfold Source.current_watermark.
    destruct (combined_watermark_attained
                (Source.partition_watermarks (fst (Source.run n ins)))) as (p & Hp).
    - intros Hnil. pose proof (run_partitions_length n ins) as Hlen.
      rewrite Hnil in Hlen. simpl in Hlen. lia.
    - exists p. split; [|exact Hp]. apply lookup_lt_Some in Hp.
      rewrite run_partitions_length in Hp. exact Hp. }
  split; [exact Hone|]. split; [|split; [|split; [|split; [|split; [|split]]]]].
  - intros p Hp Hnone. rewrite run_partition_watermark by exact Hp. rewrite Hnone.
    reflexivity.
  - apply run_partitions_length.
  - intros p w Hw. apply (combined_le_lookup _ _ _ Hw).
  - exact Hattained.
  - intros -> m Hm Hmin. destruct Hattained as (p & Hp & Hw); [lia|].
    assert (p = 0%nat) as -> by lia.
    rewrite (Hone 0%nat m) in Hw by (first [lia | assumption]). congruence.
  - pose proof (watermark_trace_sorted ins (Source.init n)) as H.
    inversion H; assumption.
  - apply emitted_above_last.
Qed.

(** ** The window operator *)

Section WindowOperator.

Import Source Window.

Lemma wf_init : wf init.
Proof. intros k rows H. unfold init in H. simpl in H. rewrite lookup_empty in H. discriminate. Qed.

Lemma summary_key_emit (kv : key * list SensorSource.row) : summary_key (emit kv) = fst kv.
Proof. destruct kv as [[w b] rows]. reflexivity. Qed.

Lemma is_late_true (wm : Z) (k : key) : is_late wm k = true <-> max_timestamp k <= wm.
Proof. unfold is_late. apply Z.leb_le. Qed.

Lemma is_late_false (wm : Z) (k : key) : is_late wm k = false <-> wm < max_timestamp k.
Proof. unfold is_late. rewrite Z.leb_gt. reflexivity. Qed.

Lemma process_event_watermark (e : SensorSource.row) (st : state) :
  watermark (process_event e st) = watermark st.
Proof. unfold process_event. destruct (is_late _ _); reflexivity. Qed.

Lemma process_event_late (e : SensorSource.row) (st : state) :
  is_late (watermark st) (key_of e) = true -> process_event e st = st.
Proof. intros H. unfold process_event. rewrite H. reflexivity. Qed.

Lemma rows_of_process_event (e : SensorSource.row) (st : state) (k : key) :
  is_late (watermark st) (key_of e) = false ->
  rows_of (process_event e st) k
  = if decide (key_of e = k) then rows_of st k ++ [e] else rows_of st k.
Proof.
  intros H. unfold process_event. rewrite H. unfold rows_of at 1. simpl.
  destruct (decide (key_of e = k)) as [->|Hne].
  - rewrite lookup_insert_eq. reflexivity.
  - rewrite lookup_insert_ne by exact Hne. reflexivity.
Qed.

Lemma wf_process_event (e : SensorSource.row) (st : state) :
  wf st -> wf (process_event e st).
Proof.
  intros Hwf. destruct (is_late (watermark st) (key_of e)) eqn:E.
  - rewrite process_event_late by exact E. exact Hwf.
  - intros k rows Hk. rewrite process_event_watermark.
    unfold process_event in Hk. rewrite E in Hk. simpl in Hk.
    destruct (decide (key_of e = k)) as [<-|Hne].
    + rewrite lookup_insert_eq in Hk. injection Hk as <-.
      split; [apply is_late_false, E|]. split.
      * intros H. apply app_eq_nil in H. destruct H as [_ H]. discriminate.
      * apply Forall_app. split; [|repeat constructor].
        unfold rows_of. destruct (groups st !! key_of e) as [rows|] eqn:Hg; simpl.
        -- apply (Hwf _ _ Hg).
        -- constructor.
    + rewrite lookup_insert_ne in Hk by exact Hne. apply (Hwf _ _ Hk).
Qed.

(** What an advancing watermark does. *)
Lemma process_watermark_stale (w : Z) (st : state) :
  w <= watermark st -> process_watermark w st = (st, []).
Proof.
  intros H. unfold process_watermark.
  destruct (w <=? watermark st) eqn:E; [reflexivity|]. apply Z.leb_gt in E. lia.
Qed.

Lemma process_watermark_advance (w : Z) (st : state) :
  watermark st < w ->
  process_watermark w st
  = ({| watermark := w;
        groups := filter (fun kv => ¬ max_timestamp (fst kv) ≤ w) (groups st) |},
     emit <$> filter (fun kv => max_timestamp (fst kv) ≤ w) (map_to_list (groups st))).
Proof.
  intros H. unfold process_watermark.
  destruct (w <=? watermark st) eqn:E; [|reflexivity]. apply Z.leb_le in E. lia.
Qed.

Lemma process_watermark_max (w : Z) (st : state) :
  watermark (fst (process_watermark w st)) = Z.max (watermark st) w.
Proof.
  destruct (Z_le_gt_dec w (watermark st)) as [H|H].
  - rewrite process_watermark_stale by exact H. simpl. lia.
  - rewrite process_watermark_advance by lia. simpl. lia.
Qed.

Lemma groups_process_watermark (w : Z) (st : state) (k : key) (rows : list SensorSource.row) :
  groups (fst (process_watermark w st)) !! k = Some rows <->
  groups st !! k = Some rows /\ (watermark st < w -> w < max_timestamp k).
Proof.
  destruct (Z_le_gt_dec w (watermark st)) as [H|H].
  - rewrite process_watermark_stale by exact H. simpl. split; [|tauto].
    intros Hk. split; [exact Hk | lia].
  - rewrite process_watermark_advance by lia. simpl.
    rewrite map_lookup_filter_Some. simpl. split.
    + intros [Hk Hn]. split; [exact Hk | lia].
    + intros [Hk Hn]. split; [exact Hk | lia].
Qed.

Lemma elem_of_process_watermark (w : Z) (st : state) (r : MetricsSink.row) :
  r ∈ snd (process_watermark w st) <->
  exists k rows, groups st !! k = Some rows /\ watermark st < w /\
                 max_timestamp k <= w /\ r = emit (k, rows).
Proof.
  destruct (Z_le_gt_dec w (watermark st)) as [H|H].
  - rewrite process_watermark_stale by exact H. simpl. split.
    + intros Hin. inversion Hin.
    + intros (k & rows & _ & Hlt & _). lia.
  - rewrite process_watermark_advance by lia. simpl.
    rewrite list_elem_of_fmap. split.
    + intros ([k rows] & -> & Hin). apply list_elem_of_filter in Hin.
      destruct Hin as [Hdue Hin]. apply elem_of_map_to_list in Hin.
      exists k, rows. simpl in Hdue. repeat split; [assumption | lia | assumption].
    + intros (k & rows & Hk & _ & Hdue & ->). exists (k, rows). split; [reflexivity|].
      apply list_elem_of_filter. split; [exact Hdue|]. apply elem_of_map_to_list, Hk.
Qed.

Lemma NoDup_fmap_filter {A B : Type} (f : A -> B) (P : A -> Prop)
    `{forall x, Decision (P x)} (l : list A) :
  NoDup (f <$> l) -> NoDup (f <$> filter P l).
Proof.
  induction l as [|x l IH]; simpl; [intros _; constructor|].
  intros Hnd. apply NoDup_cons in Hnd. destruct Hnd as [Hx Hnd].
  rewrite filter_cons. destruct (decide (P x)).
  - rewrite fmap_cons. apply NoDup_cons. split; [|apply IH, Hnd].
    intros Hin. apply Hx. apply list_elem_of_fmap in Hin.
    destruct Hin as (y & Hy & Hin). apply list_elem_of_filter in Hin.
    apply list_elem_of_fmap. exists y. tauto.
  - apply IH, Hnd.
Qed.

Lemma NoDup_process_watermark (w : Z) (st : state) :
  NoDup (summary_key <$> snd (process_watermark w st)).
Proof.
  destruct (Z_le_gt_dec w (watermark st)) as [H|H].
  - rewrite process_watermark_stale by exact H. constructor.
  - rewrite process_watermark_advance by lia. simpl.
    rewrite <- list_fmap_compose.
    rewrite (list_fmap_ext (summary_key ∘ emit) fst) by (intros; apply summary_key_emit).
    apply NoDup_fmap_filter. apply NoDup_fst_map_to_list.
Qed.

Lemma wf_process_watermark (w : Z) (st : state) :
  wf st -> wf (fst (process_watermark w st)).
Proof.
  intros Hwf k rows Hk. apply groups_process_watermark in Hk. destruct Hk as [Hk Hw].
  rewrite process_watermark_max. destruct (Hwf _ _ Hk) as (H1 & H2 & H3).
  split; [|split; assumption]. destruct (Z_le_gt_dec w (watermark st)); lia.
Qed.

Lemma wf_step (st : state) (x : element) : wf st -> wf (fst (step st x)).
Proof.
  destruct x as [e|w]; simpl; [apply wf_process_event | apply wf_process_watermark].
Qed.

Lemma step_watermark (st : state) (x : element) :
  watermark (fst (step st x))
  = match x with Event _ => watermark st | Watermark w => Z.max (watermark st) w end.
Proof.
  destruct x as [e|w]; simpl; [apply process_event_watermark | apply process_watermark_max].
Qed.

Lemma window_run_from_cons (st : state) (x : element) (s : list element) :
  Window.run_from st (x :: s)
  = (fst (Window.run_from (fst (step st x)) s),
     snd (step st x) ++ snd (Window.run_from (fst (step st x)) s)).
Proof.
  simpl. destruct (step st x) as [st1 out1]. simpl.
  destruct (Window.run_from st1 s) as [st2 out2]. reflexivity.
Qed.

Lemma window_run_from_app (s1 s2 : list element) (st : state) :
  Window.run_from st (s1 ++ s2)
  = (fst (Window.run_from (fst (Window.run_from st s1)) s2),
     snd (Window.run_from st s1) ++ snd (Window.run_from (fst (Window.run_from st s1)) s2)).
Proof.
  revert st. induction s1 as [|x s1 IH]; intros st.
  - simpl. destruct (Window.run_from st s2). reflexivity.
  - rewrite <- app_comm_cons, !window_run_from_cons, IH. cbn [fst snd].
    rewrite app_assoc. reflexivity.
Qed.

Lemma wf_run_from (s : list element) (st : state) :
  wf st ->
  wf (fst (Window.run_from st s)) /\ watermark st <= watermark (fst (Window.run_from st s)).
Proof.
  revert st. induction s as [|x s IH]; intros st Hwf.
  - simpl. split; [exact Hwf | lia].
  - rewrite window_run_from_cons. cbn [fst].
    destruct (IH _ (wf_step st x Hwf)) as [H1 H2]. split; [exact H1|].
    rewrite step_watermark in H2. destruct x; lia.
Qed.

(** Once the watermark has reached the window of a key, no row is
    assigned to it any more. *)
Lemma assigned_closed (s : list element) (wm : Z) (k : key) :
  max_timestamp k <= wm -> assigned wm s k = [].
Proof.
  revert wm. induction s as [|x s IH]; intros wm H; [reflexivity|].
  destruct x as [e|w]; simpl.
  - destruct (is_late wm (key_of e)) eqn:E; [apply IH, H|].
    destruct (decide (key_of e = k)) as [Hk|Hk]; [|apply IH, H].
    apply is_late_false in E. rewrite Hk in E. lia.
  - apply IH. lia.
Qed.

(** The rows of a key after one element, against [assigned]. *)
Lemma rows_step (st : state) (x : element) (s : list element) (k : key) :
  wf st ->
  (match x with Watermark w => watermark st < w -> w < max_timestamp k | Event _ => True end) ->
  rows_of (fst (step st x)) k ++ assigned (watermark (fst (step st x))) s k
  = rows_of st k ++ assigned (watermark st) (x :: s) k.
Proof.
  intros Hwf Hopen. destruct x as [e|w].
  - cbn [step fst]. rewrite process_event_watermark. simpl.
    destruct (is_late (watermark st) (key_of e)) eqn:E.
    + rewrite process_event_late by exact E. reflexivity.
    + rewrite rows_of_process_event by exact E.
      destruct (decide (key_of e = k)); [|reflexivity].
      rewrite <- app_assoc. reflexivity.
  - cbn [step]. rewrite process_watermark_max. cbn [assigned]. f_equal.
    unfold rows_of.
    destruct (groups (fst (process_watermark w st)) !! k) as [rows|] eqn:Hg.
    + apply groups_process_watermark in Hg. destruct Hg as [Hg _]. rewrite Hg. reflexivity.
    + destruct (groups st !! k) as [rows|] eqn:Hg'; [|reflexivity].
      assert (Hin : groups (fst (process_watermark w st)) !! k = Some rows)
        by (apply groups_process_watermark; split; [exact Hg' | exact Hopen]).
      congruence.
Qed.

(** No summary is written for a key whose window the watermark has
    reached. *)
Lemma no_emission_when_closed (s : list element) (st : state) (k : key) :
  wf st -> max_timestamp k <= watermark st ->
  forall r, r ∈ snd (Window.run_from st s) -> summary_key r <> k.
Proof.
  revert st. induction s as [|x s IH]; intros st Hwf Hclosed r Hin.
  - simpl in Hin. inversion Hin.
  - rewrite window_run_from_cons in Hin. cbn [snd] in Hin.
    apply elem_of_app in Hin. destruct Hin as [Hin|Hin].
    + destruct x as [e|w]; simpl in Hin; [inversion Hin|].
      apply elem_of_process_watermark in Hin.
      destruct Hin as (k' & rows & Hg & _ & _ & ->).
      rewrite summary_key_emit. simpl. intros ->.
      destruct (Hwf _ _ Hg) as [Hlt _]. lia.
    + apply (IH (fst (step st x))); [apply wf_step, Hwf | | exact Hin].
      rewrite step_watermark. destruct x; lia.
Qed.

(** Every summary is the select list of [metrics_query] over the rows
    assigned to its key, written when the watermark reached the window. *)
Lemma emitted_summary_spec (s : list element) (st : state) :
  wf st ->
  forall r, r ∈ snd (Window.run_from st s) ->
    let k := summary_key r in
    let rows := rows_of st k ++ assigned (watermark st) s k in
    r = emit (k, rows) /\ rows <> [] /\ Forall (fun e => key_of e = k) rows /\
    watermark st < max_timestamp k <= watermark (fst (Window.run_from st s)).
Proof.
  revert st. induction s as [|x s IH]; intros st Hwf r Hin; cbv zeta.
  - simpl in Hin. inversion Hin.
  - rewrite window_run_from_cons in Hin. cbn [snd] in Hin.
    rewrite window_run_from_cons. cbn [fst].
    pose proof (wf_step st x Hwf) as Hwf1.
    destruct (wf_run_from s _ Hwf1) as [_ Hmono].
    apply elem_of_app in Hin. destruct Hin as [Hin|Hin].
    + destruct x as [e|w]; simpl in Hin; [inversion Hin|].
      apply elem_of_process_watermark in Hin.
      destruct Hin as (k & rows & Hg & Hadv & Hdue & ->).
      rewrite summary_key_emit. cbn [fst]. cbn [assigned].
      rewrite assigned_closed by lia. rewrite app_nil_r.
      unfold rows_of. rewrite Hg. simpl.
      destruct (Hwf _ _ Hg) as (H1 & H2 & H3).
      cbn [step] in Hmono. rewrite process_watermark_max in Hmono.
      repeat split; try assumption. lia.
    + pose proof (IH _ Hwf1 r Hin) as IHr. cbv zeta in IHr.
      destruct IHr as (Hr & Hne & Hall & Hlo & Hhi).
      assert (Hopen : match x with
                      | Watermark w => watermark st < w -> w < max_timestamp (summary_key r)
                      | Event _ => True
                      end).
      { destruct x as [e|w]; [exact I|]. intros Hadv.
        rewrite step_watermark in Hlo. lia. }
      rewrite (rows_step st x s (summary_key r) Hwf Hopen) in Hr, Hne, Hall.
      repeat split; try assumption.
      rewrite step_watermark in Hlo. destruct x; lia.
Qed.

(** The keys of the summaries of a run are pairwise different. *)
Lemma emitted_keys_NoDup (s : list element) (st : state) :
  wf st -> NoDup (summary_key <$> snd (Window.run_from st s)).
Proof.
  revert st. induction s as [|x s IH]; intros st Hwf.
  - simpl. constructor.
  - rewrite window_run_from_cons. cbn [snd]. rewrite fmap_app.
    apply NoDup_app. split; [|split].
    + destruct x as [e|w]; simpl; [constructor | apply NoDup_process_watermark].
    + intros k Hin1 Hin2.
      apply list_elem_of_fmap in Hin1. destruct Hin1 as (r1 & -> & Hin1).
      apply list_elem_of_fmap in Hin2. destruct Hin2 as (r2 & Hk & Hin2).
      destruct x as [e|w]; simpl in Hin1; [inversion Hin1|].
      apply elem_of_process_watermark in Hin1.
      destruct Hin1 as (k & rows & Hg & Hadv & Hdue & ->).
      rewrite summary_key_emit in Hk. simpl in Hk.
      refine (no_emission_when_closed s _ k _ _ r2 Hin2 (eq_sym Hk)).
      * apply (wf_step st (Watermark w)), Hwf.
      * cbn [step]. rewrite process_watermark_max. lia.
    + apply IH, wf_step, Hwf.
Qed.

(** A key that has rows is open or has been written. *)
Lemma assigned_open_or_emitted (s : list element) (st : state) (k : key) :
  wf st ->
  rows_of st k ++ assigned (watermark st) s k <> [] ->
  is_Some (groups (fst (Window.run_from st s)) !! k) \/
  k ∈ summary_key <$> snd (Window.run_from st s).
Proof.
  revert st. induction s as [|x s IH]; intros st Hwf Hne.
  - left. simpl in *. rewrite app_nil_r in Hne. unfold rows_of in Hne.
    destruct (groups st !! k); [eauto | contradiction].
  - rewrite window_run_from_cons. cbn [fst snd]. rewrite fmap_app.
    destruct x as [e|w].
    + rewrite <- (rows_step st (Event e) s k Hwf I) in Hne.
      destruct (IH _ (wf_step st (Event e) Hwf) Hne) as [H|H]; [left; exact H|].
      right. apply elem_of_app. right. exact H.
    + destruct (decide (watermark st < w /\ max_timestamp k <= w)) as [[Hadv Hdue]|Hopen].
      * right. apply elem_of_app. left. cbn [assigned] in Hne.
        rewrite assigned_closed in Hne by lia. rewrite app_nil_r in Hne.
        unfold rows_of in Hne. destruct (groups st !! k) as [rows|] eqn:Hg; [|contradiction].
        apply list_elem_of_fmap. exists (emit (k, rows)).
        split; [rewrite summary_key_emit; reflexivity|].
        apply elem_of_process_watermark. exists k, rows. auto.
      * assert (Hopen' : watermark st < w -> w < max_timestamp k) by lia.
        rewrite <- (rows_step st (Watermark w) s k Hwf Hopen') in Hne.
        destruct (IH _ (wf_step st (Watermark w) Hwf) Hne) as [H|H]; [left; exact H|].
        right. apply elem_of_app. right. exact H.
Qed.

(** Counting the summaries of a key. *)
Lemma emissions_NoDup (k : key) (out : list MetricsSink.row) :
  NoDup (summary_key <$> out) ->
  (emissions k out <= 1)%nat /\
  (k ∈ summary_key <$> out -> emissions k out = 1%nat) /\
  (k ∉ summary_key <$> out -> emissions k out = 0%nat).
Proof.
  unfold emissions. induction out as [|r out IH]; simpl.
  - intros _. split; [lia|]. split; [intros H; inversion H | reflexivity].
  - intros Hnd. apply NoDup_cons in Hnd. destruct Hnd as [Hr Hnd].
    destruct (IH Hnd) as (IH1 & IH2 & IH3). rewrite filter_cons.
    destruct (decide (summary_key r = k)) as [<-|Hne]; simpl.
    + rewrite (IH3 Hr). split; [lia|]. split; [reflexivity|].
      intros H. exfalso. apply H. left.
    + split; [exact IH1|]. split.
      * intros H. apply elem_of_cons in H. destruct H as [H|H]; [congruence | auto].
      * intros H. apply IH3. intros H'. apply H. right. exact H'.
Qed.

End WindowOperator.

(** ** The aggregate functions *)

Section AggregateFunctions.

Lemma wrap_small (bits x : Z) :
  0 < bits -> - 2 ^ (bits - 1) <= x < 2 ^ (bits - 1) -> wrap bits x = x.
Proof.
  intros Hb Hx. unfold wrap.
  assert (H2 : 2 ^ bits = 2 * 2 ^ (bits - 1)).
  { replace bits with (Z.succ (bits - 1)) at 1 by lia. apply Z.pow_succ_r. lia. }
  rewrite H2. rewrite Z.mod_small by lia. lia.
Qed.

Lemma pow2_31_le_63 : 2 ^ (32 - 1) <= 2 ^ (64 - 1).
Proof. apply Z.pow_le_mono_r; lia. Qed.

Lemma COUNT_star_from {A : Type} (rows : list A) (c : Z) :
  0 <= c -> c + Z.of_nat (length rows) < 2 ^ (64 - 1) ->
  fold_left (fun c _ => bigint_add c 1) rows c = c + Z.of_nat (length rows).
Proof.
  revert c. induction rows as [|r rows IH]; intros c Hc Hlen; simpl in *; [lia|].
  unfold bigint_add at 2. rewrite wrap_small by lia.
  rewrite IH by lia. lia.
Qed.

(** COUNT( * ) is the number of rows of the group. *)
Lemma COUNT_star_length {A : Type} (rows : list A) :
  Z.of_nat (length rows) < 2 ^ (64 - 1) ->
  COUNT_star rows = Z.of_nat (length rows).
Proof. intros H. unfold COUNT_star. rewrite COUNT_star_from by lia. lia. Qed.

Lemma SUM_int_from {A : Type} (f : A -> bool) (rows : list A) (a : Z) :
  0 <= a -> a + Z.of_nat (length rows) < 2 ^ (32 - 1) ->
  fold_left
    (fun acc x =>
       match x with
       | None => acc
       | Some v => match acc with
                   | None => Some v
                   | Some a => Some (int_add a v)
                   end
       end) (map (fun r => if f r then Some 1 else Some 0) rows) (Some a)
  = Some (a + Z.of_nat (length (List.filter f rows))).
Proof.
  revert a. induction rows as [|r rows IH]; intros a Ha Hlen; simpl in *.
  - f_equal. lia.
  - pose proof (List.filter_length_le f rows) as Hle.
    destruct (f r); simpl; unfold int_add at 2; rewrite wrap_small by lia;
      rewrite IH by lia; f_equal; simpl; lia.
Qed.

(** SUM(CASE WHEN c THEN 1 ELSE 0 END) is the number of rows of the
    group on which [c] is true. *)
Lemma SUM_int_indicator {A : Type} (f : A -> bool) (rows : list A) :
  rows <> [] -> Z.of_nat (length rows) < 2 ^ (32 - 1) ->
  SUM_int (map (fun r => if f r then lit 1 else lit 0) rows)
  = Some (Z.of_nat (length (List.filter f rows))).
Proof.
  intros Hne Hlen. destruct rows as [|r rows]; [contradiction|].
  unfold SUM_int, lit. cbn [map fold_left]. simpl in Hlen.
  destruct (f r) eqn:E; cbv beta iota.
  - transitivity (Some (1 + Z.of_nat (length (List.filter f rows)))).
    + apply (SUM_int_from f rows 1); lia.
    + f_equal. simpl. rewrite E. simpl. lia.
  - transitivity (Some (0 + Z.of_nat (length (List.filter f rows)))).
    + apply (SUM_int_from f rows 0); lia.
    + f_equal. simpl. rewrite E. lia.
Qed.

Lemma omap_id_length_le {A : Type} (xs : list (option A)) :
  (length (omap id xs) <= length xs)%nat.
Proof.
  induction xs as [|[a|] xs IH]; cbn in *; lia.
Qed.

Lemma avg_accumulate_fold (xs : list (sql float)) (s : float) (c : Z) :
  0 <= c -> c + Z.of_nat (length xs) < 2 ^ (64 - 1) ->
  fold_left avg_accumulate xs (s, c)
  = (fold_left PrimFloat.add (omap id xs) s, c + Z.of_nat (length (omap id xs))).
Proof.
  revert s c. induction xs as [|x xs IH]; intros s c Hc Hlen; simpl in *.
  - f_equal. lia.
  - pose proof (omap_id_length_le xs) as Hle.
    destruct x as [v|]; simpl.
    + unfold bigint_add. rewrite wrap_small by lia. rewrite IH by lia.
      change (list_omap (option float) float id xs) with (omap id xs).
      f_equal. lia.
    + rewrite IH by lia. reflexivity.
Qed.

(** AVG is the mean of the readings that are there. *)
Lemma AVG_mean (xs : list (sql float)) :
  Z.of_nat (length xs) < 2 ^ (64 - 1) -> AVG xs = mean xs.
Proof.
  intros Hlen. unfold AVG, mean. rewrite avg_accumulate_fold by lia. cbn [fst snd].
  destruct (omap id xs) as [|v vs]; [reflexivity|].
  destruct (0 + Z.of_nat (length (v :: vs)) =? 0) eqn:E.
  - apply Z.eqb_eq in E. simpl in E. lia.
  - rewrite Z.add_0_l. reflexivity.
Qed.

(** [round_half_up] is the integer nearest to the fraction, a half going
    up. *)
Lemma round_half_up_nearest (num den : Z) :
  0 < den ->
  2 * num - den < 2 * den * round_half_up num den <= 2 * num + den.
Proof.
  intros Hden. unfold round_half_up.
  pose proof (Z.div_mod (2 * num + den) (2 * den)) as Hdiv.
  pose proof (Z.mod_pos_bound (2 * num + den) (2 * den)) as Hmod.
  lia.
Qed.

Example ROUND_one_third : ROUND (1 / 3) 3 = 0.333%float.
Proof. vm_compute. reflexivity. Qed.

Example ROUND_half_up : ROUND 0.125 2 = 0.13%float /\ ROUND (-0.125) 2 = (-0.13)%float.
Proof. vm_compute. split; reflexivity. Qed.

Example ROUND_mean : ROUND ((21 + 36 + 22) / 3) 2 = 26.33%float.
Proof. vm_compute. reflexivity. Qed.

End AggregateFunctions.

(** ** The summaries of [metrics_query] *)

Section Summaries.

Import Source Window.

Lemma metrics_query_spec (w : Z) (b : sql string) (rows : list SensorSource.row) :
  rows <> [] -> Z.of_nat (length rows) < 2 ^ (32 - 1) ->
  let r := metrics_query w b rows in
  let n := Z.of_nat (length rows) in
  let anomalies := Z.of_nat (count_if anomalous rows) in
  MetricsSink.sensor_count r = n /\
  MetricsSink.avg_temperature r
    = lift1 (fun m => ROUND m 2) (mean (map SensorSource.temperature rows)) /\
  MetricsSink.avg_humidity r
    = lift1 (fun m => ROUND m 2) (mean (map SensorSource.humidity rows)) /\
  MetricsSink.avg_pressure r
    = lift1 (fun m => ROUND m 2) (mean (map SensorSource.pressure rows)) /\
  MetricsSink.anomaly_count r = Some anomalies /\
  MetricsSink.anomaly_rate r
    = Some (ROUND (double_of_Z anomalies / double_of_Z n) 3) /\
  MetricsSink.low_battery_count r = Some (Z.of_nat (count_if low_battery rows)).
Proof.
  intros Hne Hlen. cbv zeta. pose proof pow2_31_le_63 as Hpow.
  unfold metrics_query. cbn [MetricsSink.sensor_count MetricsSink.avg_temperature
    MetricsSink.avg_humidity MetricsSink.avg_pressure MetricsSink.anomaly_count
    MetricsSink.anomaly_rate MetricsSink.low_battery_count].
  rewrite COUNT_star_length by lia.
  rewrite !AVG_mean by (rewrite length_map; lia).
  rewrite (SUM_int_indicator (fun r => is_true (SensorSource.is_anomaly r)) rows Hne Hlen).
  rewrite (SUM_int_indicator
             (fun r => is_true (lt_int (SensorSource.battery_level r) (lit 20))) rows Hne Hlen).
  repeat split.
  unfold count_if. do 3 f_equal. apply List.filter_ext. intros e.
  unfold low_battery, lt_int, lit, lift2, is_true.
  destruct (SensorSource.battery_level e) as [v|]; [|reflexivity].
  destruct (v <? 20); reflexivity.
Qed.

Lemma assigned_length (s : list element) (wm : Z) (k : key) :
  (length (assigned wm s k) <= length s)%nat.
Proof.
  revert wm. induction s as [|x s IH]; intros wm; simpl; [lia|].
  destruct x as [e|w].
  - destruct (is_late wm (key_of e)); [specialize (IH wm); lia|].
    destruct (decide (key_of e = k)); simpl; specialize (IH wm); lia.
  - specialize (IH (Z.max wm w)). lia.
Qed.

(** A summary of a run from the start is the select list over the rows
    assigned to its key. *)
Lemma run_summary (s : list element) (r : MetricsSink.row) :
  r ∈ snd (Window.run s) ->
  let k := summary_key r in
  let rows := assigned MIN_WATERMARK s k in
  r = metrics_query (fst k) (snd k) rows /\ rows <> [] /\
  Forall (fun e => key_of e = k) rows /\
  max_timestamp k <= watermark (fst (Window.run s)).
Proof.
  intros Hin. pose proof (emitted_summary_spec s init wf_init r Hin) as H.
  cbv zeta in H. unfold rows_of in H. simpl in H.
  rewrite lookup_empty in H. simpl in H.
  destruct H as (H1 & H2 & H3 & _ & H4). auto.
Qed.

(** An open group holds the rows assigned to its key so far. *)
Lemma open_group_rows (s : list element) (st : state) (k : key)
    (rows : list SensorSource.row) :
  wf st ->
  groups (fst (Window.run_from st s)) !! k = Some rows ->
  rows = rows_of st k ++ assigned (watermark st) s k.
Proof.
  revert st. induction s as [|x s IH]; intros st Hwf Hg.
  - simpl in *. unfold rows_of. rewrite Hg, app_nil_r. reflexivity.
  - rewrite window_run_from_cons in Hg. cbn [fst] in Hg.
    pose proof (wf_step st x Hwf) as Hwf1.
    rewrite (IH _ Hwf1 Hg). apply rows_step; [exact Hwf|].
    destruct x as [e|w]; [exact I|]. intros Hadv.
    destruct (wf_run_from s _ Hwf1) as [Hwf2 Hmono].
    destruct (Hwf2 k rows Hg) as [Hlt _].
    rewrite step_watermark in Hmono. lia.
Qed.

End Summaries.

(** C3. Every summary written for a window and building is computed
    over the rows assigned to that window and building: sensor_count is
    their number, the three averages are the means of the readings rounded
    to 2 decimals, anomaly_count is the number of rows with is_anomaly
    true, anomaly_rate is anomaly_count / sensor_count rounded to 3
    decimals, and low_battery_count is the number of rows with
    battery_level < 20; with 3 rows, 1 anomalous and 1 of low battery, the
    summary reads 3, 1, 0.333 and 1. *)
Theorem C3_window_summary_metrics (s : list Source.element) (r : MetricsSink.row) :
  r ∈ snd (Window.run s) ->
  Z.of_nat (length (Window.assigned Source.MIN_WATERMARK s (Window.summary_key r))) < 2 ^ 31 ->
  let k := Window.summary_key r in
  let rows := Window.assigned Source.MIN_WATERMARK s k in
  let n := Z.of_nat (length rows) in
  let anomalies := Z.of_nat (count_if anomalous rows) in
  let low := Z.of_nat (count_if low_battery rows) in
  Forall (fun e => TUMBLE_START (SensorSource.event_time e) = MetricsSink.window_start r /\
                   TUMBLE_END (SensorSource.event_time e) = MetricsSink.window_end r /\
                   SensorSource.building e = MetricsSink.building r) rows /\
  MetricsSink.window_end r = MetricsSink.window_start r + 60000 /\
  MetricsSink.sensor_count r = n /\
  MetricsSink.avg_temperature r
    = lift1 (fun m => ROUND m 2) (mean (map SensorSource.temperature rows)) /\
  MetricsSink.avg_humidity r
    = lift1 (fun m => ROUND m 2) (mean (map SensorSource.humidity rows)) /\
  MetricsSink.avg_pressure r
    = lift1 (fun m => ROUND m 2) (mean (map SensorSource.pressure rows)) /\
  MetricsSink.anomaly_count r = Some anomalies /\
  MetricsSink.anomaly_rate r = Some (ROUND (double_of_Z anomalies / double_of_Z n) 3) /\
  MetricsSink.low_battery_count r = Some low /\
  (n = 3 -> anomalies = 1 -> low = 1 ->
   MetricsSink.sensor_count r = 3 /\ MetricsSink.anomaly_count r = Some 1 /\
   MetricsSink.anomaly_rate r = Some 0.333%float /\
   MetricsSink.low_battery_count r = Some 1).
Proof.
  intros Hin Hrows. cbv zeta.
  destruct (run_summary s r Hin) as (Hr & Hne & Hkey & _).
  set (k := Window.summary_key r) in *.
  set (rows := Window.assigned Source.MIN_WATERMARK s k) in *.
  change (2 ^ 31) with (2 ^ (32 - 1)) in Hrows.
  destruct (metrics_query_spec (fst k) (snd k) rows Hne Hrows)
    as (H1 & H2 & H3 & H4 & H5 & H6 & H7).
  rewrite <- Hr in H1, H2, H3, H4, H5, H6, H7.
  assert (Hend : MetricsSink.window_end r = MetricsSink.window_start r + 60000)
    by (rewrite Hr; reflexivity).
  split; [|split].
  - eapply Forall_impl; [exact Hkey|]. intros e He. simpl in He.
    unfold k, Window.summary_key, Window.key_of in He.
    injection He as He1 He2. unfold TUMBLE_END. rewrite Hend, He1.
    repeat split. exact He2.
  - exact Hend.
  - repeat (split; [assumption|]).
    intros Hn Ha Hl. rewrite H1, H5, H6, H7, Hn, Ha, Hl.
    repeat split.
Qed.

(** C9. No summary is written with sensor_count 0: a group exists only
    once a row has been assigned to its window and building, so every
    summary is computed over at least one row, its sensor_count is the
    number of these rows and at least 1, and every open group holds at
    least one row. *)
Theorem C9_sensor_count_at_least_one (s : list Source.element) (r : MetricsSink.row) :
  r ∈ snd (Window.run s) ->
  Z.of_nat (length (Window.assigned Source.MIN_WATERMARK s (Window.summary_key r))) < 2 ^ 63 ->
  let rows := Window.assigned Source.MIN_WATERMARK s (Window.summary_key r) in
  rows <> [] /\
  MetricsSink.sensor_count r = Z.of_nat (length rows) /\
  1 <= MetricsSink.sensor_count r /\
  MetricsSink.sensor_count r <> 0 /\
  (forall k open_rows, Window.groups (fst (Window.run s)) !! k = Some open_rows ->
     open_rows <> []).
Proof.
  intros Hin Hlen. cbv zeta.
  destruct (run_summary s r Hin) as (Hr & Hne & _ & _).
  apply (f_equal MetricsSink.sensor_count) in Hr.
  cbn [MetricsSink.sensor_count metrics_query] in Hr.
  rewrite COUNT_star_length in Hr by (change (2 ^ (64 - 1)) with (2 ^ 63); lia).
  assert (Hpos : 1 <= MetricsSink.sensor_count r).
  { rewrite Hr.
    destruct (Window.assigned Source.MIN_WATERMARK s (Window.summary_key r));
      [contradiction | simpl; lia]. }
  split; [exact Hne|]. split; [exact Hr|]. split; [exact Hpos|]. split; [lia|].
  intros k open_rows Hg.
  destruct (wf_run_from s Window.init wf_init) as [Hwf _].
  destruct (Hwf k open_rows Hg) as (_ & Hopen & _). exact Hopen.
Qed.

(** ** Emission of windows *)

Section Emission.

Import Source Window.

(** A window that the watermark has reached has no open group. *)
Lemma closed_not_open (s : list element) (k : key) :
  max_timestamp k <= watermark (fst (Window.run s)) ->
  groups (fst (Window.run s)) !! k = None.
Proof.
  intros Hclosed. destruct (wf_run_from s init wf_init) as [Hwf _].
  destruct (groups (fst (Window.run s)) !! k) as [rows|] eqn:Hg; [|reflexivity].
  destruct (Hwf k rows Hg) as [Hlt _]. unfold Window.run in *. lia.
Qed.

(** The summaries of a key in a run: none before the watermark reaches
    the window or when no row was assigned, one afterwards. *)
Lemma emissions_of_run (s : list element) (k : key) :
  let out := snd (Window.run s) in
  let rows := assigned MIN_WATERMARK s k in
  (emissions k out <= 1)%nat /\
  (rows <> [] -> max_timestamp k <= watermark (fst (Window.run s)) ->
   emissions k out = 1%nat) /\
  (emissions k out <> 0%nat ->
   rows <> [] /\ max_timestamp k <= watermark (fst (Window.run s))).
Proof.
  cbv zeta. pose proof (emitted_keys_NoDup s init wf_init) as Hnd.
  destruct (emissions_NoDup k _ Hnd) as (H1 & H2 & H3).
  split; [exact H1|]. split.
  - intros Hne Hclosed. apply H2.
    destruct (assigned_open_or_emitted s init k wf_init) as [[rows Hopen]|Hin].
    + unfold rows_of. simpl. rewrite lookup_empty. exact Hne.
    + pose proof (closed_not_open s k Hclosed) as Hnone.
      unfold Window.run in Hnone. congruence.
    + exact Hin.
  - intros Hem.
    destruct (decide (k ∈ summary_key <$> snd (Window.run s))) as [Hin|Hnin].
    + apply list_elem_of_fmap in Hin. destruct Hin as (r & -> & Hin).
      destruct (run_summary s r Hin) as (_ & Hne & _ & Hclosed). auto.
    + exfalso. apply Hem, H3, Hnin.
Qed.

(** A row that arrives when the watermark has reached its window leaves
    the operator as it was. *)
Lemma late_event_dropped (s : list element) (e : SensorSource.row) :
  max_timestamp (key_of e) <= watermark (fst (Window.run s)) ->
  Window.run (s ++ [Event e]) = Window.run s.
Proof.
  intros Hlate. unfold Window.run in *. rewrite window_run_from_app.
  cbn [Window.run_from step fst snd].
  rewrite process_event_late by (apply is_late_true, Hlate).
  rewrite !app_nil_r. destruct (Window.run_from init s). reflexivity.
Qed.

(** A window that has been written stays closed and is not written a
    second time, whatever the stream goes on with. *)
Lemma emitted_stays_emitted (s s' : list element) (k : key) :
  emissions k (snd (Window.run s)) <> 0%nat ->
  groups (fst (Window.run (s ++ s'))) !! k = None /\
  emissions k (snd (Window.run (s ++ s'))) = 1%nat.
Proof.
  intros Hem. destruct (emissions_of_run s k) as (_ & _ & H3).
  destruct (H3 Hem) as [Hne Hclosed].
  destruct (wf_run_from s init wf_init) as [Hwf _].
  destruct (wf_run_from s' _ Hwf) as [_ Hmono].
  assert (Hrun : Window.run (s ++ s')
                 = (fst (Window.run_from (fst (Window.run s)) s'),
                    snd (Window.run s) ++ snd (Window.run_from (fst (Window.run s)) s')))
    by apply window_run_from_app.
  assert (Hclosed' : max_timestamp k <= watermark (fst (Window.run (s ++ s')))).
  { rewrite Hrun. cbn [fst]. unfold Window.run in *. lia. }
  destruct (emissions_of_run (s ++ s') k) as (H1' & _ & _).
  assert (Hge : (1 <= emissions k (snd (Window.run (s ++ s'))))%nat).
  { rewrite Hrun. cbn [snd]. unfold emissions in *.
    rewrite filter_app, length_app. lia. }
  split; [apply closed_not_open, Hclosed' | lia].
Qed.

(** A row of a window that has been written changes nothing of the rest
    of the run. *)
Lemma late_event_skipped (s s' : list element) (e : SensorSource.row) :
  emissions (key_of e) (snd (Window.run s)) <> 0%nat ->
  Window.run (s ++ Event e :: s') = Window.run (s ++ s').
Proof.
  intros Hem. destruct (emissions_of_run s (key_of e)) as (_ & _ & H3).
  destruct (H3 Hem) as [_ Hclosed].
  change (s ++ Event e :: s') with (s ++ [Event e] ++ s').
  rewrite app_assoc. unfold Window.run.
  rewrite (window_run_from_app (s ++ [Event e]) s').
  rewrite (window_run_from_app s s').
  pose proof (late_event_dropped s e Hclosed) as Hdrop. unfold Window.run in Hdrop.
  rewrite Hdrop. reflexivity.
Qed.

Lemma assigned_app (s1 s2 : list element) (st : state) (k : key) :
  assigned (watermark st) (s1 ++ s2) k
  = assigned (watermark st) s1 k
    ++ assigned (watermark (fst (Window.run_from st s1))) s2 k.
Proof.
  revert st. induction s1 as [|x s1 IH]; intros st; [reflexivity|].
  rewrite <- app_comm_cons, window_run_from_cons. cbn [fst].
  specialize (IH (fst (step st x))). rewrite step_watermark in IH.
  destruct x as [e|w]; cbn [assigned].
  - destruct (is_late (watermark st) (key_of e)); [exact IH|].
    destruct (decide (key_of e = k)); [|exact IH].
    rewrite IH. reflexivity.
  - exact IH.
Qed.

(** Rows that arrive after the watermark has reached a window are not
    assigned to it. *)
Lemma assigned_app_closed (s s' : list element) (k : key) :
  max_timestamp k <= watermark (fst (Window.run s)) ->
  assigned MIN_WATERMARK (s ++ s') k = assigned MIN_WATERMARK s k.
Proof.
  intros Hclosed.
  change MIN_WATERMARK with (watermark init). rewrite assigned_app.
  rewrite (assigned_closed s' (watermark (fst (Window.run_from init s))) k)
    by exact Hclosed.
  apply app_nil_r.
Qed.

End Emission.

(** C6, as stated, fails: a window that received a row is not emitted
    for as long as no later row takes the watermark past it.  Here the
    source delivers one row and then runs its periodic emission twice; the
    row is assigned to its window, and nothing is written. *)
Lemma C6_window_with_rows_not_emitted :
  let s := snd (Source.run 1 [Source.Poll 0 lone_reading; Source.Tick; Source.Tick]) in
  Window.assigned Source.MIN_WATERMARK s (Window.key_of lone_reading) = [lone_reading] /\
  snd (Window.run s) = [] /\
  Window.emissions (Window.key_of lone_reading) (snd (Window.run s)) = 0%nat.
Proof. vm_compute. repeat split. Qed.

(** C6, amended. In a run, at most one summary is written for a window and
    building; exactly one is written once rows have been assigned to the
    window and the watermark has reached its last millisecond, and none
    before; and a window that is EMITTED stays EMITTED, whatever the
    stream goes on with. *)
Theorem C6_window_emitted_at_most_once (s : list Source.element) (k : Window.key) :
  let out := snd (Window.run s) in
  let rows := Window.assigned Source.MIN_WATERMARK s k in
  let closed := Window.max_timestamp k <= Window.watermark (fst (Window.run s)) in
  (Window.emissions k out <= 1)%nat /\
  (Window.emissions k out = 1%nat <-> rows <> [] /\ closed) /\
  (forall s', Window.phase_of (Window.run s) k = Window.EMITTED ->
              Window.phase_of (Window.run (s ++ s')) k = Window.EMITTED /\
              Window.emissions k (snd (Window.run (s ++ s'))) = 1%nat).
Proof.
  cbv zeta. destruct (emissions_of_run s k) as (H1 & H2 & H3).
  split; [exact H1|]. split; [split|].
  - intros H. apply H3. lia.
  - intros [Hne Hclosed]. apply H2; assumption.
  - intros s' Hphase. unfold Window.phase_of in Hphase.
    destruct (Window.groups (fst (Window.run s)) !! k) eqn:Hg; [discriminate|].
    destruct (decide (Window.emissions k (snd (Window.run s)) = 0%nat)) as [|Hem];
      [discriminate|].
    destruct (emitted_stays_emitted s s' k Hem) as [Hnone Hone].
    split; [|exact Hone]. unfold Window.phase_of. rewrite Hnone, Hone.
    reflexivity.
Qed.

(** C8, as stated, fails: the queries define no counter and no side output
    for late rows.  The window of [late_reading] has been written and the
    watermark is more than 5 seconds past the row; the row then changes
    neither the state of the window operator nor what [metrics_sink]
    receives, so nothing records that it came. *)
Lemma C8_late_row_leaves_no_trace :
  let before := metrics_pipeline 1 window_scenario in
  let after := metrics_pipeline 1 (window_scenario ++ [Source.Poll 0 late_reading]) in
  Window.emissions (Window.key_of late_reading) (snd before) = 1%nat /\
  SensorSource.event_time late_reading + Source.BOUNDED_LATENESS < Window.watermark (fst before) /\
  after = before.
Proof.
  cbv zeta.
  assert (Hs : snd (Source.run 1 (window_scenario ++ [Source.Poll 0 late_reading]))
               = snd (Source.run 1 window_scenario) ++ [Source.Event late_reading])
    by (vm_compute; reflexivity).
  assert (Hw : Window.watermark (fst (metrics_pipeline 1 window_scenario)) = 1705314660000)
    by (vm_compute; reflexivity).
  split; [vm_compute; reflexivity|]. split; [rewrite Hw; vm_compute; reflexivity|].
  unfold metrics_pipeline in *. rewrite Hs. apply late_event_dropped.
  rewrite Hw. vm_compute. discriminate.
Qed.

(** C8, amended. A row whose window has already been written is not
    aggregated and does not reopen the window: the window operator drops
    it, the rest of the run is what it would have been without the row,
    and the window keeps its one summary.  The operator is a total
    function of the stream; the queries define no counter or side output
    for the dropped row. *)
Theorem C8_late_row_is_dropped
    (s s' : list Source.element) (e : SensorSource.row) :
  Window.emissions (Window.key_of e) (snd (Window.run s)) = 1%nat ->
  Window.run (s ++ [Source.Event e]) = Window.run s /\
  Window.run (s ++ Source.Event e :: s') = Window.run (s ++ s') /\
  Window.emissions (Window.key_of e) (snd (Window.run (s ++ Source.Event e :: s'))) = 1%nat /\
  Window.assigned Source.MIN_WATERMARK (s ++ Source.Event e :: s') (Window.key_of e)
    = Window.assigned Source.MIN_WATERMARK s (Window.key_of e).
Proof.
  intros Hone.
  assert (Hem : Window.emissions (Window.key_of e) (snd (Window.run s)) <> 0%nat) by lia.
  destruct (emissions_of_run s (Window.key_of e)) as (_ & _ & H3).
  destruct (H3 Hem) as [_ Hclosed].
  split; [apply late_event_dropped, Hclosed|]. split; [apply late_event_skipped, Hem|].
  split.
  - rewrite (late_event_skipped s s' e Hem).
    apply (emitted_stays_emitted s s' (Window.key_of e) Hem).
  - apply assigned_app_closed. exact Hclosed.
Qed.

(** ** The archive sink *)

Section Calendar.





End Calendar.

Section Strings.

Lemma string_append_nil (b : string) : String.append EmptyString b = b.
Proof. reflexivity. Qed.

Lemma string_append_cons (c : ascii) (a b : string) :
  String.append (String c a) b = String c (String.append a b).
Proof. reflexivity. Qed.

Lemma string_append_assoc (a b c : string) :
  String.append (String.append a b) c = String.append a (String.append b c).
Proof.
  induction a as [|x a IH]; [reflexivity|].
  rewrite !string_append_cons, IH. reflexivity.
Qed.

Lemma string_length_append (a b : string) :
  String.length (String.append a b) = (String.length a + String.length b)%nat.
Proof.
  induction a as [|x a IH]; [reflexivity|].
  rewrite string_append_cons. simpl. rewrite IH. reflexivity.
Qed.

(** Two strings of one length, each followed by more text: the first text
    is a prefix of the second exactly when the strings are equal and the
    rests are in the same relation. *)
Lemma prefix_append_same_length (a b x y : string) :
  String.length a = String.length b ->
  (String.prefix (String.append a x) (String.append b y) = true <->
   a = b /\ String.prefix x y = true).
Proof.
  revert b. induction a as [|c a IH]; intros [|d b] Hlen; simpl in Hlen; try discriminate.
  - rewrite !string_append_nil.
    split; [intros H; split; [reflexivity | exact H] | intros (_ & H); exact H].
  - rewrite !string_append_cons. simpl. destruct (ascii_dec c d) as [->|Hne].
    + rewrite IH by congruence. split; intros (H1 & H2); split; congruence.
    + split; [discriminate | intros ([= H _] & _); contradiction].
Qed.

Lemma endswith_length (s suffix : string) :
  Loader.endswith s suffix = true -> (String.length suffix <= String.length s)%nat.
Proof.
  induction s as [|c s IH]; cbn [Loader.endswith].
  - rewrite orb_false_r. intros H. apply String.eqb_eq in H. subst. simpl. lia.
  - intros H. apply orb_true_iff in H. destruct H as [H|H].
    + apply String.eqb_eq in H. subst. simpl. lia.
    + specialize (IH H). simpl. lia.
Qed.

(** Whether a text ends with a suffix is decided by its last characters. *)
Lemma endswith_append (a b suffix : string) :
  String.length b = String.length suffix ->
  Loader.endswith (String.append a b) suffix = String.eqb b suffix.
Proof.
  intros Hlen.
  assert (Htail : forall s, (String.length s < String.length suffix)%nat ->
                            Loader.endswith s suffix = false).
  { intros s Hs. destruct (Loader.endswith s suffix) eqn:E; [|reflexivity].
    apply endswith_length in E. lia. }
  induction a as [|c a IH].
  - rewrite string_append_nil. destruct b as [|d b]; cbn [Loader.endswith].
    + apply orb_false_r.
    + rewrite Htail by (simpl in Hlen; lia). apply orb_false_r.
  - rewrite string_append_cons. cbn [Loader.endswith]. rewrite IH.
    assert (Hne : String.eqb (String c (String.append a b)) suffix = false).
    { apply String.eqb_neq. intros <-. simpl in Hlen. rewrite string_length_append in Hlen. lia. }
    rewrite Hne. reflexivity.
Qed.

Lemma format_date_length (ts : Z) : String.length (Builtin.format_date ts) = 10%nat.
Proof.
  unfold Builtin.format_date.
  destruct (Builtin.civil_from_days (ts / Builtin.MILLIS_PER_DAY)) as [[y m] d].
  reflexivity.
Qed.

End Strings.

Section ArchiveSink.

Import Archive.

















End ArchiveSink.


(** The reader of the repository does not wait for the marker: while the
    directory of the row of 10:30:00 has no marker, the loader reads its
    file. *)
Example loader_reads_before_the_marker :
  let r := archive_query 1705314600100 Sample.hot_humid in
  Archive.has_marker (Archive.run [Archive.Append 1705314600200 r])
    (Archive.partition_path r) = false /\
  LoaderSample.part_file = archive_object_key r "part-0.parquet" /\
  Loader.load_sensor_data _ LoaderSample.list_uncommitted LoaderSample.read_parquet
    8 LoaderSample.now 7 = Loader.Returned [[Sample.hot_humid]].
Proof.
  cbv zeta. split; [vm_compute; reflexivity|].
  split; vm_compute; reflexivity.
Qed.

(** The clock alone writes no marker: five minutes after the first write
    to its directory, and after a second row, the directory of the row of
    10:30:00 has no marker while the sink has run no commit check, and it
    has one after the next commit check. *)
Example marker_waits_for_a_commit_check :
  let r := archive_query 1705314600100 Sample.hot_humid in
  let writes := [Archive.Append 1705314600200 r; Archive.Append 1705314900200 r] in
  Archive.has_marker (Archive.run writes) (Archive.partition_path r) = false /\
  Archive.has_marker (Archive.run (writes ++ [Archive.CommitTrigger 1705314900300]))
    (Archive.partition_path r) = true.
Proof. cbv zeta. split; vm_compute; reflexivity. Qed.



(** ** The claims at the scenario of the spec *)

Lemma window_scenario_run :
  snd (Window.run (snd (Source.run 1 window_scenario))) = [window_scenario_summary].
Proof. vm_compute. reflexivity. Qed.

(** C3 at the scenario: the one summary of the run counts the three rows
    assigned to its window. *)
Lemma C3_scenario_witness :
  let s := snd (Source.run 1 window_scenario) in
  let r := window_scenario_summary in
  r ∈ snd (Window.run s) /\
  Z.of_nat (length (Window.assigned Source.MIN_WATERMARK s (Window.summary_key r))) < 2 ^ 31 /\
  MetricsSink.sensor_count r
    = Z.of_nat (length (Window.assigned Source.MIN_WATERMARK s (Window.summary_key r))).
Proof.
  cbv zeta.
  assert (Hin : window_scenario_summary ∈ snd (Window.run (snd (Source.run 1 window_scenario))))
    by (rewrite window_scenario_run; left).
  assert (Hlen : Z.of_nat (length (Window.assigned Source.MIN_WATERMARK
                                     (snd (Source.run 1 window_scenario))
                                     (Window.summary_key window_scenario_summary))) < 2 ^ 31)
    by (vm_compute; reflexivity).
  split; [exact Hin|]. split; [exact Hlen|].
  exact (proj1 (proj2 (proj2
    (C3_window_summary_metrics (snd (Source.run 1 window_scenario))
       window_scenario_summary Hin Hlen)))).
Defined.

(** C5 at the two partitions: each has the watermark of its own latest
    row, and the watermark of the source is the smaller of the two. *)
Lemma C5_scenario_witness :
  let st := fst (Source.run 2 two_partition_scenario) in
  Source.partition_watermarks st !! 0%nat = Some (1705314601000 - 5000) /\
  Source.partition_watermarks st !! 1%nat = Some (1705314665000 - 5000) /\
  Source.current_watermark st <= 1705314601000 - 5000.
Proof.
  cbv zeta.
  pose proof (C5_source_watermark_is_slowest_partition 2 two_partition_scenario) as H.
  cbv zeta in H. destruct H as (Hone & _ & _ & Hle & _).
  assert (H0 : Source.partition_watermarks (fst (Source.run 2 two_partition_scenario)) !! 0%nat
               = Some (1705314601000 - 5000)).
  { apply Hone; [lia | vm_compute; reflexivity | vm_compute; discriminate]. }
  assert (H1 : Source.partition_watermarks (fst (Source.run 2 two_partition_scenario)) !! 1%nat
               = Some (1705314665000 - 5000)).
  { apply Hone; [lia | vm_compute; reflexivity | vm_compute; discriminate]. }
  split; [exact H0|]. split; [exact H1|]. exact (Hle _ _ H0).
Defined.

(** C8 at the scenario: the late row after the first window was written. *)
Lemma C8_scenario_witness :
  let s := snd (Source.run 1 window_scenario) in
  Window.emissions (Window.key_of late_reading) (snd (Window.run s)) = 1%nat /\
  Window.run (s ++ [Source.Event late_reading]) = Window.run s.
Proof.
  cbv zeta.
  assert (H : Window.emissions (Window.key_of late_reading)
                (snd (Window.run (snd (Source.run 1 window_scenario)))) = 1%nat)
    by (vm_compute; reflexivity).
  split; [exact H|].
  exact (proj1 (C8_late_row_is_dropped (snd (Source.run 1 window_scenario)) []
                  late_reading H)).
Defined.

(** C9 at the scenario. *)
Lemma C9_scenario_witness :
  let s := snd (Source.run 1 window_scenario) in
  let r := window_scenario_summary in
  r ∈ snd (Window.run s) /\
  Z.of_nat (length (Window.assigned Source.MIN_WATERMARK s (Window.summary_key r))) < 2 ^ 63 /\
  1 <= MetricsSink.sensor_count r.
Proof.
  cbv zeta.
  assert (Hin : window_scenario_summary ∈ snd (Window.run (snd (Source.run 1 window_scenario))))
    by (rewrite window_scenario_run; left).
  assert (Hlen : Z.of_nat (length (Window.assigned Source.MIN_WATERMARK
                                     (snd (Source.run 1 window_scenario))
                                     (Window.summary_key window_scenario_summary))) < 2 ^ 63)
    by (vm_compute; reflexivity).
  split; [exact Hin|]. split; [exact Hlen|].
  exact (proj1 (proj2 (proj2
    (C9_sensor_count_at_least_one (snd (Source.run 1 window_scenario))
       window_scenario_summary Hin Hlen)))).
Defined.

(** A failure after the summary of the first window has been written,
    with the last checkpoint taken before it: the restarted operator
    writes the summary a second time. *)
Example restart_writes_window_twice :
  let s := snd (Source.run 1 window_scenario) in
  Window.run_with_failure s 4 6 = [window_scenario_summary; window_scenario_summary] /\
  Window.emissions (Window.summary_key window_scenario_summary)
    (Window.run_with_failure s 4 6) = 2%nat.
Proof. vm_compute. split; reflexivity. Qed.

(** * Further properties of the queries *)

(** ** Windows and groups *)

(** The window of a row contains its event-time, starts on a whole minute
    and is one minute long; two rows belong to the same group of
    [metrics_query] exactly when they have the same building and their
    event-times lie in the same window. *)
Theorem tumble_window_of_event (e e' : SensorSource.row) :
  let t := SensorSource.event_time e in
  let t' := SensorSource.event_time e' in
  TUMBLE_START t <= t < TUMBLE_END t /\
  TUMBLE_START t mod 60000 = 0 /\
  TUMBLE_END t = TUMBLE_START t + 60000 /\
  (Window.key_of e = Window.key_of e' <->
   SensorSource.building e = SensorSource.building e' /\
   TUMBLE_START t <= t' < TUMBLE_END t).
Proof.
  cbv zeta. unfold Window.key_of, TUMBLE_END, TUMBLE_START, WINDOW_SIZE.
  split; [div_lia|]. split; [div_lia|]. split; [reflexivity|]. split.
  - intros [= H1 H2]. split; [exact H2|]. div_lia.
  - intros [Hb Ht]. f_equal; [div_lia | exact Hb].
Qed.

(** ** Missing readings *)

(** A row with a missing reading is still labelled: temp_trend and
    humidity_category are never NULL, a missing temperature reads 'NORMAL'
    and a missing humidity 'MODERATE'; comfort_index is NULL exactly when
    the temperature or the humidity is missing, and anomaly_score exactly
    when one of the three readings is. *)
Theorem enrichment_of_missing_readings (proctime : Z) (e : SensorSource.row) :
  let r := processed_query proctime e in
  ProcessedSink.temp_trend r <> None /\
  ProcessedSink.humidity_category r <> None /\
  (SensorSource.temperature e = None -> ProcessedSink.temp_trend r = Some "NORMAL") /\
  (SensorSource.humidity e = None -> ProcessedSink.humidity_category r = Some "MODERATE") /\
  (ProcessedSink.comfort_index r = None <->
   SensorSource.temperature e = None \/ SensorSource.humidity e = None) /\
  (ProcessedSink.anomaly_score r = None <->
   SensorSource.temperature e = None \/ SensorSource.humidity e = None \/
   SensorSource.pressure e = None).
Proof.
  cbv zeta. unfold processed_query.
  cbn [ProcessedSink.temp_trend ProcessedSink.humidity_category
       ProcessedSink.comfort_index ProcessedSink.anomaly_score].
  destruct (SensorSource.temperature e) as [t|];
    destruct (SensorSource.humidity e) as [h|];
    destruct (SensorSource.pressure e) as [p|]; cbn -[PrimFloat.ltb];
    repeat match goal with
           | |- context [if ?b then _ else _] => destruct b
           end;
    repeat split; try discriminate; try reflexivity; try tauto;
    try (intros [H|H]; discriminate H);
    try (intros [H|[H|H]]; discriminate H).
Qed.

(** ** Counts of a summary *)

Section SummaryCounts.

Import Source Window.

Lemma mean_None (xs : list (sql float)) :
  mean xs = None <-> Forall (fun x => x = None) xs.
Proof.
  unfold mean. induction xs as [|[v|] xs IH]; cbn.
  - split; [constructor | reflexivity].
  - split; [discriminate | intros H; inversion H; discriminate].
  - change (list_omap (option float) float id xs) with (omap id xs).
    rewrite IH. split; [intros H; constructor; auto | intros H; inversion H; auto].
Qed.

End SummaryCounts.

(** In every summary the number of anomalous rows and the number of rows
    of low battery lie between 0 and sensor_count. *)
Theorem summary_counts_within_sensor_count (s : list Source.element) (r : MetricsSink.row) :
  r ∈ snd (Window.run s) ->
  Z.of_nat (length (Window.assigned Source.MIN_WATERMARK s (Window.summary_key r))) < 2 ^ 31 ->
  exists a l,
    MetricsSink.anomaly_count r = Some a /\ MetricsSink.low_battery_count r = Some l /\
    0 <= a <= MetricsSink.sensor_count r /\ 0 <= l <= MetricsSink.sensor_count r.
Proof.
  intros Hin Hlen. destruct (run_summary s r Hin) as (Hr & Hne & _ & _).
  change (2 ^ 31) with (2 ^ (32 - 1)) in Hlen.
  destruct (metrics_query_spec (fst (Window.summary_key r)) (snd (Window.summary_key r))
              _ Hne Hlen) as (H1 & _ & _ & _ & H5 & _ & H7).
  rewrite <- Hr in H1, H5, H7.
  eexists _, _. split; [exact H5|]. split; [exact H7|].
  rewrite H1. unfold count_if.
  pose proof (List.filter_length_le anomalous
                (Window.assigned Source.MIN_WATERMARK s (Window.summary_key r))).
  pose proof (List.filter_length_le low_battery
                (Window.assigned Source.MIN_WATERMARK s (Window.summary_key r))).
  lia.
Qed.

(** An average of a summary is NULL exactly when the reading is missing in
    every row of the window: rows with a missing reading are left out of
    the average, not counted as zero. *)
Theorem summary_average_null_iff_all_missing (s : list Source.element) (r : MetricsSink.row) :
  r ∈ snd (Window.run s) ->
  Z.of_nat (length (Window.assigned Source.MIN_WATERMARK s (Window.summary_key r))) < 2 ^ 63 ->
  let rows := Window.assigned Source.MIN_WATERMARK s (Window.summary_key r) in
  (MetricsSink.avg_temperature r = None <->
   Forall (fun e => SensorSource.temperature e = None) rows) /\
  (MetricsSink.avg_humidity r = None <->
   Forall (fun e => SensorSource.humidity e = None) rows) /\
  (MetricsSink.avg_pressure r = None <->
   Forall (fun e => SensorSource.pressure e = None) rows).
Proof.
  intros Hin Hlen. cbv zeta. destruct (run_summary s r Hin) as (Hr & _ & _ & _).
  set (rows := Window.assigned Source.MIN_WATERMARK s (Window.summary_key r)) in *.
  change (2 ^ 63) with (2 ^ (64 - 1)) in Hlen.
  assert (Havg : forall f : SensorSource.row -> sql float,
             lift1 (fun v => ROUND v 2) (AVG (map f rows)) = None <->
             Forall (fun e => f e = None) rows).
  { intros f. rewrite AVG_mean by (rewrite length_map; exact Hlen).
    destruct (mean (map f rows)) as [m|] eqn:Hm; simpl.
    - split; [discriminate|]. intros Hall.
      assert (Hnone : mean (map f rows) = None)
        by (apply mean_None, Forall_map; exact Hall).
      congruence.
    - split; [|reflexivity]. intros _. apply mean_None in Hm.
      apply Forall_map in Hm. exact Hm. }
  rewrite Hr. cbn [MetricsSink.avg_temperature MetricsSink.avg_humidity
                   MetricsSink.avg_pressure metrics_query].
  fold rows. repeat split; apply Havg.
Qed.

(** ** The source and the window operator together *)

Section Pipeline.

Import Source Window.

Lemma source_run_from_app (a b : list input) (st : Source.state) :
  Source.run_from st (a ++ b)
  = (fst (Source.run_from (fst (Source.run_from st a)) b),
     snd (Source.run_from st a) ++ snd (Source.run_from (fst (Source.run_from st a)) b)).
Proof.
  revert st. induction a as [|i a IH]; intros st.
  - simpl. destruct (Source.run_from st b). reflexivity.
  - rewrite <- app_comm_cons, !run_from_cons, IH. cbn [fst snd].
    rewrite app_assoc. reflexivity.
Qed.

Lemma run_watermark_mono (ins : list input) (st : Source.state) :
  current_watermark st <= current_watermark (fst (Source.run_from st ins)).
Proof.
  revert st. induction ins as [|i ins IH]; intros st; [simpl; lia|].
  rewrite run_from_cons. cbn [fst].
  pose proof (step_watermark_mono st i). specialize (IH (fst (Source.step st i))). lia.
Qed.

(** What the source has emitted is never ahead of its watermark. *)
Lemma step_last_emitted (st : Source.state) (i : input) :
  last_emitted st <= current_watermark st ->
  last_emitted (fst (Source.step st i)) <= current_watermark (fst (Source.step st i)).
Proof.
  intros H. pose proof (step_watermark_mono st i) as Hmono.
  destruct i as [q e|]; simpl in *.
  - assert (Hlast : last_emitted (on_event q e st) = last_emitted st).
    { unfold on_event. destruct (partition_watermarks st !! q); reflexivity. }
    lia.
  - destruct (last_emitted st <? current_watermark st); simpl.
    + unfold current_watermark. simpl. lia.
    + exact H.
Qed.

Lemma emitted_below_watermark (ins : list input) (st : Source.state) :
  last_emitted st <= current_watermark st ->
  Forall (fun w => w <= current_watermark (fst (Source.run_from st ins)))
         (watermarks (snd (Source.run_from st ins))).
Proof.
  revert st. induction ins as [|i ins IH]; intros st Hinv.
  - simpl. constructor.
  - rewrite run_from_cons. cbn [fst snd]. unfold watermarks. rewrite omap_app.
    fold (watermarks (snd (Source.run_from (fst (Source.step st i)) ins))).
    apply Forall_app. split; [|apply IH, step_last_emitted, Hinv].
    pose proof (run_watermark_mono ins (fst (Source.step st i))) as Hmono.
    destruct i as [q e|]; simpl; [constructor|].
    revert Hmono. simpl.
    destruct (last_emitted st <? current_watermark st); simpl; intros Hmono;
      [|constructor].
    constructor; [|constructor]. unfold current_watermark in *. simpl in *. lia.
Qed.

Lemma init_last_emitted (n : nat) :
  last_emitted (Source.init n) <= current_watermark (Source.init n).
Proof.
  unfold current_watermark, Source.init. simpl. destruct n as [|n]; simpl; [lia|].
  induction n as [|n IH]; simpl; lia.
Qed.

Lemma fold_max_cases (l : list Z) (a : Z) :
  fold_left Z.max l a = a \/ fold_left Z.max l a ∈ l.
Proof.
  revert a. induction l as [|x l IH]; intros a; simpl; [left; reflexivity|].
  destruct (IH (Z.max a x)) as [H|H].
  - rewrite H. destruct (Z.max_spec a x) as [[_ ->]|[_ ->]]; [right; left | left; reflexivity].
  - right. right. exact H.
Qed.

(** The watermark of a partition after a run: the smallest BIGINT, or a
    delivered event-time minus the bounded lateness. *)
Lemma partition_watermark_cases (n : nat) (ins : list input) (p : nat) :
  (p < n)%nat ->
  exists w, partition_watermarks (fst (Source.run n ins)) !! p = Some w /\
            (w = MIN_WATERMARK \/
             exists t, t ∈ event_times p ins /\ w = t - BOUNDED_LATENESS).
Proof.
  intros Hp. unfold Source.run.
  rewrite (run_from_partition_watermark ins (Source.init n) p MIN_WATERMARK)
    by (simpl; apply lookup_replicate_2; exact Hp).
  eexists. split; [reflexivity|].
  destruct (fold_max_cases (map (fun t => t - BOUNDED_LATENESS) (event_times p ins))
              MIN_WATERMARK) as [H|H]; [left; exact H|].
  right. apply list_elem_of_fmap in H. destruct H as (t & Ht & Hin). eauto.
Qed.

(** The watermark of the window operator follows the watermarks of its
    stream. *)
Lemma window_watermark_bound (s : list element) (st : Window.state) (B : Z) :
  watermark st <= B -> Forall (fun w => w <= B) (watermarks s) ->
  watermark (fst (Window.run_from st s)) <= B.
Proof.
  revert st. induction s as [|x s IH]; intros st Hst Hall; [exact Hst|].
  rewrite window_run_from_cons. cbn [fst]. apply IH.
  - rewrite step_watermark. destruct x as [e|w]; [exact Hst|].
    unfold watermarks in Hall. simpl in Hall. inversion Hall; subst. lia.
  - destruct x as [e|w]; [exact Hall|].
    unfold watermarks in Hall. simpl in Hall. inversion Hall; assumption.
Qed.

(** The window operator is never ahead of a partition of its source. *)
Lemma pipeline_watermark_le_partition (n : nat) (ins : list input) (p : nat) (w : Z) :
  partition_watermarks (fst (Source.run n ins)) !! p = Some w ->
  watermark (fst (metrics_pipeline n ins)) <= w.
Proof.
  intros Hp. unfold metrics_pipeline, Window.run.
  pose proof (combined_le_lookup _ _ _ Hp) as Hle.
  apply window_watermark_bound.
  - simpl. pose proof (init_last_emitted n) as H0.
    pose proof (run_watermark_mono ins (Source.init n)) as H1.
    change (last_emitted (Source.init n)) with MIN_WATERMARK in H0.
    unfold Source.run, current_watermark in *. lia.
  - eapply Forall_impl; [apply emitted_below_watermark, init_last_emitted|].
    simpl. intros x Hx. unfold Source.run, current_watermark in *. lia.
Qed.

End Pipeline.

(** A row that is less than 5 seconds older than every row its partition
    has delivered before is never dropped as late: it is added to the
    group of its window and building, whatever the other partitions have
    delivered. *)
Theorem row_within_lateness_is_aggregated
    (n : nat) (pre : list Source.input) (p : nat) (e : SensorSource.row) :
  (p < n)%nat ->
  (forall t, t ∈ Source.event_times p pre -> t - 5000 < SensorSource.event_time e) ->
  Source.MIN_WATERMARK < SensorSource.event_time e ->
  Window.rows_of (fst (metrics_pipeline n (pre ++ [Source.Poll p e]))) (Window.key_of e)
  = Window.rows_of (fst (metrics_pipeline n pre)) (Window.key_of e) ++ [e].
Proof.
  intros Hp Hnew Hmin.
  assert (Hlate : Window.is_late (Window.watermark (fst (metrics_pipeline n pre)))
                    (Window.key_of e) = false).
  { apply is_late_false.
    destruct (partition_watermark_cases n pre p Hp) as (w & Hw & Hcases).
    pose proof (pipeline_watermark_le_partition n pre p w Hw) as Hle.
    assert (Hin : SensorSource.event_time e <= Window.max_timestamp (Window.key_of e)).
    { unfold Window.max_timestamp, Window.key_of, TUMBLE_START, WINDOW_SIZE. simpl. div_lia. }
    destruct Hcases as [->|(t & Ht & ->)]; [lia|].
    specialize (Hnew t Ht). unfold Source.BOUNDED_LATENESS in *. lia. }
  unfold metrics_pipeline, Source.run in *.
  rewrite source_run_from_app. cbn [snd Source.run_from Source.step].
  rewrite app_nil_r.
  unfold Window.run in *. rewrite window_run_from_app. cbn [fst Window.run_from Window.step].
  rewrite rows_of_process_event by exact Hlate.
  destruct (decide (Window.key_of e = Window.key_of e)); [reflexivity | contradiction].
Qed.

(** A summary is written only when every partition of the source has
    delivered a row at least 5 seconds (less one millisecond) past the end
    of the window: the slowest partition holds every window open. *)
Theorem summary_waits_for_every_partition
    (n : nat) (ins : list Source.input) (r : MetricsSink.row) (p : nat) :
  r ∈ snd (metrics_pipeline n ins) ->
  (p < n)%nat ->
  exists t, t ∈ Source.event_times p ins /\ MetricsSink.window_end r - 1 <= t - 5000.
Proof.
  intros Hin Hp. unfold metrics_pipeline in Hin.
  pose proof (emitted_summary_spec _ Window.init wf_init r Hin) as H.
  cbv zeta in H. destruct H as (Hr & _ & _ & Hlo & Hhi).
  destruct (partition_watermark_cases n ins p Hp) as (w & Hw & Hcases).
  pose proof (pipeline_watermark_le_partition n ins p w Hw) as Hle.
  unfold metrics_pipeline, Window.run in Hle.
  assert (Hend : MetricsSink.window_end r - 1 = Window.max_timestamp (Window.summary_key r)).
  { rewrite Hr at 1. unfold Window.emit, Window.max_timestamp, metrics_query. simpl. lia. }
  simpl in Hlo.
  destruct Hcases as [->|(t & Ht & ->)]; [lia|].
  exists t. split; [exact Ht|]. unfold Source.BOUNDED_LATENESS in *. lia.
Qed.

(** * The model trainer and the orchestration *)

(** ** The order of DOUBLE values *)

Section FloatOrderFacts.

Import FloatOrder.

Lemma SFltb_rank (x y : spec_float) :
  SFltb x y = true <->
  exists a b, rank x = Some a /\ rank y = Some b /\ lex_lt a b.
Proof.
  unfold SFltb, lex_lt.
  destruct x as [sx|sx| |sx mx ex]; destruct y as [sy|sy| |sy my ey];
    try destruct sx; try destruct sy; simpl;
    try (split; [discriminate | intros (a & b & Ha & Hb & H); try discriminate;
                 injection Ha as <-; injection Hb as <-; simpl in H; lia]);
    try (split; [intros _; eexists _, _; split; [reflexivity|]; split; [reflexivity|];
                 simpl; lia | reflexivity]).
  - (* both negative *)
    fold (Pos.compare mx my).
    destruct (Z.compare_spec ex ey) as [He|He|He];
      [destruct (Pos.compare_spec mx my) as [Hm|Hm|Hm]| |]; simpl;
      (split; [first [discriminate
                     | intros _; eexists _, _; split; [reflexivity|];
                       split; [reflexivity|]; simpl; lia]
              | intros (a & b & Ha & Hb & H); injection Ha as <-; injection Hb as <-;
                simpl in H; first [reflexivity | lia]]).
  - (* both positive *)
    fold (Pos.compare mx my).
    destruct (Z.compare_spec ex ey) as [He|He|He];
      [destruct (Pos.compare_spec mx my) as [Hm|Hm|Hm]| |]; simpl;
      (split; [first [discriminate
                     | intros _; eexists _, _; split; [reflexivity|];
                       split; [reflexivity|]; simpl; lia]
              | intros (a & b & Ha & Hb & H); injection Ha as <-; injection Hb as <-;
                simpl in H; first [reflexivity | lia]]).
Qed.

Lemma ltb_key (x y : float) :
  (x <? y)%float = true <->
  exists a b, key x = Some a /\ key y = Some b /\ lex_lt a b.
Proof. rewrite ltb_spec. apply SFltb_rank. Qed.

Lemma ltb_false_key (x y : float) (a b : Z * Z * Z) :
  key x = Some a -> key y = Some b ->
  ((x <? y)%float = false <-> ~ lex_lt a b).
Proof.
  intros Ha Hb. destruct (x <? y)%float eqn:E.
  - apply ltb_key in E. destruct E as (a' & b' & Ha' & Hb' & H).
    assert (a' = a) by congruence. assert (b' = b) by congruence. subst.
    split; [discriminate | contradiction].
  - split; [|reflexivity]. intros _ H.
    assert ((x <? y)%float = true) by (apply ltb_key; eauto). congruence.
Qed.

(** Both sides of a comparison that holds are numbers. *)
Lemma ltb_is_number (x y : float) :
  (x <? y)%float = true -> is_number x /\ is_number y.
Proof.
  intros H. apply ltb_key in H. destruct H as (a & b & Ha & Hb & _).
  unfold is_number. split; congruence.
Qed.

Lemma ltb_trans (x y z : float) :
  (x <? y)%float = true -> (y <? z)%float = true -> (x <? z)%float = true.
Proof.
  intros H1 H2. apply ltb_key in H1. apply ltb_key in H2.
  destruct H1 as (a & b & Ha & Hb & H1). destruct H2 as (b' & c & Hb' & Hc & H2).
  assert (b' = b) by congruence. subst. apply ltb_key. exists a, c.
  split; [exact Ha|]. split; [exact Hc|]. unfold lex_lt in *. lia.
Qed.

(** A number [y] that is not above [x] is below everything that [x] is
    below. *)
Lemma not_gt_lt_trans (x y z : float) :
  is_number y -> (x <? y)%float = false -> (x <? z)%float = true ->
  (y <? z)%float = true.
Proof.
  intros Hy H1 H2. apply ltb_key in H2. destruct H2 as (a & c & Ha & Hc & H2).
  unfold is_number in Hy. destruct (key y) as [b|] eqn:Hb; [|contradiction].
  apply (ltb_false_key x y a b Ha Hb) in H1.
  apply ltb_key. exists b, c. split; [exact Hb|]. split; [exact Hc|].
  unfold lex_lt in *. lia.
Qed.

(** What is below [y] is below every number that [y] is not above. *)
Lemma lt_not_lt_trans (x y z : float) :
  is_number x -> (z <? y)%float = true -> (x <? y)%float = false ->
  (z <? x)%float = true.
Proof.
  intros Hx H1 H2. apply ltb_key in H1. destruct H1 as (c & b & Hc & Hb & H1).
  unfold is_number in Hx. destruct (key x) as [a|] eqn:Ha; [|contradiction].
  apply (ltb_false_key x y a b Ha Hb) in H2.
  apply ltb_key. exists c, a. split; [exact Hc|]. split; [exact Ha|].
  unfold lex_lt in *. lia.
Qed.

Lemma ltb_irrefl (x : float) : (x <? x)%float = false.
Proof.
  destruct (x <? x)%float eqn:E; [|reflexivity].
  apply ltb_key in E. destruct E as (a & b & Ha & Hb & H).
  assert (a = b) by congruence. subst. unfold lex_lt in H. lia.
Qed.

(** On numbers, "not above" is transitive. *)
Lemma not_lt_trans (x y z : float) :
  is_number y ->
  (x <? y)%float = false -> (y <? z)%float = false -> is_number x -> is_number z ->
  (x <? z)%float = false.
Proof.
  unfold is_number. intros Hy H1 H2 Hx Hz.
  destruct (key x) as [a|] eqn:Ha; [|contradiction].
  destruct (key y) as [b|] eqn:Hb; [|contradiction].
  destruct (key z) as [c|] eqn:Hc; [|contradiction].
  apply (ltb_false_key x y a b Ha Hb) in H1.
  apply (ltb_false_key y z b c Hb Hc) in H2.
  apply (ltb_false_key x z a c Ha Hc). unfold lex_lt in *. lia.
Qed.

End FloatOrderFacts.

(** ** The parameter combinations *)

Section ParamGridFacts.

Import ParamGrid.

Lemma length_product {A : Type} (values : list (list A)) :
  length (product values) = fold_right (fun vs n => (length vs * n)%nat) 1%nat values.
Proof.
  induction values as [|vs rest IH]; [reflexivity|].
  cbn [product fold_right]. rewrite <- IH. clear IH.
  induction vs as [|v vs IHvs]; [reflexivity|].
  cbn [flat_map]. rewrite length_app, length_map, IHvs. simpl. lia.
Qed.

Lemma grid_size_values (param_grid : grid) :
  grid_size param_grid
  = fold_right (fun vs n => (length vs * n)%nat) 1%nat (map snd param_grid).
Proof.
  unfold grid_size. induction param_grid as [|kv g IH]; simpl; [reflexivity|].
  rewrite IH. reflexivity.
Qed.

Lemma length_generate (param_grid : grid) :
  length (generate_param_combinations param_grid) = grid_size param_grid.
Proof.
  unfold generate_param_combinations.
  rewrite length_map, length_product, grid_size_values. reflexivity.
Qed.

(** A combination takes one value of each list, in order. *)
Lemma elem_of_product {A : Type} (values : list (list A)) (c : list A) :
  c ∈ product values <-> Forall2 (fun v vs => v ∈ vs) c values.
Proof.
  revert c. induction values as [|vs rest IH]; intros c; cbn [product].
  - rewrite list_elem_of_singleton. split; [intros ->; constructor | intros H; inversion H; reflexivity].
  - rewrite list_elem_of_In, in_flat_map. split.
    + intros (v & Hv & Hc). apply list_elem_of_In in Hv.
      apply in_map_iff in Hc. destruct Hc as (c' & <- & Hc').
      apply list_elem_of_In, IH in Hc'. constructor; assumption.
    + intros H. inversion H as [|v vs' c' rest' Hv Hc']; subst.
      exists v. split; [apply list_elem_of_In, Hv|].
      apply in_map_iff. exists c'. split; [reflexivity|].
      apply list_elem_of_In, IH, Hc'.
Qed.

Lemma dict_zip_lookup (keys : list string) (c : list pyval) (k : string) (v : pyval) :
  NoDup keys -> length c = length keys ->
  (dict_zip keys c !! k = Some v <-> (k, v) ∈ zip keys c).
Proof.
  intros Hnd Hlen. unfold dict_zip. symmetry. apply elem_of_list_to_map.
  rewrite fst_zip by lia. exact Hnd.
Qed.

Lemma elem_of_zip_grid (param_grid : grid) (c : list pyval) :
  Forall2 (fun v vs => v ∈ vs) c (map snd param_grid) ->
  forall k v, (k, v) ∈ zip (map fst param_grid) c ->
              exists vs, (k, vs) ∈ param_grid /\ v ∈ vs.
Proof.
  revert c. induction param_grid as [|[k0 vs0] g IH]; intros c Hc k v Hin.
  - simpl in Hin. inversion Hin.
  - simpl in Hc. inversion Hc as [|v0 vs0' c' rest Hv0 Hc']; subst. simpl in Hin.
    apply elem_of_cons in Hin. destruct Hin as [[= -> ->]|Hin].
    + exists vs0. split; [left | exact Hv0].
    + destruct (IH c' Hc' k v Hin) as (vs & Hvs & Hv). exists vs. split; [right|]; assumption.
Qed.

Lemma zip_grid_complete (param_grid : grid) (c : list pyval) :
  Forall2 (fun v vs => v ∈ vs) c (map snd param_grid) ->
  forall k vs, (k, vs) ∈ param_grid -> exists v, (k, v) ∈ zip (map fst param_grid) c.
Proof.
  revert c. induction param_grid as [|[k0 vs0] g IH]; intros c Hc k vs Hin.
  - inversion Hin.
  - simpl in Hc. inversion Hc as [|v0 vs0' c' rest Hv0 Hc']; subst. simpl.
    apply elem_of_cons in Hin. destruct Hin as [[= -> ->]|Hin].
    + exists v0. left.
    + destruct (IH c' Hc' k vs Hin) as (v & Hv). exists v. right. exact Hv.
Qed.

End ParamGridFacts.

(** The combinations of a grid are exactly the ways to give every
    parameter one of its listed values, each once: their number is the
    product of the lengths of the lists (none at all when a list is
    empty), and each is a dict of the keys of the grid. *)
Theorem param_combinations_are_the_choices (param_grid : ParamGrid.grid) :
  NoDup (map fst param_grid) ->
  length (ParamGrid.generate_param_combinations param_grid) = ParamGrid.grid_size param_grid /\
  forall d : gmap string pyval,
    d ∈ ParamGrid.generate_param_combinations param_grid <->
    (forall k, is_Some (d !! k) -> k ∈ map fst param_grid) /\
    (forall k vs, (k, vs) ∈ param_grid -> exists v, d !! k = Some v /\ v ∈ vs).
Proof.
  intros Hnd. split; [apply length_generate|]. intros d.
  unfold ParamGrid.generate_param_combinations. rewrite list_elem_of_fmap. split.
  - intros (c & -> & Hc). apply elem_of_product in Hc.
    assert (Hlen : length c = length (map fst param_grid)).
    { apply Forall2_length in Hc. rewrite !length_map in *. exact Hc. }
    split.
    + intros k [v Hv]. apply dict_zip_lookup in Hv; [|assumption ..].
      apply (list_elem_of_fmap_2 fst) in Hv. rewrite fst_zip in Hv by lia. exact Hv.
    + intros k vs Hin. destruct (zip_grid_complete param_grid c Hc k vs Hin) as (v & Hv).
      exists v. split; [apply dict_zip_lookup; assumption|].
      destruct (elem_of_zip_grid param_grid c Hc k v Hv) as (vs' & Hin' & Hv').
      assert (vs' = vs); [|subst; exact Hv'].
      clear -Hnd Hin Hin'. induction param_grid as [|[k0 vs0] g IH]; [inversion Hin|].
      simpl in Hnd. apply NoDup_cons in Hnd. destruct Hnd as [Hk0 Hnd].
      apply elem_of_cons in Hin. apply elem_of_cons in Hin'.
      destruct Hin as [[= -> ->]|Hin]; destruct Hin' as [[= ->]|Hin'].
      * reflexivity.
      * exfalso. apply Hk0. apply (list_elem_of_fmap_2 fst) in Hin'. exact Hin'.
      * subst. exfalso. apply Hk0. apply (list_elem_of_fmap_2 fst) in Hin. exact Hin.
      * apply IH; assumption.
  - intros [Hdom Hval].
    exists (map (fun k => default PyNone (d !! k)) (map fst param_grid)). split.
    + apply map_eq. intros k. destruct (d !! k) as [v|] eqn:Hk.
      * symmetry. apply dict_zip_lookup; [exact Hnd | rewrite !length_map; reflexivity|].
        assert (Hin : k ∈ map fst param_grid) by (apply Hdom; eauto).
        apply list_elem_of_lookup in Hin. destruct Hin as (i & Hi).
        apply list_elem_of_lookup. exists i. apply lookup_zip_with_Some.
        exists k, v. split; [reflexivity|]. split; [exact Hi|].
        rewrite list_lookup_fmap, Hi. simpl. rewrite Hk. reflexivity.
      * destruct (ParamGrid.dict_zip _ _ !! k) as [v|] eqn:Hz; [|reflexivity].
        apply dict_zip_lookup in Hz; [|exact Hnd | rewrite !length_map; reflexivity].
        assert (Hin : k ∈ map fst param_grid).
        { apply (list_elem_of_fmap_2 fst) in Hz. rewrite fst_zip in Hz; [exact Hz|].
          rewrite !length_map. lia. }
        apply list_elem_of_fmap in Hin. destruct Hin as ([k' vs] & -> & Hin).
        destruct (Hval k' vs Hin) as (v' & Hv' & _). simpl in Hk. congruence.
    + apply elem_of_product. clear Hdom Hnd.
      induction param_grid as [|[k0 vs0] g IH]; simpl; [constructor|].
      constructor.
      * destruct (Hval k0 vs0) as (v & Hv & Hin); [left|]. rewrite Hv. exact Hin.
      * apply IH. intros k vs Hin. apply Hval. right. exact Hin.
Qed.

(** The combinations come with the first parameter varying slowest: as
    long as the limit on the combinations tried is not above the number of
    combinations of the other parameters, every combination tried has the
    first listed value of the first parameter. *)
Theorem first_parameter_fixed_within_limit
    (k0 : string) (v0 : pyval) (vs0 : list pyval) (rest : ParamGrid.grid)
    (limit : nat) (d : gmap string pyval) :
  (limit <= ParamGrid.grid_size rest)%nat ->
  d ∈ take limit (ParamGrid.generate_param_combinations ((k0, v0 :: vs0) :: rest)) ->
  d !! k0 = Some v0.
Proof.
  intros Hlimit Hin. unfold ParamGrid.generate_param_combinations in Hin.
  cbn [map fst snd ParamGrid.product flat_map] in Hin.
  rewrite fmap_app, take_app_le in Hin.
  - apply elem_of_take in Hin. destruct Hin as (i & Hi & _).
    apply list_elem_of_lookup_2 in Hi. apply list_elem_of_fmap in Hi.
    destruct Hi as (c & -> & Hc). apply list_elem_of_fmap in Hc.
    destruct Hc as (c' & -> & _). unfold ParamGrid.dict_zip. simpl.
    apply lookup_insert_eq.
  - rewrite !length_fmap, length_product, <- grid_size_values. exact Hlimit.
Qed.

Lemma first_parameter_fixed_witness :
  let d := ParamGrid.dict_zip ["contamination"; "n_estimators"] [PyFloat 0.05; PyInt 100] in
  (3 <= ParamGrid.grid_size (tl ParamGrid.isolation_forest_grid))%nat /\
  d ∈ take 3 (ParamGrid.generate_param_combinations ParamGrid.isolation_forest_grid) /\
  d !! "contamination" = Some (PyFloat 0.05).
Proof.
  cbv zeta.
  assert (H1 : (3 <= ParamGrid.grid_size (tl ParamGrid.isolation_forest_grid))%nat)
    by (vm_compute; lia).
  assert (H2 : ParamGrid.dict_zip ["contamination"; "n_estimators"] [PyFloat 0.05; PyInt 100]
               ∈ take 3 (ParamGrid.generate_param_combinations
                           ParamGrid.isolation_forest_grid))
    by (apply elem_of_take; exists 1%nat; split; [reflexivity | lia]).
  split; [exact H1|]. split; [exact H2|].
  exact (first_parameter_fixed_within_limit "contamination" (PyFloat 0.05)
           [PyFloat 0.1; PyFloat 0.15] (tl ParamGrid.isolation_forest_grid) 3 _ H1 H2).
Defined.

(** The grid of the one-class SVM has 24 combinations, those of the kernel
    'rbf' first, and ten are tried: no model of the kernel 'linear' is
    ever fitted. *)
Theorem one_class_svm_never_tries_linear (d : gmap string pyval) :
  d ∈ take 10 (ParamGrid.generate_param_combinations ParamGrid.one_class_svm_grid) ->
  d !! "kernel" = Some (PyStr "rbf").
Proof.
  intros Hd. unfold ParamGrid.generate_param_combinations, ParamGrid.one_class_svm_grid in Hd.
  cbn -[ParamGrid.dict_zip] in Hd.
  repeat (apply elem_of_cons in Hd; destruct Hd as [->|Hd]); try reflexivity.
  apply elem_of_nil in Hd. contradiction.
Qed.

Lemma one_class_svm_witness :
  let d := ParamGrid.dict_zip ["kernel"; "gamma"; "nu"]
             [PyStr "rbf"; PyFloat 0.001; PyFloat 0.05] in
  d ∈ take 10 (ParamGrid.generate_param_combinations ParamGrid.one_class_svm_grid) /\
  d !! "kernel" = Some (PyStr "rbf").
Proof.
  cbv zeta.
  assert (H : ParamGrid.dict_zip ["kernel"; "gamma"; "nu"]
                [PyStr "rbf"; PyFloat 0.001; PyFloat 0.05]
              ∈ take 10 (ParamGrid.generate_param_combinations ParamGrid.one_class_svm_grid))
    by (apply elem_of_take; exists 6%nat; split; [reflexivity | lia]).
  split; [exact H|]. exact (one_class_svm_never_tries_linear _ H).
Defined.

(** ** The search for the best model *)

Section SearchFacts.

Import FloatOrder Search.

Variable fit_score : gmap string pyval -> option float.

Lemma search_None (cs : list (gmap string pyval)) (bs : float)
    (bp : option (gmap string pyval)) :
  search fit_score cs bs bp = None <-> exists c, c ∈ cs /\ fit_score c = None.
Proof.
  revert bs bp. induction cs as [|c cs IH]; intros bs bp; simpl.
  - split; [discriminate | intros (c & Hc & _); inversion Hc].
  - destruct (fit_score c) as [s|] eqn:Hs.
    + destruct (bs <? s)%float; rewrite IH; split.
      * intros (c' & Hc' & Hn). exists c'. split; [right|]; assumption.
      * intros (c' & Hc' & Hn). apply elem_of_cons in Hc'.
        destruct Hc' as [->|Hc']; [congruence | eauto].
      * intros (c' & Hc' & Hn). exists c'. split; [right|]; assumption.
      * intros (c' & Hc' & Hn). apply elem_of_cons in Hc'.
        destruct Hc' as [->|Hc']; [congruence | eauto].
    + split; [intros _; exists c; split; [left | exact Hs] | reflexivity].
Qed.

(** The loop keeps the first combination of the highest score. *)
Lemma search_Some (cs : list (gmap string pyval)) (bs : float)
    (bp : option (gmap string pyval)) (rs : float) (rp : option (gmap string pyval)) :
  search fit_score cs bs bp = Some (rs, rp) ->
  (rs = bs /\ rp = bp /\
   forall c s, c ∈ cs -> fit_score c = Some s -> (bs <? s)%float = false) \/
  (exists before c after,
     cs = before ++ c :: after /\ rp = Some c /\ fit_score c = Some rs /\
     (bs <? rs)%float = true /\
     (forall c' s, c' ∈ before -> fit_score c' = Some s ->
                   is_number s -> (s <? rs)%float = true) /\
     (forall c' s, c' ∈ after -> fit_score c' = Some s -> (rs <? s)%float = false)).
Proof.
  revert bs bp. induction cs as [|c cs IH]; intros bs bp; simpl.
  - intros [= <- <-]. left. split; [reflexivity|]. split; [reflexivity|].
    intros c s Hc. inversion Hc.
  - destruct (fit_score c) as [s|] eqn:Hs; [|discriminate].
    destruct (bs <? s)%float eqn:Hlt; intros Hsearch.
    + right. destruct (IH _ _ Hsearch) as [(-> & -> & Hall)|
        (before & c1 & after & -> & -> & Hc1 & Hlt1 & Hbefore & Hafter)].
      * exists [], c, cs. repeat split; try assumption.
        intros c' s' Hc'. inversion Hc'.
      * exists (c :: before), c1, after. repeat split; try assumption.
        -- eapply ltb_trans; eassumption.
        -- intros c' s' Hc' Hs' Hnum. apply elem_of_cons in Hc'.
           destruct Hc' as [->|Hc']; [|eapply Hbefore; eassumption].
           assert (s' = s) by congruence. subst. exact Hlt1.
    + destruct (IH _ _ Hsearch) as [(-> & -> & Hall)|
        (before & c1 & after & -> & -> & Hc1 & Hlt1 & Hbefore & Hafter)].
      * left. split; [reflexivity|]. split; [reflexivity|].
        intros c' s' Hc' Hs'. apply elem_of_cons in Hc'.
        destruct Hc' as [->|Hc']; [|eapply Hall; eassumption].
        assert (s' = s) by congruence. subst. exact Hlt.
      * right. exists (c :: before), c1, after. repeat split; try assumption.
        intros c' s' Hc' Hs' Hnum. apply elem_of_cons in Hc'.
        destruct Hc' as [->|Hc']; [|eapply Hbefore; eassumption].
        assert (s' = s) by congruence. subst.
        eapply not_gt_lt_trans; eassumption.
Qed.

End SearchFacts.

(** Whenever the loop of the search for an unsupervised model ends with a
    model kept, and so whenever its parameters are logged, the parameters
    are those of the first of the (at most ten) combinations tried whose
    score is the highest: the combinations tried before it score strictly
    lower (or NaN), those tried after it do not score higher, and the
    score is above minus infinity. *)
Theorem train_unsupervised_keeps_first_best
    (fit_score : gmap string pyval -> option float) (param_grid : ParamGrid.grid)
    (params : gmap string pyval) (score : float) :
  Search.kept_model fit_score param_grid = Some (params, score) ->
  exists before after,
    take 10 (ParamGrid.generate_param_combinations param_grid) = before ++ params :: after /\
    fit_score params = Some score /\
    (neg_infinity <? score)%float = true /\
    (forall c s, c ∈ before -> fit_score c = Some s ->
                 FloatOrder.is_number s -> (s <? score)%float = true) /\
    (forall c s, c ∈ after -> fit_score c = Some s -> (score <? s)%float = false).
Proof.
  unfold Search.kept_model. intros H.
  destruct (Search.search fit_score _ neg_infinity None) as [[rs [rp|]]|] eqn:Hsearch;
    try discriminate.
  injection H as -> ->.
  destruct (search_Some fit_score _ _ _ _ _ Hsearch) as [(_ & [=] & _)|
    (before & c & after & Hcs & [= <-] & Hc & Hlt & Hbefore & Hafter)].
  exists before, after. repeat split; assumption.
Qed.

(** The training of an unsupervised model leaves no entry in the results
    exactly when the library raises on one of the combinations tried, or
    no combination tried has a score above minus infinity, or one of the
    calls between the loop and the entry raises on the model kept.  An
    entry holds the model kept by the loop, and a grid without
    combinations leaves no entry. *)
Theorem train_unsupervised_failure
    (fit_score : gmap string pyval -> option float)
    (log_model : gmap string pyval -> float -> option string)
    (param_grid : ParamGrid.grid) :
  let tried := take 10 (ParamGrid.generate_param_combinations param_grid) in
  (Search.train_unsupervised fit_score log_model param_grid = None <->
   (exists c, c ∈ tried /\ fit_score c = None) \/
   (forall c s, c ∈ tried -> fit_score c = Some s -> (neg_infinity <? s)%float = false) \/
   (exists params score,
      Search.kept_model fit_score param_grid = Some (params, score) /\
      log_model params score = None)) /\
  (forall params score model_uri,
     Search.train_unsupervised fit_score log_model param_grid
     = Some (params, score, model_uri) <->
     Search.kept_model fit_score param_grid = Some (params, score) /\
     log_model params score = Some model_uri) /\
  (ParamGrid.generate_param_combinations param_grid = [] ->
   Search.train_unsupervised fit_score log_model param_grid = None).
Proof.
  cbv zeta.
  assert (Hkept : Search.kept_model fit_score param_grid = None <->
            (exists c, c ∈ take 10 (ParamGrid.generate_param_combinations param_grid)
                       /\ fit_score c = None) \/
            (forall c s, c ∈ take 10 (ParamGrid.generate_param_combinations param_grid) ->
                         fit_score c = Some s -> (neg_infinity <? s)%float = false)).
  { unfold Search.kept_model.
    destruct (Search.search fit_score _ neg_infinity None) as [[rs rp]|] eqn:Hsearch.
    - assert (Hnone : ~ exists c,
                 c ∈ take 10 (ParamGrid.generate_param_combinations param_grid)
                 /\ fit_score c = None).
      { intros H. apply search_None with (bs := neg_infinity) (bp := None) in H.
        congruence. }
      destruct (search_Some fit_score _ _ _ _ _ Hsearch) as [(-> & -> & Hall)|
        (before & c & after & Hcs & -> & Hc & Hlt & Hbefore & Hafter)].
      + split; [intros _; right; exact Hall | reflexivity].
      + split; [discriminate|]. intros [H|H]; [contradiction|].
        assert (Hin : c ∈ take 10 (ParamGrid.generate_param_combinations param_grid)).
        { rewrite Hcs. apply elem_of_app. right. left. }
        specialize (H c rs Hin Hc). congruence.
    - split; [|reflexivity]. intros _. left.
      apply search_None in Hsearch. exact Hsearch. }
  unfold Search.train_unsupervised. split; [|split].
  - destruct (Search.kept_model fit_score param_grid) as [[params score]|] eqn:Hk.
    + destruct (log_model params score) as [uri|] eqn:Hlog.
      * split; [discriminate|]. intros [H|[H|(params' & score' & [= <- <-] & Hnone)]].
        -- assert (Hsome : Some (params, score) = None)
             by (apply Hkept; left; exact H).
           discriminate.
        -- assert (Hsome : Some (params, score) = None)
             by (apply Hkept; right; exact H).
           discriminate.
        -- congruence.
      * split; [|reflexivity]. intros _. right. right. exists params, score. auto.
    + split; [|reflexivity]. intros _.
      destruct (proj1 Hkept eq_refl) as [H|H]; [left; exact H | right; left; exact H].
  - intros params score model_uri.
    destruct (Search.kept_model fit_score param_grid) as [[params' score']|].
    + destruct (log_model params' score') as [uri|] eqn:Hlog.
      * split; [intros [= <- <- <-]; auto | intros ([= <- <-] & H); congruence].
      * split; [discriminate | intros ([= <- <-] & H); congruence].
    + split; [discriminate | intros ([=] & _)].
  - intros Hnil.
    assert (Hk : Search.kept_model fit_score param_grid = None).
    { apply Hkept. right. rewrite Hnil. intros c s Hc. inversion Hc. }
    rewrite Hk. reflexivity.
Qed.

Lemma train_unsupervised_sample_witness :
  let params := ParamGrid.dict_zip ["contamination"; "n_estimators"] [PyFloat 0.15; PyInt 50] in
  Search.kept_model TrainerSample.score_by_contamination
    ParamGrid.isolation_forest_grid = Some (params, 0.15%float) /\
  exists before after,
    take 10 (ParamGrid.generate_param_combinations ParamGrid.isolation_forest_grid)
    = before ++ params :: after /\
    TrainerSample.score_by_contamination params = Some 0.15%float.
Proof.
  cbv zeta.
  assert (H : Search.kept_model TrainerSample.score_by_contamination
                ParamGrid.isolation_forest_grid
              = Some (ParamGrid.dict_zip ["contamination"; "n_estimators"]
                        [PyFloat 0.15; PyInt 50], 0.15%float))
    by reflexivity.
  split; [exact H|].
  destruct (train_unsupervised_keeps_first_best _ _ _ _ H)
    as (before & after & Heq & Hscore & _).
  exists before, after. split; [exact Heq | exact Hscore].
Defined.

(** ** The further properties at the scenario *)

Lemma summary_counts_scenario_witness :
  let s := snd (Source.run 1 window_scenario) in
  let r := window_scenario_summary in
  r ∈ snd (Window.run s) /\
  Z.of_nat (length (Window.assigned Source.MIN_WATERMARK s (Window.summary_key r))) < 2 ^ 31 /\
  exists a l,
    MetricsSink.anomaly_count r = Some a /\ MetricsSink.low_battery_count r = Some l /\
    0 <= a <= MetricsSink.sensor_count r /\ 0 <= l <= MetricsSink.sensor_count r.
Proof.
  cbv zeta.
  assert (Hin : window_scenario_summary ∈ snd (Window.run (snd (Source.run 1 window_scenario))))
    by (rewrite window_scenario_run; left).
  assert (Hlen : Z.of_nat (length (Window.assigned Source.MIN_WATERMARK
                                     (snd (Source.run 1 window_scenario))
                                     (Window.summary_key window_scenario_summary))) < 2 ^ 31)
    by (vm_compute; reflexivity).
  split; [exact Hin|]. split; [exact Hlen|].
  exact (summary_counts_within_sensor_count (snd (Source.run 1 window_scenario))
           window_scenario_summary Hin Hlen).
Defined.

Lemma summary_average_scenario_witness :
  let s := snd (Source.run 1 window_scenario) in
  let r := window_scenario_summary in
  r ∈ snd (Window.run s) /\
  Z.of_nat (length (Window.assigned Source.MIN_WATERMARK s (Window.summary_key r))) < 2 ^ 63 /\
  (MetricsSink.avg_temperature r = None <->
   Forall (fun e => SensorSource.temperature e = None)
     (Window.assigned Source.MIN_WATERMARK s (Window.summary_key r))).
Proof.
  cbv zeta.
  assert (Hin : window_scenario_summary ∈ snd (Window.run (snd (Source.run 1 window_scenario))))
    by (rewrite window_scenario_run; left).
  assert (Hlen : Z.of_nat (length (Window.assigned Source.MIN_WATERMARK
                                     (snd (Source.run 1 window_scenario))
                                     (Window.summary_key window_scenario_summary))) < 2 ^ 63)
    by (vm_compute; reflexivity).
  split; [exact Hin|]. split; [exact Hlen|].
  exact (proj1 (summary_average_null_iff_all_missing (snd (Source.run 1 window_scenario))
                  window_scenario_summary Hin Hlen)).
Defined.

Lemma row_within_lateness_scenario_witness :
  let pre := [Source.Poll 0 (Sample.reading 1705314601000 21 48 1012 false "Building_001" 80);
              Source.Tick] in
  (0 < 1)%nat /\
  (forall t, t ∈ Source.event_times 0 pre ->
             t - 5000 < SensorSource.event_time lone_reading) /\
  Source.MIN_WATERMARK < SensorSource.event_time lone_reading /\
  Window.rows_of (fst (metrics_pipeline 1 (pre ++ [Source.Poll 0 lone_reading])))
    (Window.key_of lone_reading)
  = Window.rows_of (fst (metrics_pipeline 1 pre)) (Window.key_of lone_reading)
    ++ [lone_reading].
Proof.
  cbv zeta.
  assert (H1 : (0 < 1)%nat) by lia.
  assert (H2 : forall t,
             t ∈ Source.event_times 0
                   [Source.Poll 0
                      (Sample.reading 1705314601000 21 48 1012 false "Building_001" 80);
                    Source.Tick] ->
             t - 5000 < SensorSource.event_time lone_reading).
  { intros t Ht. apply list_elem_of_singleton in Ht. subst t. vm_compute. reflexivity. }
  assert (H3 : Source.MIN_WATERMARK < SensorSource.event_time lone_reading)
    by (vm_compute; reflexivity).
  split; [exact H1|]. split; [exact H2|]. split; [exact H3|].
  exact (row_within_lateness_is_aggregated 1 _ 0 lone_reading H1 H2 H3).
Defined.

Lemma summary_waits_scenario_witness :
  window_scenario_summary ∈ snd (metrics_pipeline 1 window_scenario) /\
  (0 < 1)%nat /\
  exists t, t ∈ Source.event_times 0 window_scenario /\
            MetricsSink.window_end window_scenario_summary - 1 <= t - 5000.
Proof.
  assert (H1 : window_scenario_summary ∈ snd (metrics_pipeline 1 window_scenario)).
  { unfold metrics_pipeline. rewrite window_scenario_run. left. }
  assert (H2 : (0 < 1)%nat) by lia.
  split; [exact H1|]. split; [exact H2|].
  exact (summary_waits_for_every_partition 1 window_scenario window_scenario_summary 0 H1 H2).
Defined.

Lemma param_combinations_isolation_forest_witness :
  NoDup (map fst ParamGrid.isolation_forest_grid) /\
  length (ParamGrid.generate_param_combinations ParamGrid.isolation_forest_grid) = 9%nat.
Proof.
  assert (H : NoDup (map fst ParamGrid.isolation_forest_grid)).
  { apply (bool_decide_unpack _). vm_compute. exact I. }
  split; [exact H|].
  exact (proj1 (param_combinations_are_the_choices ParamGrid.isolation_forest_grid H)).
Defined.

(** * The tasks of the DAG *)

(** The health check returns only when every probe succeeded, and then
    with a dict of four times True: a dict with a False is never returned,
    the task raises instead, naming exactly the services whose probe did
    not succeed. *)
Theorem validate_infrastructure_all_or_nothing (probe : string -> option Z) :
  match Dag.validate_infrastructure probe with
  | inr results =>
      results = [("kafka", true); ("flink", true); ("mlflow", true); ("minio", true)] /\
      probe "kafka" = Some 0 /\ probe "flink" = Some 200 /\
      probe "mlflow" = Some 200 /\ probe "minio" = Some 200
  | inl failed_services =>
      failed_services <> [] /\
      forall service, service ∈ Dag.services ->
        (fst service ∈ failed_services <-> Dag.healthy probe service = false)
  end.
Proof.
  unfold Dag.validate_infrastructure, Dag.health_checks, Dag.services.
  cbn [map fst snd forallb].
  destruct (Dag.healthy probe ("kafka", Dag.Tcp)) eqn:E1;
    destruct (Dag.healthy probe ("flink", Dag.Http)) eqn:E2;
    destruct (Dag.healthy probe ("mlflow", Dag.Http)) eqn:E3;
    destruct (Dag.healthy probe ("minio", Dag.Http)) eqn:E4;
    cbn [andb negb filter list_filter map fst snd].
  1: { unfold Dag.healthy in *. cbn [fst snd] in *.
       destruct (probe "kafka") as [c1|]; [|discriminate].
       destruct (probe "flink") as [c2|]; [|discriminate].
       destruct (probe "mlflow") as [c3|]; [|discriminate].
       destruct (probe "minio") as [c4|]; [|discriminate].
       apply Z.eqb_eq in E1, E2, E3, E4. subst. repeat split; reflexivity. }
  all: simpl; split; [discriminate|]; intros service Hs;
    repeat (apply elem_of_cons in Hs; destruct Hs as [->|Hs]);
    try (apply elem_of_nil in Hs; contradiction);
    cbn [fst]; rewrite ?E1, ?E2, ?E3, ?E4;
    rewrite ?elem_of_cons, ?elem_of_nil;
    split; intros H; try reflexivity; try discriminate;
    try (intuition discriminate); intuition.
Qed.

(** Whatever Flink and MinIO answer, and also when they do not answer,
    the monitoring reports the topics as created, the generation as active
    and the processing as active.  It reports data in MinIO exactly when
    MinIO answers with status 200 and nothing raised before, and a number
    of running jobs only from an answer of Flink of status 200. *)
Theorem monitoring_never_reports_inactive
    (flink_response : option (Z * option (list string))) (minio_response : option Z) :
  let results := Dag.monitor_data_flow flink_response minio_response in
  Dag.kafka_topics_created results = true /\
  Dag.data_generation_active results = true /\
  Dag.flink_processing_active results = true /\
  (Dag.data_in_minio results = true <->
   minio_response = Some 200 /\
   exists status_code jobs,
     flink_response = Some (status_code, jobs) /\ (status_code = 200 -> jobs <> None)) /\
  (forall n, Dag.flink_jobs_running results = Some n ->
     exists statuses,
       flink_response = Some (200, Some statuses) /\
       n = length (filter (fun status => String.eqb status "RUNNING") statuses) /\
       (n <= length statuses)%nat).
Proof.
  cbv zeta. unfold Dag.monitor_data_flow.
  destruct flink_response as [[status_code [statuses|]]|];
    [destruct (status_code =? 200) eqn:E | destruct (status_code =? 200) eqn:E |];
    try (apply Z.eqb_eq in E; subst status_code);
    try (apply Z.eqb_neq in E);
    destruct minio_response as [minio_status|];
    try (destruct (minio_status =? 200) eqn:E'; [apply Z.eqb_eq in E'; subst|apply Z.eqb_neq in E']);
    cbn; repeat split; try discriminate; try congruence; eauto.
  all: try (intros (_ & s & j & [=] & H); subst; try congruence; try (exfalso; apply H; reflexivity)).
  all: try (intros ([=] & _); congruence).
  all: try (intros n [= <-]; eexists; repeat split; apply length_filter).
  all: try (intros _; eexists _, _; split; [reflexivity | congruence]).
  - intros (_ & s & j & Heq & H). injection Heq as <- <-. exfalso. apply H; reflexivity.
  - eexists _, _. split; [reflexivity|]. intros ->. contradiction.
Qed.

(** ** The validation and the promotion of the models *)

Section ModelValidation.

Import FloatOrder.

Lemma ltb_asym (x y : float) : (x <? y)%float = true -> (y <? x)%float = false.
Proof.
  intros H. destruct (y <? x)%float eqn:E; [|reflexivity].
  pose proof (ltb_trans _ _ _ H E) as Hxx. rewrite ltb_irrefl in Hxx. discriminate.
Qed.

Lemma zero_is_number : is_number 0%float.
Proof. unfold is_number, key. vm_compute. discriminate. Qed.

Lemma zero_below_threshold : (Dag.MIN_F1 <? 0)%float = false.
Proof. vm_compute. reflexivity. Qed.

(** The loop over the runs keeps a run of the highest f1. *)
Lemma best_run_of_max (runs : list Dag.Mlflow.run) (best_f1 : float)
    (best_run : option Dag.Mlflow.run) (f : float) (r : option Dag.Mlflow.run) :
  Dag.best_run_of runs best_f1 best_run = (f, r) ->
  is_number best_f1 ->
  is_number f /\
  ((best_f1 <? f)%float = true \/ f = best_f1) /\
  (forall run, run ∈ runs -> (f <? default 0%float (Dag.Mlflow.f1 run))%float = false) /\
  ((r = best_run /\ f = best_f1) \/
   (exists run, run ∈ runs /\ r = Some run /\ default 0%float (Dag.Mlflow.f1 run) = f /\
                (best_f1 <? f)%float = true)).
Proof.
  revert best_f1 best_run. induction runs as [|run runs IH]; intros best_f1 best_run; simpl.
  - intros [= <- <-] Hnum. split; [exact Hnum|]. split; [right; reflexivity|].
    split; [intros run Hrun; inversion Hrun|]. left. split; reflexivity.
  - destruct (best_f1 <? default 0%float (Dag.Mlflow.f1 run))%float eqn:Hlt; intros Hbest Hnum.
    + destruct (IH _ _ Hbest (proj2 (ltb_is_number _ _ Hlt))) as (Hf & Hge & Hmax & Hrun).
      assert (Hlt' : (best_f1 <? f)%float = true).
      { destruct Hge as [Hge| ->]; [eapply ltb_trans; eassumption | exact Hlt]. }
      split; [exact Hf|]. split; [left; exact Hlt'|]. split.
      * intros run' Hrun'. apply elem_of_cons in Hrun'. destruct Hrun' as [->|Hrun'].
        -- destruct Hge as [Hge| ->]; [apply ltb_asym; exact Hge | apply ltb_irrefl].
        -- apply Hmax; exact Hrun'.
      * right. destruct Hrun as [(-> & ->)|(run' & Hin & -> & Hdef & _)].
        -- exists run. split; [left|]. split; [reflexivity|]. split; [reflexivity | exact Hlt].
        -- exists run'. split; [right; exact Hin|]. split; [reflexivity|].
           split; [exact Hdef | exact Hlt'].
    + destruct (IH _ _ Hbest Hnum) as (Hf & Hge & Hmax & Hrun).
      split; [exact Hf|]. split; [exact Hge|]. split.
      * intros run' Hrun'. apply elem_of_cons in Hrun'. destruct Hrun' as [->|Hrun'].
        -- destruct Hge as [Hge| ->]; [|exact Hlt].
           destruct (f <? default 0%float (Dag.Mlflow.f1 run))%float eqn:E; [|reflexivity].
           rewrite (ltb_trans _ _ _ Hge E) in Hlt. discriminate.
        -- apply Hmax; exact Hrun'.
      * destruct Hrun as [Hrun|(run' & Hin & -> & Hdef & Hlt')]; [left; exact Hrun|].
        right. exists run'. split; [right; exact Hin|]. repeat split; assumption.
Qed.

(** The best f1 of the runs is above the threshold exactly when the f1 of
    one of the runs is, and it is then the f1 of the run that is kept. *)
Lemma best_run_of_threshold (runs : list Dag.Mlflow.run) (f : float)
    (r : option Dag.Mlflow.run) :
  Dag.best_run_of runs 0%float None = (f, r) ->
  ((Dag.MIN_F1 <? f)%float = true <->
   exists run f', run ∈ runs /\ Dag.Mlflow.f1 run = Some f' /\ (Dag.MIN_F1 <? f')%float = true) /\
  ((Dag.MIN_F1 <? f)%float = true ->
   exists run, r = Some run /\ run ∈ runs /\ Dag.Mlflow.f1 run = Some f) /\
  (forall run f', run ∈ runs -> Dag.Mlflow.f1 run = Some f' -> (f <? f')%float = false).
Proof.
  intros Hbest. destruct (best_run_of_max _ _ _ _ _ Hbest zero_is_number)
    as (Hf & _ & Hmax & Hrun).
  assert (Hkept : (Dag.MIN_F1 <? f)%float = true ->
                  exists run, r = Some run /\ run ∈ runs /\ Dag.Mlflow.f1 run = Some f).
  { intros Hlt. destruct Hrun as [(_ & ->)|(run & Hin & -> & Hdef & _)].
    - rewrite zero_below_threshold in Hlt. discriminate.
    - exists run. split; [reflexivity|]. split; [exact Hin|].
      destruct (Dag.Mlflow.f1 run) as [f'|]; simpl in Hdef; [congruence|].
      subst f. rewrite zero_below_threshold in Hlt. discriminate. }
  split; [split|split].
  - intros Hlt. destruct (Hkept Hlt) as (run & _ & Hin & Hrun').
    exists run, f. auto.
  - intros (run & f' & Hin & Hrun' & Hlt). specialize (Hmax run Hin).
    rewrite Hrun' in Hmax. simpl in Hmax.
    eapply lt_not_lt_trans; eassumption.
  - exact Hkept.
  - intros run f' Hin Hrun'. specialize (Hmax run Hin). rewrite Hrun' in Hmax. exact Hmax.
Qed.

Variable search_runs : string -> option Dag.Mlflow.runs_response.

Lemma validation_invariant_skip (seen : list Dag.Mlflow.experiment)
    (results : Dag.validation_results) (e : Dag.Mlflow.experiment) (n : nat) :
  ~ promotable search_runs e ->
  validation_invariant search_runs seen results ->
  validation_invariant search_runs (seen ++ [e])
    (Dag.mk_validation (Dag.experiments_found results) n (Dag.models_promoted results)
       (Dag.best_f1_score results) (Dag.best_run_id results)).
Proof.
  intros Hnot (H01 & Hiff & H0 & H1). unfold validation_invariant. simpl.
  split; [exact H01|]. split; [|split; [exact H0|]].
  - rewrite Hiff. split.
    + intros (e' & Hin & Hp). exists e'. split; [apply elem_of_app; left; exact Hin | exact Hp].
    + intros (e' & Hin & Hp). apply elem_of_app in Hin. destruct Hin as [Hin|Hin].
      * exists e'. split; assumption.
      * apply list_elem_of_singleton in Hin. subst. contradiction.
  - intros Hp. destruct (H1 Hp) as (e' & runs & run & f & rid & Hin & Hrest).
    exists e', runs, run, f, rid. split; [apply elem_of_app; left; exact Hin | exact Hrest].
Qed.

Lemma validation_results_eta (results : Dag.validation_results) :
  results = Dag.mk_validation (Dag.experiments_found results) (Dag.models_validated results)
              (Dag.models_promoted results) (Dag.best_f1_score results)
              (Dag.best_run_id results).
Proof. destruct results; reflexivity. Qed.

Lemma validate_experiment_invariant (seen : list Dag.Mlflow.experiment)
    (results results' : Dag.validation_results) (e : Dag.Mlflow.experiment) :
  validation_invariant search_runs seen results ->
  Dag.validate_experiment search_runs results e = Some results' ->
  validation_invariant search_runs (seen ++ [e]) results' /\
  Dag.experiments_found results' = Dag.experiments_found results.
Proof.
  intros Hinv. unfold Dag.validate_experiment.
  assert (Hskip : forall n, ~ promotable search_runs e ->
            validation_invariant search_runs (seen ++ [e])
              (Dag.mk_validation (Dag.experiments_found results) n
                 (Dag.models_promoted results) (Dag.best_f1_score results)
                 (Dag.best_run_id results)))
    by (intros n Hnot; apply validation_invariant_skip; assumption).
  assert (Hsame : ~ promotable search_runs e -> validation_invariant search_runs (seen ++ [e]) results).
  { intros Hnot. rewrite (validation_results_eta results). apply Hskip, Hnot. }
  assert (Hruns : forall runs, validated_runs search_runs e = Some runs ->
            (forall run f, run ∈ runs -> Dag.Mlflow.f1 run = Some f ->
                           (Dag.MIN_F1 <? f)%float = true -> False) ->
            ~ promotable search_runs e).
  { intros runs Hv Hnone (runs' & run & f & Hv' & Hin & Hf & Hlt).
    assert (runs' = runs) by congruence. subst. eapply Hnone; eassumption. }
  assert (Hnone : validated_runs search_runs e = None -> ~ promotable search_runs e).
  { intros Hv (runs' & run & f & Hv' & _). congruence. }
  unfold validated_runs in Hruns, Hnone.
  destruct (Dag.contains Dag.EXPERIMENT_NAME (default EmptyString (Dag.Mlflow.name e)))
    eqn:Hname; [|intros [= <-]; split; [apply Hsame, Hnone|]; reflexivity].
  destruct (Dag.Mlflow.experiment_id e) as [id|] eqn:Hid; simpl in *; [|discriminate].
  destruct (search_runs id) as [resp|] eqn:Hresp; simpl in *; [|discriminate].
  destruct (Dag.Mlflow.status_code resp =? 200) eqn:Hstatus;
    [|intros [= <-]; split; [apply Hsame, Hnone|]; reflexivity].
  destruct (Dag.Mlflow.runs resp) as [runs|] eqn:Hrs; simpl in *; [|discriminate].
  specialize (Hruns runs eq_refl). clear Hnone.
  destruct (Dag.best_run_of runs 0%float None) as [best_f1 best_run] eqn:Hbest.
  destruct (best_run_of_threshold _ _ _ Hbest) as (Hthreshold & Hkept & Hmax).
  assert (Hlow : (Dag.MIN_F1 <? best_f1)%float = false -> ~ promotable search_runs e).
  { intros Hlow. apply Hruns. intros run f Hin Hf Hlt.
    assert (Hhigh : (Dag.MIN_F1 <? best_f1)%float = true)
      by (apply Hthreshold; exists run, f; auto).
    congruence. }
  destruct best_run as [best_run|].
  - destruct (Dag.MIN_F1 <? best_f1)%float eqn:Hlt.
    + destruct (Hkept eq_refl) as (run & [= <-] & Hin & Hf).
      destruct (Dag.Mlflow.run_id best_run) as [rid|] eqn:Hrid; simpl; [|discriminate].
      intros [= <-]. split; [|reflexivity].
      assert (Hv : validated_runs search_runs e = Some runs).
      { unfold validated_runs. rewrite Hname, Hid. simpl. rewrite Hresp. simpl.
        rewrite Hstatus. exact Hrs. }
      unfold validation_invariant. simpl.
      split; [right; reflexivity|]. split; [|split; [discriminate|]].
      * split; [|reflexivity]. intros _. exists e.
        split; [apply elem_of_app; right; left|].
        exists runs, best_run, best_f1. auto.
      * intros _. exists e, runs, best_run, best_f1, rid.
        split; [apply elem_of_app; right; left|]. repeat split; auto.
    + intros [= <-]. split; [apply Hskip, Hlow|]; reflexivity.
  - intros [= <-]. split; [|reflexivity]. apply Hskip, Hlow.
    destruct (Dag.MIN_F1 <? best_f1)%float eqn:Hlt; [|reflexivity].
    destruct (Hkept eq_refl) as (run & [=] & _).
Qed.

Lemma validate_experiments_invariant (experiments seen : list Dag.Mlflow.experiment)
    (results results' : Dag.validation_results) :
  validation_invariant search_runs seen results ->
  Dag.validate_experiments search_runs results experiments = Some results' ->
  validation_invariant search_runs (seen ++ experiments) results' /\
  Dag.experiments_found results' = Dag.experiments_found results.
Proof.
  revert seen results. induction experiments as [|e experiments IH]; intros seen results Hinv; simpl.
  - intros [= <-]. rewrite app_nil_r. split; [exact Hinv | reflexivity].
  - destruct (Dag.validate_experiment search_runs results e) as [results1|] eqn:Hstep;
      simpl; [|discriminate].
    intros Hrest. destruct (validate_experiment_invariant _ _ _ _ Hinv Hstep) as (Hinv1 & Hfound1).
    destruct (IH _ _ Hinv1 Hrest) as (Hinv' & Hfound').
    rewrite <- app_assoc in Hinv'. split; [exact Hinv' | congruence].
Qed.

(** The number of models validated is that of the last experiment that
    was looked at, not a total. *)
Lemma validate_experiments_validated (after : list Dag.Mlflow.experiment)
    (results results' : Dag.validation_results) :
  Dag.validate_experiments search_runs results after = Some results' ->
  Forall (fun e => validated_runs search_runs e = None) after ->
  Dag.models_validated results' = Dag.models_validated results.
Proof.
  revert results. induction after as [|e after IH]; intros results; simpl.
  - intros [= <-] _. reflexivity.
  - intros Hrun Hall. apply Forall_cons in Hall. destruct Hall as (He & Hall).
    destruct (Dag.validate_experiment search_runs results e) as [results1|] eqn:Hstep;
      simpl in Hrun; [|discriminate].
    rewrite (IH _ Hrun Hall). revert Hstep He. unfold Dag.validate_experiment, validated_runs.
    destruct (Dag.contains _ _); [|intros [= <-]; reflexivity].
    destruct (Dag.Mlflow.experiment_id e) as [id|]; simpl; [|discriminate].
    destruct (search_runs id) as [resp|]; simpl; [|discriminate].
    destruct (Dag.Mlflow.status_code resp =? 200); [|intros [= <-]; reflexivity].
    destruct (Dag.Mlflow.runs resp); simpl; discriminate.
Qed.

Lemma validate_experiment_validated (results results' : Dag.validation_results)
    (e : Dag.Mlflow.experiment) (runs : list Dag.Mlflow.run) :
  Dag.validate_experiment search_runs results e = Some results' ->
  validated_runs search_runs e = Some runs ->
  Dag.models_validated results' = length runs.
Proof.
  unfold Dag.validate_experiment, validated_runs.
  destruct (Dag.contains _ _); [|discriminate].
  destruct (Dag.Mlflow.experiment_id e) as [id|]; simpl; [|discriminate].
  destruct (search_runs id) as [resp|]; simpl; [|discriminate].
  destruct (Dag.Mlflow.status_code resp =? 200); [|discriminate].
  destruct (Dag.Mlflow.runs resp) as [runs'|]; simpl; [|discriminate].
  intros Hstep [= ->].
  destruct (Dag.best_run_of runs 0%float None) as [best_f1 [best_run|]];
    [destruct (Dag.MIN_F1 <? best_f1)%float;
     [destruct (Dag.Mlflow.run_id best_run); simpl in Hstep; [|discriminate]|]|];
    injection Hstep as <-; reflexivity.
Qed.

Lemma validate_experiments_app (before after : list Dag.Mlflow.experiment)
    (results : Dag.validation_results) :
  Dag.validate_experiments search_runs results (before ++ after)
  = Dag.validate_experiments search_runs results before
      ≫= fun results1 => Dag.validate_experiments search_runs results1 after.
Proof.
  revert results. induction before as [|e before IH]; intros results; simpl; [reflexivity|].
  destruct (Dag.validate_experiment search_runs results e); simpl; [apply IH | reflexivity].
Qed.

End ModelValidation.

(** When the validation returns its results, a model is promoted exactly
    when an experiment whose name contains sensor-anomaly-detection, and
    whose runs were found with status 200, has a run of an f1 above 0.7;
    models_promoted is 0 or 1 however many there are.  The f1 and the id
    that are reported are those of one run, of the highest f1 of its
    experiment, and they are absent when nothing is promoted. *)
Theorem promotion_requires_f1_above_threshold
    (search_runs : string -> option Dag.Mlflow.runs_response)
    (experiments : list Dag.Mlflow.experiment) (results : Dag.validation_results) :
  Dag.validate_and_promote_models search_runs (Some experiments) = Some results ->
  Dag.experiments_found results = length experiments /\
  (Dag.models_promoted results = 0 \/ Dag.models_promoted results = 1) /\
  (Dag.models_promoted results = 1 <->
   exists e, e ∈ experiments /\ promotable search_runs e) /\
  (Dag.models_promoted results = 0 ->
   Dag.best_f1_score results = None /\ Dag.best_run_id results = None) /\
  (Dag.models_promoted results = 1 ->
   exists e runs run f run_id,
     e ∈ experiments /\ validated_runs search_runs e = Some runs /\ run ∈ runs /\
     Dag.Mlflow.f1 run = Some f /\ Dag.Mlflow.run_id run = Some run_id /\
     Dag.best_f1_score results = Some f /\ Dag.best_run_id results = Some run_id /\
     (Dag.MIN_F1 <? f)%float = true /\
     (forall run' f', run' ∈ runs -> Dag.Mlflow.f1 run' = Some f' -> (f <? f')%float = false)).
Proof.
  unfold Dag.validate_and_promote_models. simpl. intros Hrun.
  assert (Hinit : validation_invariant search_runs []
                    (Dag.mk_validation (length experiments) 0 0 None None)).
  { unfold validation_invariant. simpl. split; [left; reflexivity|].
    split; [|split; [split; reflexivity | discriminate]].
    split; [discriminate|]. intros (e & He & _). inversion He. }
  destruct (validate_experiments_invariant search_runs _ _ _ _ Hinit Hrun)
    as ((H01 & Hiff & H0 & H1) & Hfound).
  simpl in *. split; [exact Hfound|]. split; [exact H01|]. split; [exact Hiff|].
  split; [exact H0 | exact H1].
Qed.

Lemma promotion_sample_witness :
  let results := Dag.mk_validation 2 3 1 (Some 0.82%float) (Some "run-b") in
  Dag.validate_and_promote_models DagSample.search_runs (Some DagSample.experiments)
  = Some results /\
  Dag.experiments_found results = length DagSample.experiments.
Proof.
  cbv zeta.
  assert (H : Dag.validate_and_promote_models DagSample.search_runs
                (Some DagSample.experiments)
              = Some (Dag.mk_validation 2 3 1 (Some 0.82%float) (Some "run-b")))
    by (vm_compute; reflexivity).
  split; [exact H|].
  exact (proj1 (promotion_requires_f1_above_threshold _ _ _ H)).
Defined.

(** models_validated is not a total over the experiments: it is the
    number of runs of the last experiment whose runs were looked at. *)
Theorem models_validated_of_last_experiment
    (search_runs : string -> option Dag.Mlflow.runs_response)
    (before after : list Dag.Mlflow.experiment) (e : Dag.Mlflow.experiment)
    (runs : list Dag.Mlflow.run) (results : Dag.validation_results) :
  Dag.validate_and_promote_models search_runs (Some (before ++ e :: after)) = Some results ->
  validated_runs search_runs e = Some runs ->
  Forall (fun e' => validated_runs search_runs e' = None) after ->
  Dag.models_validated results = length runs.
Proof.
  unfold Dag.validate_and_promote_models. simpl. rewrite validate_experiments_app.
  destruct (Dag.validate_experiments search_runs _ before) as [results1|]; simpl; [|discriminate].
  destruct (Dag.validate_experiment search_runs results1 e) as [results2|] eqn:Hstep;
    simpl; [|discriminate].
  intros Hrun Hruns Hafter.
  rewrite (validate_experiments_validated _ _ _ _ Hrun Hafter).
  eapply validate_experiment_validated; eassumption.
Qed.

Lemma models_validated_sample_witness :
  let runs := [ Dag.Mlflow.mk_run (Some "run-a") (Some 0.75%float);
                Dag.Mlflow.mk_run (Some "run-b") (Some 0.82%float);
                Dag.Mlflow.mk_run (Some "run-c") None ] in
  validated_runs DagSample.search_runs
    (Dag.Mlflow.mk_experiment (Some "sensor-anomaly-detection") (Some "1")) = Some runs /\
  Dag.models_validated (Dag.mk_validation 2 3 1 (Some 0.82%float) (Some "run-b"))
  = length runs.
Proof.
  cbv zeta.
  assert (H1 : Dag.validate_and_promote_models DagSample.search_runs
                 (Some ([Dag.Mlflow.mk_experiment (Some "Default") (Some "0")]
                        ++ Dag.Mlflow.mk_experiment (Some "sensor-anomaly-detection") (Some "1")
                        :: []))
               = Some (Dag.mk_validation 2 3 1 (Some 0.82%float) (Some "run-b")))
    by (vm_compute; reflexivity).
  assert (H2 : validated_runs DagSample.search_runs
                 (Dag.Mlflow.mk_experiment (Some "sensor-anomaly-detection") (Some "1"))
               = Some [ Dag.Mlflow.mk_run (Some "run-a") (Some 0.75%float);
                        Dag.Mlflow.mk_run (Some "run-b") (Some 0.82%float);
                        Dag.Mlflow.mk_run (Some "run-c") None ])
    by (vm_compute; reflexivity).
  assert (H3 : Forall (fun e' => validated_runs DagSample.search_runs e' = None) [])
    by constructor.
  split; [exact H2|].
  exact (models_validated_of_last_experiment _ _ _ _ _ _ H1 H2 H3).
Defined.

(** The report is generated from the results of the health check and of
    the monitoring: whenever it is generated, it shows the infrastructure
    as passing and the data pipeline as active, whatever the services
    answered. *)
Theorem report_summary_is_constant
    (probe : string -> option Z) (results : list (string * bool))
    (flink_response : option (Z * option (list string))) (minio_response : option Z)
    (model_validation : option Dag.validation_results) :
  Dag.validate_infrastructure probe = inr results ->
  let report := Dag.generate_performance_report results
                  (Dag.monitor_data_flow flink_response minio_response) model_validation in
  Dag.infrastructure_health report = Dag.PASS /\ Dag.data_pipeline report = Dag.ACTIVE.
Proof.
  intros Hresults. cbv zeta. unfold Dag.generate_performance_report.
  cbn [Dag.infrastructure_health Dag.data_pipeline]. split.
  - unfold Dag.validate_infrastructure in Hresults. cbv zeta in Hresults.
    destruct (forallb snd (Dag.health_checks probe Dag.services)) eqn:Hall;
      cbn [negb] in Hresults; [|discriminate].
    assert (results = Dag.health_checks probe Dag.services) by congruence.
    subst results. rewrite Hall. reflexivity.
  - assert (H : Dag.flink_processing_active
                  (Dag.monitor_data_flow flink_response minio_response) = true).
    { unfold Dag.monitor_data_flow.
      destruct flink_response as [[status_code [statuses|]]|]; try reflexivity;
        destruct (status_code =? 200); destruct minio_response; reflexivity. }
    rewrite H. reflexivity.
Qed.

Lemma report_summary_sample_witness :
  Dag.validate_infrastructure DagSample.probe
  = inr [("kafka", true); ("flink", true); ("mlflow", true); ("minio", true)] /\
  Dag.infrastructure_health
    (Dag.generate_performance_report
       [("kafka", true); ("flink", true); ("mlflow", true); ("minio", true)]
       (Dag.monitor_data_flow None None) None) = Dag.PASS.
Proof.
  assert (H : Dag.validate_infrastructure DagSample.probe
              = inr [("kafka", true); ("flink", true); ("mlflow", true); ("minio", true)])
    by (vm_compute; reflexivity).
  split; [exact H|].
  exact (proj1 (report_summary_is_constant DagSample.probe _ None None None H)).
Defined.

(** * The loader of the trainer *)


(** The prefix that the loader lists for a date matches the files that the
    sink has written for a row exactly when the date of the row's event
    time, as the sink formats it, is that date: the loader selects by the
    date of the events, whatever the hour.  The marker of a committed
    partition is not a parquet object, so it is never read. *)
Theorem loader_prefix_selects_partition_date
    (proctime : Z) (e : SensorSource.row) (current_date : Z) (file : string) :
  (String.prefix (Loader.prefix_of (Builtin.format_date current_date))
     (archive_object_key (archive_query proctime e) file) = true <->
   Builtin.format_date current_date = Builtin.format_date (SensorSource.event_time e)) /\
  Loader.endswith (archive_object_key (archive_query proctime e) Archive.SUCCESS_FILE)
    ".parquet" = false.
Proof.
  unfold archive_object_key, Archive.partition_path, Archive.partition_dir, Loader.prefix_of.
  assert (Hdate : MinioArchive.partition_date (archive_query proctime e)
                  = Some (Builtin.format_date (SensorSource.event_time e))) by reflexivity.
  rewrite Hdate. cbn [default]. split.
  - rewrite !string_append_assoc. rewrite !string_append_cons, !string_append_nil.
    cbn [String.prefix].
    repeat match goal with
           | |- context [ascii_dec ?a ?a] =>
               let E := fresh in destruct (ascii_dec a a) as [E|E]; [clear E | contradiction]
           end.
    rewrite prefix_append_same_length by (rewrite !format_date_length; reflexivity).
    rewrite ?string_append_cons, ?string_append_nil. cbn [String.prefix].
    destruct (ascii_dec "/" "/") as [_|Hne]; [|contradiction].
    split; [intros (H & _); exact H | intros H; split; [exact H | reflexivity]].
  - rewrite <- !string_append_assoc. apply endswith_append. reflexivity.
Qed.

Section LoaderFacts.

Context {frame : Type}.
Variable list_objects_v2 : string -> option (list string).
Variable read_parquet : string -> option frame.

Local Abbreviation load_objects := (Loader.load_objects frame read_parquet).
Local Abbreviation load_date := (Loader.load_date frame list_objects_v2 read_parquet).
Local Abbreviation load_dates := (Loader.load_dates frame list_objects_v2 read_parquet).
Local Abbreviation load_all := (fold_left (fun dataframes current_date => load_date current_date dataframes)).

Lemma load_objects_acc (contents : list string) (dataframes : list frame) :
  load_objects contents dataframes = dataframes ++ load_objects contents [].
Proof.
  revert dataframes. induction contents as [|key rest IH]; intros dataframes; simpl.
  - rewrite app_nil_r. reflexivity.
  - destruct (Loader.endswith key ".parquet"); [|apply IH].
    destruct (read_parquet key) as [df|]; [|rewrite app_nil_r; reflexivity].
    rewrite IH, (IH [df]), app_assoc. reflexivity.
Qed.

Lemma load_objects_nil (contents : list string) :
  load_objects contents [] = [] <->
  match first_parquet contents with
  | None => True
  | Some key => read_parquet key = None
  end.
Proof.
  unfold first_parquet. induction contents as [|key rest IH]; simpl.
  - split; auto.
  - rewrite filter_cons. destruct (Loader.endswith key ".parquet") eqn:E.
    + destruct (decide _) as [_|Hn]; [|exfalso; apply Hn; exact I]. simpl.
      destruct (read_parquet key) as [df|]; [|split; auto].
      rewrite load_objects_acc. split; discriminate.
    + destruct (decide _) as [[]|_]. exact IH.
Qed.

Lemma load_objects_sound (contents : list string) (dataframes : list frame) (df : frame) :
  df ∈ load_objects contents dataframes ->
  df ∈ dataframes \/
  exists key, key ∈ contents /\ Loader.endswith key ".parquet" = true /\
              read_parquet key = Some df.
Proof.
  revert dataframes. induction contents as [|key rest IH]; intros dataframes; simpl.
  - auto.
  - destruct (Loader.endswith key ".parquet") eqn:E.
    + destruct (read_parquet key) as [df'|] eqn:Hread; [|auto].
      intros H. destruct (IH _ H) as [Hin|(key' & Hin & He & Hr)].
      * apply elem_of_app in Hin. destruct Hin as [Hin|Hin]; [auto|].
        apply list_elem_of_singleton in Hin. subst df'.
        right. exists key. split; [left | auto].
      * right. exists key'. split; [right; exact Hin | auto].
    + intros H. destruct (IH _ H) as [Hin|(key' & Hin & He & Hr)]; [auto|].
      right. exists key'. split; [right; exact Hin | auto].
Qed.

Lemma load_date_acc (current_date : Z) (dataframes : list frame) :
  load_date current_date dataframes = dataframes ++ load_date current_date [].
Proof.
  unfold Loader.load_date. cbv zeta.
  destruct (list_objects_v2 _); [apply load_objects_acc | rewrite app_nil_r; reflexivity].
Qed.

Lemma load_date_nil (current_date : Z) :
  load_date current_date [] = [] <->
  day_yields_nothing list_objects_v2 read_parquet current_date.
Proof.
  unfold Loader.load_date, day_yields_nothing. cbv zeta.
  destruct (list_objects_v2 _); [apply load_objects_nil | split; auto].
Qed.

Lemma load_all_acc (dates : list Z) (dataframes : list frame) :
  load_all dates dataframes = dataframes ++ load_all dates [].
Proof.
  revert dataframes. induction dates as [|d dates IH]; intros dataframes; simpl.
  - rewrite app_nil_r. reflexivity.
  - rewrite IH, (IH (load_date d [])), load_date_acc, app_assoc. reflexivity.
Qed.

Lemma load_all_nil (dates : list Z) :
  load_all dates [] = [] <->
  Forall (day_yields_nothing list_objects_v2 read_parquet) dates.
Proof.
  induction dates as [|d dates IH]; simpl.
  - split; [constructor | reflexivity].
  - rewrite load_all_acc, Forall_cons, <- IH, <- load_date_nil. split.
    + intros H. apply app_eq_nil in H. exact H.
    + intros (-> & ->). reflexivity.
Qed.

Lemma load_all_sound (dates : list Z) (dataframes : list frame) (df : frame) :
  df ∈ load_all dates dataframes ->
  df ∈ dataframes \/
  exists current_date contents key,
    current_date ∈ dates /\
    list_objects_v2 (Loader.prefix_of (Builtin.format_date current_date)) = Some contents /\
    key ∈ contents /\ Loader.endswith key ".parquet" = true /\ read_parquet key = Some df.
Proof.
  revert dataframes. induction dates as [|d dates IH]; intros dataframes; simpl; [auto|].
  intros H. destruct (IH _ H) as [Hin|(d' & contents & key & Hd & Hrest)].
  - unfold Loader.load_date in Hin. cbv zeta in Hin.
    destruct (list_objects_v2 _) as [contents|] eqn:Hlist; [|auto].
    destruct (load_objects_sound _ _ _ Hin) as [Hin'|(key & Hkey & He & Hr)]; [auto|].
    right. exists d, contents, key. split; [left | auto].
  - right. exists d', contents, key. split; [right; exact Hd | exact Hrest].
Qed.

(** The loop over the dates ends after one round for each date from the
    start date to the end date. *)
Lemma load_dates_closed (n fuel : nat) (current_date end_date : Z) (dataframes : list frame) :
  (n <= fuel)%nat ->
  end_date < current_date + Z.of_nat n * Loader.DAY ->
  ((0 < n)%nat -> current_date + (Z.of_nat n - 1) * Loader.DAY <= end_date) ->
  load_dates fuel current_date end_date dataframes
  = Some (load_all (map (fun i : nat => current_date + Z.of_nat i * Loader.DAY) (seq 0 n))
            dataframes).
Proof.
  revert fuel current_date dataframes.
  induction n as [|n IH]; intros fuel current_date dataframes Hfuel Hhi Hlo.
  - assert (Hgt : (current_date <=? end_date) = false) by (apply Z.leb_gt; lia).
    destruct fuel; simpl; rewrite Hgt; reflexivity.
  - assert (Hlo' : current_date + (Z.of_nat (S n) - 1) * Loader.DAY <= end_date)
      by (apply Hlo; lia).
    assert (Hle : (current_date <=? end_date) = true).
    { apply Z.leb_le. unfold Loader.DAY, Builtin.MILLIS_PER_DAY in *. lia. }
    destruct fuel as [|fuel]; [lia|]. simpl. rewrite Hle.
    rewrite IH by (unfold Loader.DAY, Builtin.MILLIS_PER_DAY in *; lia).
    rewrite Z.mul_0_l, Z.add_0_r. do 2 f_equal.
    rewrite <- seq_shift, map_map. apply map_ext. intros i.
    unfold Loader.DAY, Builtin.MILLIS_PER_DAY. lia.
Qed.

Lemma load_sensor_data_closed (fuel : nat) (now days_back : Z) :
  (Z.to_nat (days_back + 1) <= fuel)%nat ->
  Loader.load_dates frame list_objects_v2 read_parquet fuel
    (now - days_back * Loader.DAY) now []
  = Some (load_all (loader_dates now days_back) []).
Proof.
  intros Hfuel. unfold loader_dates. apply load_dates_closed; [exact Hfuel| |];
    unfold Loader.DAY, Builtin.MILLIS_PER_DAY; lia.
Qed.

End LoaderFacts.

(** The loader ends: given fuel for one round per date, it lists the dates
    from [days_back] days ago to today and then either returns at least
    one frame or raises the ValueError.  It raises exactly when no date
    yields a frame: for each date the listing fails, or has no object whose
    key ends in .parquet, or the first such object cannot be read. *)
Theorem loader_returns_frames_or_raises {frame : Type}
    (list_objects_v2 : string -> option (list string))
    (read_parquet : string -> option frame) (fuel : nat) (now days_back : Z) :
  (Z.to_nat (days_back + 1) <= fuel)%nat ->
  let outcome := Loader.load_sensor_data frame list_objects_v2 read_parquet fuel now days_back in
  outcome <> Loader.OutOfFuel /\
  outcome <> Loader.Returned [] /\
  (outcome = Loader.Raised <->
   Forall (day_yields_nothing list_objects_v2 read_parquet) (loader_dates now days_back)) /\
  (days_back < 0 -> outcome = Loader.Raised).
Proof.
  intros Hfuel. cbv zeta. unfold Loader.load_sensor_data. cbv zeta.
  rewrite (load_sensor_data_closed list_objects_v2 read_parquet fuel now days_back Hfuel).
  pose proof (load_all_nil list_objects_v2 read_parquet (loader_dates now days_back)) as Hnil.
  assert (Hneg : days_back < 0 -> loader_dates now days_back = []).
  { intros H. unfold loader_dates. replace (Z.to_nat (days_back + 1)) with 0%nat by lia.
    reflexivity. }
  destruct (fold_left _ (loader_dates now days_back) []) as [|df dfs] eqn:E.
  - split; [discriminate|]. split; [discriminate|]. split; [|reflexivity].
    split; [intros _; apply Hnil; reflexivity | reflexivity].
  - split; [discriminate|]. split; [discriminate|]. split.
    + split; [discriminate|]. intros H. apply Hnil in H. discriminate.
    + intros H. rewrite (Hneg H) in E. discriminate.
Qed.

Lemma loader_sample_witness :
  (Z.to_nat (7 + 1) <= 8)%nat /\
  Loader.load_sensor_data _ LoaderSample.list_objects_v2 LoaderSample.read_parquet
    8 LoaderSample.now 7 <> Loader.OutOfFuel.
Proof.
  assert (H : (Z.to_nat (7 + 1) <= 8)%nat) by (vm_compute; lia).
  split; [exact H|].
  exact (proj1 (loader_returns_frames_or_raises LoaderSample.list_objects_v2
                  LoaderSample.read_parquet 8 LoaderSample.now 7 H)).
Defined.

(** Every frame that the loader returns was read from an object whose key
    ends in .parquet and that was listed under the prefix of one of the
    [days_back + 1] dates. *)
Theorem loaded_frames_come_from_dated_parquet_objects {frame : Type}
    (list_objects_v2 : string -> option (list string))
    (read_parquet : string -> option frame) (fuel : nat) (now days_back : Z)
    (dataframes : list frame) (df : frame) :
  Loader.load_sensor_data frame list_objects_v2 read_parquet fuel now days_back
  = Loader.Returned dataframes ->
  df ∈ dataframes ->
  exists (i : Z) (contents : list string) (key : string),
    0 <= i <= days_back /\
    list_objects_v2
      (Loader.prefix_of (Builtin.format_date (now - days_back * Loader.DAY + i * Loader.DAY)))
    = Some contents /\
    key ∈ contents /\ Loader.endswith key ".parquet" = true /\ read_parquet key = Some df.
Proof.
  unfold Loader.load_sensor_data. cbv zeta. intros Hload Hdf.
  destruct (Loader.load_dates frame list_objects_v2 read_parquet fuel _ now [])
    as [[|df0 dfs]|] eqn:Hdates; try discriminate.
  injection Hload as <-.
  assert (Hgen : forall fuel current_date acc result,
             Loader.load_dates frame list_objects_v2 read_parquet fuel current_date now acc
             = Some result ->
             exists n : nat,
               result = fold_left (fun dataframes d =>
                                     Loader.load_date frame list_objects_v2 read_parquet d
                                       dataframes)
                          (map (fun i : nat => current_date + Z.of_nat i * Loader.DAY) (seq 0 n))
                          acc /\
               (n = 0%nat \/ current_date + (Z.of_nat n - 1) * Loader.DAY <= now)).
  { clear. induction fuel as [|fuel IH]; intros current_date acc result; simpl.
    - destruct (current_date <=? now); [discriminate|]. intros [= <-].
      exists 0%nat. split; [reflexivity | left; reflexivity].
    - destruct (current_date <=? now) eqn:Hle.
      + intros H. destruct (IH _ _ _ H) as (n & -> & Hn). exists (S n). split.
        * simpl. rewrite Z.mul_0_l, Z.add_0_r. f_equal.
          rewrite <- seq_shift, map_map. apply map_ext. intros i.
          unfold Loader.DAY, Builtin.MILLIS_PER_DAY. lia.
        * right. apply Z.leb_le in Hle.
          unfold Loader.DAY, Builtin.MILLIS_PER_DAY in *. lia.
      + intros [= <-]. exists 0%nat. split; [reflexivity | left; reflexivity]. }
  destruct (Hgen _ _ _ _ Hdates) as (n & Hresult & Hn).
  rewrite Hresult in Hdf.
  destruct (load_all_sound list_objects_v2 read_parquet _ _ _ Hdf)
    as [Hnil|(d & contents & key & Hd & Hlist & Hkey & Hend & Hread)]; [inversion Hnil|].
  apply list_elem_of_fmap in Hd. destruct Hd as (i & -> & Hi).
  apply elem_of_seq in Hi.
  exists (Z.of_nat i), contents, key. split; [|auto].
  destruct Hn as [->|Hn]; [lia|].
  unfold Loader.DAY, Builtin.MILLIS_PER_DAY in *. nia.
Qed.

Lemma loaded_frames_sample_witness :
  Loader.load_sensor_data _ LoaderSample.list_objects_v2 LoaderSample.read_parquet
    8 LoaderSample.now 7 = Loader.Returned [[Sample.hot_humid]] /\
  [Sample.hot_humid] ∈ [[Sample.hot_humid]] /\
  exists (i : Z) (contents : list string) (key : string),
    0 <= i <= 7 /\
    LoaderSample.list_objects_v2
      (Loader.prefix_of (Builtin.format_date
                           (LoaderSample.now - 7 * Loader.DAY + i * Loader.DAY)))
    = Some contents /\
    key ∈ contents /\ Loader.endswith key ".parquet" = true /\
    LoaderSample.read_parquet key = Some [Sample.hot_humid].
Proof.
  assert (H1 : Loader.load_sensor_data _ LoaderSample.list_objects_v2
                 LoaderSample.read_parquet 8 LoaderSample.now 7
               = Loader.Returned [[Sample.hot_humid]]) by (vm_compute; reflexivity).
  assert (H2 : [Sample.hot_humid] ∈ [[Sample.hot_humid]]) by left.
  split; [exact H1|]. split; [exact H2|].
  exact (loaded_frames_come_from_dated_parquet_objects _ _ _ _ _ _ _ H1 H2).
Defined.

(** When none of the eight dates yields a frame, and so whenever the
    archive is empty or cannot be reached, [main] ends with the ValueError
    of the loader: the synthetic data is used only after at least one
    object has been read. *)
Theorem synthetic_data_needs_a_loaded_frame {frame : Type}
    (list_objects_v2 : string -> option (list string))
    (read_parquet : string -> option frame) (empty : list frame -> bool)
    (fuel : nat) (now : Z) :
  (8 <= fuel)%nat ->
  let outcome := Loader.main_data frame list_objects_v2 read_parquet empty fuel now in
  (Forall (day_yields_nothing list_objects_v2 read_parquet) (loader_dates now 7) ->
   outcome = Loader.Raised) /\
  (forall n_samples, outcome = Loader.Returned (Loader.Synthetic frame n_samples) ->
     n_samples = 1000 /\
     exists current_date contents key df,
       current_date ∈ loader_dates now 7 /\
       list_objects_v2 (Loader.prefix_of (Builtin.format_date current_date)) = Some contents /\
       key ∈ contents /\ Loader.endswith key ".parquet" = true /\
       read_parquet key = Some df).
Proof.
  intros Hfuel. cbv zeta. unfold Loader.main_data, Loader.load_sensor_data, Loader.DAYS_BACK.
  cbv zeta.
  rewrite (load_sensor_data_closed list_objects_v2 read_parquet fuel now 7)
    by (change (Z.to_nat (7 + 1)) with 8%nat; exact Hfuel).
  pose proof (load_all_nil list_objects_v2 read_parquet (loader_dates now 7)) as Hnil.
  destruct (fold_left _ (loader_dates now 7) []) as [|df dfs] eqn:E.
  - split; [reflexivity | discriminate].
  - split; [intros H; apply Hnil in H; discriminate|].
    intros n_samples Hout. destruct (empty (df :: dfs)); [|discriminate].
    injection Hout as <-. split; [reflexivity|].
    assert (Hdf : df ∈ fold_left (fun dataframes d =>
                                    Loader.load_date frame list_objects_v2 read_parquet d
                                      dataframes) (loader_dates now 7) [])
      by (rewrite E; left).
    destruct (load_all_sound list_objects_v2 read_parquet _ _ _ Hdf)
      as [Hin|(d & contents & key & Hd & Hlist & Hkey & Hend & Hread)]; [inversion Hin|].
    exists d, contents, key, df. auto.
Qed.

Lemma synthetic_data_sample_witness :
  (8 <= 8)%nat /\
  (forall n_samples,
     Loader.main_data _ LoaderSample.list_objects_v2 LoaderSample.read_parquet
       (fun _ => true) 8 LoaderSample.now
     = Loader.Returned (Loader.Synthetic _ n_samples) -> n_samples = 1000).
Proof.
  assert (H : (8 <= 8)%nat) by lia.
  split; [exact H|]. intros n_samples Hn.
  exact (proj1 (proj2 (synthetic_data_needs_a_loaded_frame LoaderSample.list_objects_v2
                         LoaderSample.read_parquet (fun _ => true) 8 LoaderSample.now H)
                 n_samples Hn)).
Defined.

(** * The generator *)

Section GeneratorFacts.

Import Generator.

Lemma split_on_nonempty (sep : ascii) (s : string) : split_on sep s <> [].
Proof.
  induction s as [|c s IH]; simpl; [discriminate|].
  destruct (Ascii.eqb c sep); [discriminate|].
  destruct (split_on sep s); discriminate.
Qed.

Lemma split_on_no_sep (sep : ascii) (s : string) :
  has_char sep s = false -> split_on sep s = [s].
Proof.
  induction s as [|c s IH]; simpl; [reflexivity|].
  intros H. apply orb_false_iff in H. destruct H as (Hc & Hs).
  rewrite Hc, (IH Hs). reflexivity.
Qed.

Lemma split_on_sep (sep : ascii) (s : string) :
  has_char sep s = true -> exists w1 w2 ws, split_on sep s = w1 :: w2 :: ws.
Proof.
  induction s as [|c s IH]; simpl; [discriminate|].
  destruct (Ascii.eqb c sep) eqn:Hc; simpl.
  - intros _. destruct (split_on sep s) as [|w ws] eqn:Hs.
    + exfalso. eapply split_on_nonempty; eassumption.
    + eexists _, _, _. reflexivity.
  - intros H. destruct (IH H) as (w1 & w2 & ws & ->). eexists _, _, _. reflexivity.
Qed.

Lemma split_on_append (sep : ascii) (a b : string) :
  has_char sep a = false ->
  split_on sep (String.append a (String sep b)) = a :: split_on sep b.
Proof.
  induction a as [|c a IH].
  - intros _. rewrite string_append_nil. simpl. rewrite Ascii.eqb_refl. reflexivity.
  - intros H. cbn [has_char] in H. apply orb_false_iff in H. destruct H as (Hc & Ha).
    rewrite string_append_cons. cbn [split_on]. rewrite Hc, (IH Ha). reflexivity.
Qed.

(** A text that reads as a decimal number has no underscore. *)
Lemma decimal_no_underscore (s : string) (u : Decimal.uint) :
  DecimalString.NilEmpty.uint_of_string s = Some u -> has_char "_" s = false.
Proof.
  revert u. induction s as [|c s IH]; intros u; simpl; [reflexivity|].
  destruct (DecimalString.NilEmpty.uint_of_string s) as [u'|]; [|discriminate].
  intros H. rewrite (IH u' eq_refl), orb_false_r.
  apply DecimalString.uint_of_char_spec in H.
  destruct H as [(-> & _)|[(-> & _)|[(-> & _)|[(-> & _)|[(-> & _)|[(-> & _)|
                 [(-> & _)|[(-> & _)|[(-> & _)|(-> & _)]]]]]]]]]; reflexivity.
Qed.

Lemma parse_zeros (width : nat) (s : string) (u : Decimal.uint) :
  DecimalString.NilEmpty.uint_of_string s = Some u ->
  exists u', DecimalString.NilEmpty.uint_of_string (String.append (zeros width) s) = Some u' /\
             Nat.of_uint u' = Nat.of_uint u.
Proof.
  intros Hs. induction width as [|width (u' & Hu' & Hval)].
  - exists u. split; [exact Hs | reflexivity].
  - exists (Decimal.D0 u'). split.
    + cbn [zeros]. rewrite string_append_cons. simpl. rewrite Hu'. reflexivity.
    + rewrite <- Hval. reflexivity.
Qed.

Lemma parse_format_03d (i : nat) :
  exists u, DecimalString.NilEmpty.uint_of_string (format_03d i) = Some u /\ Nat.of_uint u = i.
Proof.
  unfold format_03d, str_of_nat. cbv zeta.
  destruct (parse_zeros (3 - String.length
                               (DecimalString.NilEmpty.string_of_uint (Nat.to_uint i)))
              _ _ (DecimalString.NilEmpty.usu (Nat.to_uint i))) as (u & Hu & Hval).
  exists u. split; [exact Hu|]. rewrite Hval. apply DecimalNat.Unsigned.of_to.
Qed.

Lemma format_03d_inj (i j : nat) : format_03d i = format_03d j -> i = j.
Proof.
  intros H. destruct (parse_format_03d i) as (u & Hu & <-).
  destruct (parse_format_03d j) as (v & Hv & <-). rewrite H in Hu. congruence.
Qed.

Lemma building_of_sensor_id (i : nat) :
  building_of (sensor_id_of i) = Some (String.append "Building_" (format_03d i)).
Proof.
  unfold building_of, sensor_id_of.
  change (String.append "sensor_" (format_03d i))
    with (String.append "sensor" (String "_" (format_03d i))).
  rewrite split_on_append by reflexivity.
  destruct (parse_format_03d i) as (u & Hu & _).
  rewrite (split_on_no_sep _ _ (decimal_no_underscore _ _ Hu)). reflexivity.
Qed.

Lemma building_of_None (sensor_id : string) :
  building_of sensor_id = None <-> has_char "_" sensor_id = false.
Proof.
  unfold building_of. destruct (has_char "_" sensor_id) eqn:E.
  - destruct (split_on_sep _ _ E) as (w1 & w2 & ws & ->). simpl. split; discriminate.
  - rewrite (split_on_no_sep _ _ E). simpl. split; reflexivity.
Qed.

Lemma clamp_within (lo hi : Z) (x : float) :
  lo < hi -> within_bounds lo hi (py_max lo (py_min hi x)).
Proof.
  intros Hlt. unfold py_min, py_max, within_bounds.
  destruct (x <? Numeric.double_of_Z hi)%float eqn:Hhi.
  - destruct (Numeric.double_of_Z lo <? x)%float eqn:Hlo; [|left; reflexivity].
    right. right. exists x. auto.
  - apply Z.ltb_lt in Hlt. rewrite Hlt. right. left. reflexivity.
Qed.

End GeneratorFacts.

(** The ids that [main] gives to the sensors are accepted by the
    generator, and each sensor is alone in its building: the building of
    the sensor [i] is Building_ followed by the three (or more) digits of
    [i], and two sensors of one building are the same sensor.  An id
    without an underscore makes the generator raise. *)
Theorem sensors_have_their_own_building (i j : nat) :
  Generator.building_of (Generator.sensor_id_of i)
  = Some (String.append "Building_" (Generator.format_03d i)) /\
  (Generator.building_of (Generator.sensor_id_of i)
   = Generator.building_of (Generator.sensor_id_of j) -> i = j) /\
  (forall round2 sensor_id anomaly_probability d,
     Generator.generate_sensor_reading round2 sensor_id anomaly_probability d = None <->
     has_char "_" sensor_id = false).
Proof.
  split; [apply building_of_sensor_id|]. split.
  - rewrite !building_of_sensor_id. intros [= H].
    apply format_03d_inj. eapply String.app_inj; exact H.
  - intros round2 sensor_id anomaly_probability d.
    rewrite <- building_of_None. unfold Generator.generate_sensor_reading.
    destruct (Generator.raw_readings anomaly_probability d) as [[[a t] h] p].
    destruct (Generator.building_of sensor_id) as [b|]; simpl.
    + destruct (Generator.firmware d) as [[major minor] patch]. split; discriminate.
    + split; reflexivity.
Qed.

(** A reading has the eight keys of the dict literal.  Of the twelve
    columns of [sensor_source] only sensor_id, temperature, humidity,
    pressure and is_anomaly are keys of the reading: the time of the
    reading is under the key timestamp, not event_time, and the building
    and the battery level are inside the dicts location and
    device_info. *)
Theorem reading_keys_and_source_columns
    (round2 : float -> float) (sensor_id : string) (anomaly_probability : float)
    (d : Generator.draws) (reading : Generator.value) :
  Generator.generate_sensor_reading round2 sensor_id anomaly_probability d = Some reading ->
  (exists items,
     reading = Generator.VDict items /\
     map fst items = [ "sensor_id"; "timestamp"; "temperature"; "humidity"; "pressure";
                       "is_anomaly"; "location"; "device_info" ]) /\
  (forall column, column ∈ sensor_source_columns ->
     (is_Some (Generator.get column reading) <->
      column ∈ ["sensor_id"; "temperature"; "humidity"; "pressure"; "is_anomaly"])) /\
  Generator.get "sensor_id" reading = Some (Generator.VStr sensor_id) /\
  Generator.get "timestamp" reading = Some (Generator.VStr (Generator.now_iso d)) /\
  Generator.get "location" reading ≫= Generator.get "building"
  = Generator.VStr <$> Generator.building_of sensor_id /\
  Generator.get "device_info" reading ≫= Generator.get "battery_level"
  = Some (Generator.VInt (Generator.battery_level d)).
Proof.
  unfold Generator.generate_sensor_reading.
  destruct (Generator.raw_readings anomaly_probability d) as [[[a t] h] p].
  destruct (Generator.building_of sensor_id) as [b|]; simpl; [|discriminate].
  destruct (Generator.firmware d) as [[major minor] patch].
  intros [= <-]. split; [eexists; split; reflexivity|].
  split; [|repeat split; reflexivity].
  intros column Hc. unfold sensor_source_columns in Hc.
  repeat (apply elem_of_cons in Hc; destruct Hc as [->|Hc]);
    try (apply elem_of_nil in Hc; contradiction);
    cbn [Generator.get Generator.lookup_item String.eqb Ascii.eqb Bool.eqb];
    rewrite ?elem_of_cons, ?elem_of_nil;
    (split; [intros H; first [left; reflexivity
                             | right; left; reflexivity
                             | right; right; left; reflexivity
                             | right; right; right; left; reflexivity
                             | right; right; right; right; left; reflexivity
                             | destruct H as [? H]; discriminate]
            | intros H; first [eexists; reflexivity | exfalso; intuition discriminate]]).
Qed.

Lemma reading_keys_sample_witness :
  let reading :=
    default (Generator.VDict [])
      (Generator.generate_sensor_reading GeneratorSample.round2 "sensor_001" 0.05
         GeneratorSample.draws) in
  Generator.generate_sensor_reading GeneratorSample.round2 "sensor_001" 0.05
    GeneratorSample.draws = Some reading /\
  Generator.get "timestamp" reading = Some (Generator.VStr "2024-01-15T10:30:00+00:00").
Proof.
  cbv zeta.
  assert (H : Generator.generate_sensor_reading GeneratorSample.round2 "sensor_001" 0.05
                GeneratorSample.draws
              = Some (default (Generator.VDict [])
                        (Generator.generate_sensor_reading GeneratorSample.round2
                           "sensor_001" 0.05 GeneratorSample.draws)))
    by (vm_compute; reflexivity).
  split; [exact H|].
  exact (proj1 (proj2 (proj2 (proj2
    (reading_keys_and_source_columns _ _ _ _ _ H))))).
Defined.

(** In a reading the humidity and the pressure are, before the rounding,
    within their bounds: the humidity is the int 0, the int 100 or a float
    strictly between them, the pressure the int 950, the int 1100 or a
    float strictly between them.  A NaN is replaced by the upper bound. *)
Theorem reading_within_bounds
    (round2 : float -> float) (sensor_id : string) (anomaly_probability : float)
    (d : Generator.draws) (reading : Generator.value) :
  Generator.generate_sensor_reading round2 sensor_id anomaly_probability d = Some reading ->
  exists humidity pressure,
    Generator.get "humidity" reading = Some (Generator.round_value round2 humidity) /\
    Generator.get "pressure" reading = Some (Generator.round_value round2 pressure) /\
    within_bounds 0 100 humidity /\ within_bounds 950 1100 pressure /\
    (Generator.py_max 0 (Generator.py_min 100 nan) = Generator.VInt 100).
Proof.
  unfold Generator.generate_sensor_reading.
  destruct (Generator.raw_readings anomaly_probability d) as [[[a t] h] p].
  destruct (Generator.building_of sensor_id) as [b|]; simpl; [|discriminate].
  destruct (Generator.firmware d) as [[major minor] patch].
  intros [= <-].
  exists (Generator.py_max 0 (Generator.py_min 100 h)),
         (Generator.py_max 950 (Generator.py_min 1100 p)).
  split; [reflexivity|]. split; [reflexivity|].
  split; [apply clamp_within; lia|]. split; [apply clamp_within; lia|].
  vm_compute. reflexivity.
Qed.

Lemma reading_bounds_sample_witness :
  let reading :=
    default (Generator.VDict [])
      (Generator.generate_sensor_reading GeneratorSample.round2 "sensor_001" 0.05
         GeneratorSample.draws) in
  Generator.generate_sensor_reading GeneratorSample.round2 "sensor_001" 0.05
    GeneratorSample.draws = Some reading /\
  exists humidity, Generator.get "humidity" reading
                   = Some (Generator.round_value GeneratorSample.round2 humidity) /\
                   within_bounds 0 100 humidity.
Proof.
  cbv zeta.
  assert (H : Generator.generate_sensor_reading GeneratorSample.round2 "sensor_001" 0.05
                GeneratorSample.draws
              = Some (default (Generator.VDict [])
                        (Generator.generate_sensor_reading GeneratorSample.round2
                           "sensor_001" 0.05 GeneratorSample.draws)))
    by (vm_compute; reflexivity).
  split; [exact H|].
  destruct (reading_within_bounds _ _ _ _ _ H) as (humidity & pressure & H1 & _ & H3 & _).
  exists humidity. split; assumption.
Defined.

(** ** The rounds of [main] *)

Section GeneratorRounds.

Lemma length_sensor_ids (sensors : Z) :
  Z.of_nat (length (Generator.sensor_ids sensors)) = Z.max 0 sensors.
Proof. unfold Generator.sensor_ids. rewrite length_map, length_seq. lia. Qed.

Lemma multiple_of_round (sensors j : Z) :
  1 <= sensors ->
  (j * sensors mod (sensors * 60) =? 0) = (j mod 60 =? 0).
Proof.
  intros Hs. rewrite (Z.mul_comm sensors 60), Z.mul_mod_distr_r by lia.
  destruct (j mod 60 =? 0) eqn:E.
  - apply Z.eqb_eq in E. rewrite E. reflexivity.
  - apply Z.eqb_neq in E. apply Z.eqb_neq. nia.
Qed.

Lemma rounds_from (k : nat) (sensors j : Z) :
  1 <= sensors ->
  GeneratorMain.rounds k sensors (j * sensors)
  = Some ((j + Z.of_nat k) * sensors,
          map (fun i : nat => (j + Z.of_nat i + 1) mod 60 =? 0) (seq 0 k)).
Proof.
  intros Hs. revert j. induction k as [|k IH]; intros j.
  - simpl. do 2 f_equal. lia.
  - cbn [GeneratorMain.rounds]. unfold GeneratorMain.round.
    rewrite length_sensor_ids.
    assert (Hne : (sensors * 60 =? 0) = false) by (apply Z.eqb_neq; lia).
    rewrite Hne.
    replace (j * sensors + Z.max 0 sensors) with ((j + 1) * sensors) by lia.
    rewrite IH, multiple_of_round by exact Hs.
    f_equal. f_equal; [lia|]. cbn [seq map]. f_equal.
    + rewrite Z.add_0_r. reflexivity.
    + rewrite <- seq_shift, map_map. apply map_ext. intros i. do 2 f_equal. lia.
Qed.

End GeneratorRounds.

(** With at least one sensor, [k] rounds of the generator send
    [k * sensors] messages, and the progress is logged in every sixtieth
    round and in no other.  With no sensor the first round ends the
    generator with a ZeroDivisionError, nothing having been sent. *)
Theorem progress_logged_every_sixtieth_round (k : nat) (sensors : Z) :
  (1 <= sensors ->
   exists logs,
     GeneratorMain.rounds k sensors 0 = Some (Z.of_nat k * sensors, logs) /\
     length logs = k /\
     forall i : nat, (i < k)%nat ->
       logs !! i = Some (bool_decide ((Z.of_nat i + 1) mod 60 = 0))) /\
  (sensors = 0 -> GeneratorMain.rounds (S k) sensors 0 = None).
Proof.
  split.
  - intros Hs. pose proof (rounds_from k sensors 0 Hs) as H.
    rewrite Z.mul_0_l, Z.add_0_l in H. eexists. split; [exact H|].
    split; [rewrite length_map, length_seq; reflexivity|].
    intros i Hi. rewrite list_lookup_fmap, lookup_seq_lt by exact Hi. simpl.
    f_equal. rewrite Z.add_0_l.
    destruct (Z.eqb_spec ((Z.of_nat i + 1) mod 60) 0) as [E|E].
    + symmetry. apply bool_decide_eq_true. exact E.
    + symmetry. apply bool_decide_eq_false. exact E.
  - intros ->. reflexivity.
Qed.

(** * The synthetic data *)

(** A synthetic row is labelled as the stream job labels a row of the same
    readings: the temperature trend, the humidity category and, before
    its rounding, the comfort index of the synthetic row are those that the
    enrichment query gives to a row of that temperature and humidity. *)
Theorem synthetic_row_labelled_like_enrichment
    (proctime : Z) (e : SensorSource.row) (temperature humidity : float) :
  SensorSource.temperature e = Some temperature ->
  SensorSource.humidity e = Some humidity ->
  ProcessedSink.temp_trend (processed_query proctime e)
  = Some (Synthetic.temp_trend temperature) /\
  ProcessedSink.humidity_category (processed_query proctime e)
  = Some (Synthetic.humidity_category humidity) /\
  ProcessedSink.comfort_index (processed_query proctime e)
  = Some (Synthetic.comfort_index temperature humidity).
Proof.
  intros Ht Hh. unfold processed_query, Synthetic.temp_trend, Synthetic.humidity_category,
    Synthetic.comfort_index. cbv zeta. rewrite Ht, Hh. simpl.
  destruct (25 <? temperature)%float; destruct (temperature <? 18)%float;
    destruct (70 <? humidity)%float; destruct (humidity <? 30)%float; repeat split.
Qed.

Lemma synthetic_row_sample_witness :
  SensorSource.temperature Sample.hot_humid = Some 26%float /\
  SensorSource.humidity Sample.hot_humid = Some 75%float /\
  ProcessedSink.temp_trend (processed_query 0 Sample.hot_humid)
  = Some (Synthetic.temp_trend 26).
Proof.
  assert (H1 : SensorSource.temperature Sample.hot_humid = Some 26%float) by reflexivity.
  assert (H2 : SensorSource.humidity Sample.hot_humid = Some 75%float) by reflexivity.
  split; [exact H1|]. split; [exact H2|].
  exact (proj1 (synthetic_row_labelled_like_enrichment 0 Sample.hot_humid 26 75 H1 H2)).
Defined.
